(** * makeflop.py: a FAT12 floppy image engine, embedded and verified

    The definitions below follow [src/makeflop.py] function by function.
    Python integers are [Z], a [bytearray] is a [list Z] of values in
    [0, 256), a [str] is a [string], and every call that can raise returns
    a [result]. Loops that Python runs without a bound take a fuel argument;
    running out of it is the outcome [OutOfFuel], never a value. *)

From Stdlib Require Import ZArith List String Ascii Bool Lia FinFun.
Import ListNotations.
Local Open Scope Z_scope.

(** ** Outcomes of a Python call *)

Inductive exn : Type :=
| FloppyError          (* raise self.Error(...) *)
| PyNameError          (* a name that is not bound: [self] in _filestring, [data] in _boot_open *)
| PyAttributeError     (* self.error: Floppy has no such attribute *)
| PyIndexError         (* sequence index out of range *)
| PyZeroDivisionError  (* // or % by zero *)
| PyUnicodeError       (* str.encode("ASCII") / bytes.decode("ASCII") *)
| PyStructError        (* struct.pack of a value out of range *)
| PyValueError.        (* a bytearray item outside range(256) *)

Inductive result (A : Type) : Type :=
| Ok (a : A)
| Raise (e : exn)
| OutOfFuel.
Arguments Ok {A} a.
Arguments Raise {A} e.
Arguments OutOfFuel {A}.

Definition bind {A B : Type} (m : result A) (k : A -> result B) : result B :=
  match m with
  | Ok a => k a
  | Raise e => Raise e
  | OutOfFuel => OutOfFuel
  end.

Notation "x <- m ;; k" := (bind m (fun x => k))
  (at level 61, m at next level, right associativity).
Notation "' p <- m ;; k" := (bind m (fun x => match x with p => k end))
  (at level 61, p pattern, m at next level, right associativity).

Definition is_ok {A : Type} (m : result A) : bool :=
  match m with Ok _ => true | _ => false end.

(** ** Python sequences *)

Module Py.

Definition len {A : Type} (l : list A) : Z := Z.of_nat (List.length l).

(** [l[i]]: a negative index counts from the end. *)
Definition index {A : Type} (l : list A) (i : Z) : result A :=
  let j := if i <? 0 then i + len l else i in
  if j <? 0 then Raise PyIndexError
  else match nth_error l (Z.to_nat j) with
       | Some x => Ok x
       | None => Raise PyIndexError
       end.

Fixpoint update {A : Type} (l : list A) (n : nat) (v : A) : option (list A) :=
  match l, n with
  | [], _ => None
  | _ :: t, O => Some (v :: t)
  | h :: t, S k => match update t k v with
                   | Some t' => Some (h :: t')
                   | None => None
                   end
  end.

(** [l[i] = v] on a list. *)
Definition store {A : Type} (l : list A) (i : Z) (v : A) : result (list A) :=
  let j := if i <? 0 then i + len l else i in
  if j <? 0 then Raise PyIndexError
  else match update l (Z.to_nat j) v with
       | Some l' => Ok l'
       | None => Raise PyIndexError
       end.

(** [b[i] = v] on a bytearray: the value must be in range(256). *)
Definition bstore (l : list Z) (i : Z) (v : Z) : result (list Z) :=
  if (v <? 0) || (256 <=? v) then Raise PyValueError else store l i v.

(** A slice bound below zero counts from the end, and stops at the start. *)
Definition wrap {A : Type} (l : list A) (i : Z) : Z :=
  if i <? 0 then Z.max (i + len l) 0 else i.

(** [l[a:b]]: bounds past the end stop at the end. *)
Definition slice {A : Type} (l : list A) (a b : Z) : list A :=
  let a' := wrap l a in
  let b' := wrap l b in
  firstn (Z.to_nat (b' - a')) (skipn (Z.to_nat a') l).

(** [l[a:b] = v]: what lies between the bounds is replaced by [v]. *)
Definition slice_assign {A : Type} (l : list A) (a b : Z) (v : list A) : list A :=
  let a' := wrap l a in
  let b' := Z.max a' (wrap l b) in
  firstn (Z.to_nat a') l ++ v ++ skipn (Z.to_nat b') l.

(** [x == y] on two sequences *)
Fixpoint eqb (x y : list Z) : bool :=
  match x, y with
  | [], [] => true
  | a :: x', b :: y' => (a =? b) && eqb x' y'
  | _, _ => false
  end.

(** [a // b] and [a % b] *)
Definition floordiv (a b : Z) : result Z :=
  if b =? 0 then Raise PyZeroDivisionError else Ok (a / b).

Definition modulo (a b : Z) : result Z :=
  if b =? 0 then Raise PyZeroDivisionError else Ok (a mod b).

End Py.

(** ** The image and its parsed state (the attributes of a Floppy) *)

Record Floppy : Type := mkFloppy {
  data : list Z;
  sector_size : Z;
  cluster_sects : Z;
  reserved_sects : Z;
  fat_count : Z;
  root_max : Z;
  sectors : Z;
  fat_sects : Z;
  track_sects : Z;
  heads : Z;
  volume_id : Z;
  volume_label : string;
  root : Z;
  cluster2 : Z;
  cluster_limit : Z;
  fat : list Z
}.

Definition set_data (f : Floppy) (d : list Z) : Floppy :=
  mkFloppy d (sector_size f) (cluster_sects f) (reserved_sects f) (fat_count f)
    (root_max f) (sectors f) (fat_sects f) (track_sects f) (heads f)
    (volume_id f) (volume_label f) (root f) (cluster2 f) (cluster_limit f) (fat f).

Definition set_fat (f : Floppy) (t : list Z) : Floppy :=
  mkFloppy (data f) (sector_size f) (cluster_sects f) (reserved_sects f) (fat_count f)
    (root_max f) (sectors f) (fat_sects f) (track_sects f) (heads f)
    (volume_id f) (volume_label f) (root f) (cluster2 f) (cluster_limit f) t.

(** ** FAT table codec *)

(** The [for] loop of _fat_flush that builds FAT 0: entry [i] of [fat] goes to
    the bytes at [e], two entries to three bytes. *)
Fixpoint fat_pack (d : list Z) (e i : Z) (fat : list Z) : result (list Z) :=
  match fat with
  | [] => Ok d
  | entry :: rest =>
      if Z.land i 1 =? 0 then
        d1 <- Py.bstore d (e + 0) (Z.land entry 0xFF) ;;
        b <- Py.index d1 (e + 1) ;;
        d2 <- Py.bstore d1 (e + 1)
                (Z.lor (Z.land b 0xF0) (Z.land (Z.shiftr entry 8) 0x0F)) ;;
        fat_pack d2 (e + 1) (i + 1) rest
      else
        b <- Py.index d (e + 0) ;;
        d1 <- Py.bstore d (e + 0)
                (Z.lor (Z.land b 0x0F) (Z.land (Z.shiftl entry 4) 0xF0)) ;;
        d2 <- Py.bstore d1 (e + 1) (Z.land (Z.shiftr entry 4) 0xFF) ;;
        fat_pack d2 (e + 2) (i + 1) rest
  end.

(** The [while (e+2) <= fat_end] loop of _fat_open that reads FAT 0. *)
Fixpoint fat_read (fuel : nat) (d : list Z) (e fat_end : Z) (fat : list Z)
  : result (list Z) :=
  match fuel with
  | O => OutOfFuel
  | S k =>
      if e + 2 <=? fat_end then
        if Z.land (Py.len fat) 1 =? 0 then
          b0 <- Py.index d (e + 0) ;;
          b1 <- Py.index d (e + 1) ;;
          fat_read k d (e + 1) fat_end
            (fat ++ [Z.lor b0 (Z.shiftl (Z.land b1 0x0F) 8)])
        else
          b0 <- Py.index d (e + 0) ;;
          b1 <- Py.index d (e + 1) ;;
          fat_read k d (e + 2) fat_end
            (fat ++ [Z.lor (Z.shiftr (Z.land b0 0xF0) 4) (Z.shiftl b1 4)])
      else Ok fat
  end.

(** Each turn of the loop advances [e], so this much fuel is never used up. *)
Definition fat_unpack (d : list Z) (e fat_end : Z) : result (list Z) :=
  fat_read (S (Z.to_nat (fat_end - e))) d e fat_end [].

(** ** Python strings and struct fields *)

Module Str.

Definition code (c : ascii) : Z := Z.of_N (N_of_ascii c).
Definition chr (b : Z) : ascii := ascii_of_N (Z.to_N b).

(** [s.encode("ASCII")] *)
Fixpoint encode (s : string) : result (list Z) :=
  match s with
  | EmptyString => Ok []
  | String c t =>
      if 128 <=? code c then Raise PyUnicodeError
      else (b <- encode t ;; Ok (code c :: b))
  end.

(** [b.decode("ASCII")] *)
Fixpoint decode (b : list Z) : result string :=
  match b with
  | [] => Ok EmptyString
  | x :: t =>
      if (x <? 0) || (128 <=? x) then Raise PyUnicodeError
      else (s <- decode t ;; Ok (String (chr x) s))
  end.

(** [s.rstrip(" ")] *)
Fixpoint rstrip (s : string) : string :=
  match s with
  | EmptyString => EmptyString
  | String c t =>
      match rstrip t with
      | EmptyString => if Ascii.eqb c " " then EmptyString else String c EmptyString
      | t' => String c t'
      end
  end.

(** [s.find(c)] for a one-character [c]: the first position, or -1. *)
Fixpoint find (c : ascii) (s : string) : Z :=
  match s with
  | EmptyString => -1
  | String x t =>
      if Ascii.eqb x c then 0
      else let r := find c t in if r <? 0 then -1 else r + 1
  end.

(** [s.rfind(c)]: the last position, or -1. *)
Fixpoint rfind (c : ascii) (s : string) : Z :=
  match s with
  | EmptyString => -1
  | String x t =>
      let r := rfind c t in
      if 0 <=? r then r + 1
      else if Ascii.eqb x c then 0 else -1
  end.

Fixpoint take (n : nat) (s : string) : string :=
  match n, s with
  | S k, String c t => String c (take k t)
  | _, _ => EmptyString
  end.

Fixpoint drop (n : nat) (s : string) : string :=
  match n, s with
  | S k, String _ t => drop k t
  | _, _ => s
  end.

(** [s[0:n]] and [s[n:]] for [n >= 0] *)
Definition upto (s : string) (n : Z) : string := take (Z.to_nat n) s.
Definition from (s : string) (n : Z) : string := drop (Z.to_nat n) s.

Definition len (s : string) : Z := Z.of_nat (String.length s).

End Str.

Definition backslash : ascii := ascii_of_nat 92.

Module Struct.

(** Little-endian unsigned fields of struct.unpack *)
Definition u8 (d : list Z) (o : nat) : Z := nth o d 0.
Definition u16 (d : list Z) (o : nat) : Z := nth o d 0 + 256 * nth (S o) d 0.
Definition u32 (d : list Z) (o : nat) : Z :=
  nth o d 0 + 256 * nth (o + 1) d 0 + 65536 * nth (o + 2) d 0
  + 16777216 * nth (o + 3) d 0.

(** Little-endian unsigned fields of struct.pack: struct.error out of range *)
Definition p16 (v : Z) : result (list Z) :=
  if (v <? 0) || (65536 <=? v) then Raise PyStructError
  else Ok [v mod 256; v / 256].
Definition p32 (v : Z) : result (list Z) :=
  if (v <? 0) || (4294967296 <=? v) then Raise PyStructError
  else Ok [v mod 256; (v / 256) mod 256; (v / 65536) mod 256; v / 16777216].

End Struct.

(** incipit value for an empty directory entry *)
Definition EMPTY : Z := 0xE5.

(** Creates an ASCII string, padded to length with spaces. The [raise] names
    [self], which is not bound in this function, so what is raised is a
    NameError. *)
Definition _filestring (s : string) (length : Z) : result (list Z) :=
  b <- Str.encode s ;;
  let b := b ++ repeat 0x20 (Z.to_nat (length - Py.len b)) in
  if negb (Py.len b =? length) then Raise PyNameError
  else Ok b.

(** ** Directory entries *)

Module FileEntry.

Record t : Type := mk {
  data : list Z;
  path : string;
  incipit : Z;
  attributes : Z;
  write_time : Z;
  write_date : Z;
  cluster : Z;
  size : Z;
  dir_cluster : Z;
  dir_index : Z
}.

Definition set_cluster (e : t) (c : Z) : t :=
  mk (data e) (path e) (incipit e) (attributes e) (write_time e) (write_date e)
     c (size e) (dir_cluster e) (dir_index e).
Definition set_size (e : t) (n : Z) : t :=
  mk (data e) (path e) (incipit e) (attributes e) (write_time e) (write_date e)
     (cluster e) n (dir_cluster e) (dir_index e).
Definition set_attributes (e : t) (a : Z) : t :=
  mk (data e) (path e) (incipit e) a (write_time e) (write_date e)
     (cluster e) (size e) (dir_cluster e) (dir_index e).
Definition set_incipit (e : t) (b : Z) : t :=
  mk (data e) (path e) b (attributes e) (write_time e) (write_date e)
     (cluster e) (size e) (dir_cluster e) (dir_index e).
Definition set_data (e : t) (d : list Z) : t :=
  mk d (path e) (incipit e) (attributes e) (write_time e) (write_date e)
     (cluster e) (size e) (dir_cluster e) (dir_index e).
Definition set_dir (e : t) (c i : Z) : t :=
  mk (data e) (path e) (incipit e) (attributes e) (write_time e) (write_date e)
     (cluster e) (size e) c i.

(** FileEntry(data, dir_cluster, dir_index): unpacks a 32 byte directory entry. *)
Definition init (d : list Z) (dc di : Z) : result t :=
  inc <- Py.index d 0 ;;
  p <- (if negb (inc =? 0x00) && negb (inc =? EMPTY) then
          filename <- Str.decode (Py.slice d 0 8) ;;
          let filename := Str.rstrip filename in
          extension <- Str.decode (Py.slice d 8 11) ;;
          let extension := Str.rstrip extension in
          if 0 <? Str.len extension
          then Ok (filename ++ "." ++ extension)%string
          else Ok filename
        else Ok EmptyString) ;;
  if negb (Py.len (Py.slice d 11 32) =? 21) then Raise PyStructError
  else Ok (mk d p inc (Struct.u8 d 11) (Struct.u16 d 22) (Struct.u16 d 24)
              (Struct.u16 d 26) (Struct.u32 d 28) dc di).

(** FileEntry(): the default data is an empty entry. *)
Definition init_default : result t := init (EMPTY :: repeat 0 31) (-1) (-1).

(** Commits any changed data to the entry, rebuilds and returns the 32 byte
    structure (the entry's own copy is updated too). *)
Definition compile (e : t) : result (t * list Z) :=
  let period := Str.find "." (path e) in
  let filename := if 0 <=? period then Str.upto (path e) period else path e in
  let extension := if 0 <=? period then Str.from (path e) (period + 1)
                   else EmptyString in
  d <- (if negb (incipit e =? 0x00) && negb (incipit e =? 0xEF) then
          n <- _filestring filename 8 ;;
          let d := Py.slice_assign (data e) 0 8 n in
          x <- _filestring extension 3 ;;
          Ok (Py.slice_assign d 8 11 x)
        else Py.bstore (data e) 0 (incipit e)) ;;
  d <- Py.bstore d 11 (attributes e) ;;
  wt <- Struct.p16 (write_time e) ;;
  wd <- Struct.p16 (write_date e) ;;
  cl <- Struct.p16 (cluster e) ;;
  sz <- Struct.p32 (size e) ;;
  let d := Py.slice_assign d 22 32 (wt ++ wd ++ cl ++ sz) in
  Ok (set_data e d, d).

(** Sets the filename and updates incipit. *)
Definition set_name (e : t) (s : string) : result t :=
  b <- _filestring s 12 ;;
  inc <- Py.index b 0 ;;
  Ok (mk (data e) s inc (attributes e) (write_time e) (write_date e)
         (cluster e) (size e) (dir_cluster e) (dir_index e)).

(** Updates modified date/time; [now] is the clock reading (date, time). *)
Definition set_now (now : Z * Z) (e : t) : t :=
  mk (data e) (path e) (incipit e) (attributes e) (snd now) (fst now)
     (cluster e) (size e) (dir_cluster e) (dir_index e).

Definition new_file (now : Z * Z) (name : string) : result t :=
  e <- init_default ;;
  e <- set_name e name ;;
  Ok (set_attributes (set_now now e) 0x00).

Definition new_dir (now : Z * Z) (name : string) : result t :=
  e <- init_default ;;
  e <- set_name e name ;;
  Ok (set_attributes (set_now now e) 0x10).

Definition new_terminal : result t :=
  e <- init_default ;;
  Ok (set_incipit e 0x00).

End FileEntry.

(** ** The blank image and loading *)

(** special formatted 720k Atari ST floppy: boot sector, 2xFAT, 32-entry root
    completely fill side 1 track 1, E5 fill *)
Definition blank_floppy : list Z :=
  [ 0x00;0x00;0x4E;0x4E;0x4E;0x4E;0x4E;0x4E;0x91;0xE9;0x6C;0x00;0x02;0x02;0x01;0x00;
    0x02;0x20;0x00;0xA0;0x05;0xF9;0x03;0x00;0x09;0x00;0x02;0x00;0x00;0x00;0x4E;0x4E;
    0x4E;0x4E;0x4E;0x4E;0x4E;0x4E;0x4E;0x4E;0x4E;0x4E;0x4E;0x4E;0x4E;0x4E;0x4E;0x4E;
    0x4E;0x4E;0x4E;0x4E;0x4E;0x4E;0x4E;0x4E;0x4E;0x4E;0x4E;0x4E;0x00;0x00;0x00;0x00;
    0x00;0x00;0x00;0x00;0x00;0x00;0x00;0x00;0xF5;0xF5;0xF5;0xFE;0x4F;0x01;0x01;0x02;
    0xF7;0x4E;0x4E;0x4E;0x4E;0x4E;0x4E;0x4E;0x4E;0x4E;0x4E;0x4E;0x4E;0x4E;0x4E;0x4E;
    0x4E;0x4E;0x4E;0x4E;0x4E;0x4E;0x4E;0x00;0x00;0x00;0x00;0x00;0x00;0x00;0x00;0x00;
    0x00;0x00;0x00;0xF5;0xF5;0xF5;0xFB;0xE5;0xE5;0xE5;0xE5;0xE5;0xE5;0xE5;0xE5;0xE5 ]
  ++ repeat 0xE5 (Z.to_nat (23 * 16)) ++
  [ 0xE5;0xE5;0xE5;0xE5;0xE5;0xE5;0xE5;0xE5;0xE5;0xE5;0xE5;0xE5;0xE5;0xE5;0xD6;0x37 ]
  ++ [0xF7;0xFF;0xFF] ++ repeat 0 (Z.to_nat (0x600 - 3))
  ++ [0xF7;0xFF;0xFF] ++ repeat 0 (Z.to_nat (0x600 - 3))
  ++ repeat 0 (Z.to_nat (32 * 32))
  ++ repeat 0xE5 (Z.to_nat (0xC0000 - 0x01200)).

(** Parses the boot sector. The first [raise] formats its message with
    [len(data)], and [data] is not bound in this method: a NameError. The last
    two name [self.error], which a Floppy does not have: an AttributeError. *)
Definition _boot_open (d : list Z) : result Floppy :=
  if Py.len d <? 38 then Raise PyNameError else
  let boot := Py.slice d 11 28 in
  let sector_size := Struct.u16 boot 0 in
  let cluster_sects := Struct.u8 boot 2 in
  let reserved_sects := Struct.u16 boot 3 in
  let fat_count := Struct.u8 boot 5 in
  let root_max := Struct.u16 boot 6 in
  let sectors := Struct.u16 boot 8 in
  let fat_sects := Struct.u16 boot 11 in
  let track_sects := Struct.u16 boot 13 in
  let heads := Struct.u16 boot 15 in
  b38 <- Py.index d 38 ;;
  ' (volume_id, volume_label) <-
     (if (b38 =? 0x29) && (54 <=? Py.len d) then
        s <- Str.decode (Py.slice d 43 54) ;;
        Ok (Struct.u32 (Py.slice d 39 43) 0, Str.rstrip s)
      else Ok (0, EmptyString)) ;;
  if Py.len d <? sectors * sector_size then Raise FloppyError else
  let root := sector_size * (reserved_sects + fat_count * fat_sects) in
  root_sectors <- Py.floordiv (root_max * 32 + (sector_size - 1)) sector_size ;;
  let cluster2 := root + sector_size * root_sectors in
  c2s <- Py.floordiv cluster2 sector_size ;;
  q <- Py.floordiv (sectors - c2s) cluster_sects ;;
  let cluster_limit := q + 2 in
  if negb (heads =? 2) then Raise PyAttributeError else
  if negb (cluster2 =? sector_size * track_sects) then Raise PyAttributeError else
  Ok (mkFloppy d sector_size cluster_sects reserved_sects fat_count root_max
        sectors fat_sects track_sects heads volume_id volume_label
        root cluster2 cluster_limit []).

(** The [for i in range(1,self.fat_count)] loop of _fat_open that verifies
    the FAT tables match; [idx] is the range. *)
Fixpoint fat_verify (d : list Z) (fat_start fat_sects fat_end : Z) (idx : list Z)
  : result unit :=
  match idx with
  | [] => Ok tt
  | i :: rest =>
      let fat2_start := fat_start + fat_sects * i in
      let fat2_end := fat2_start + fat_sects in
      if Py.eqb (Py.slice d fat_start fat_end) (Py.slice d fat2_start fat2_end)
      then fat_verify d fat_start fat_sects fat_end rest
      else Raise FloppyError
  end.

(** [range(a, b)] *)
Definition range (a b : Z) : list Z :=
  map (fun k => a + Z.of_nat k) (seq 0 (Z.to_nat (b - a))).

(** Parses the FAT table. *)
Definition _fat_open (f : Floppy) : result Floppy :=
  let fat_start := reserved_sects f * sector_size f in
  let fat_sects_b := fat_sects f * sector_size f in
  let fat_end := fat_start + fat_sects_b in
  if sectors f <? reserved_sects f + fat_count f * fat_sects f
  then Raise FloppyError else
  if (fat_count f <? 1) || (fat_sects f <? 1) then Raise FloppyError else
  _ <- fat_verify (data f) fat_start fat_sects_b fat_end (range 1 (fat_count f)) ;;
  t <- fat_unpack (data f) fat_start fat_end ;;
  Ok (set_fat f t).

(** Floppy(data): create a Floppy instance from image bytes. *)
Definition __init__ (d : list Z) : result Floppy :=
  f <- _boot_open d ;;
  _fat_open f.

(** The [for i in range(1,self.fat_count)] loop of _fat_flush that copies
    FAT 0 to all tables. *)
Fixpoint fat_copy (d : list Z) (fat_start fat_sects fat_end : Z) (idx : list Z)
  : list Z :=
  match idx with
  | [] => d
  | i :: rest =>
      let fat2_start := fat_start + fat_sects * i in
      let fat2_end := fat2_start + fat_sects in
      fat_copy (Py.slice_assign d fat2_start fat2_end (Py.slice d fat_start fat_end))
               fat_start fat_sects fat_end rest
  end.

(** Commits changes to the FAT table. *)
Definition _fat_flush (f : Floppy) : result Floppy :=
  let fat_start := reserved_sects f * sector_size f in
  let fat_sects_b := fat_sects f * sector_size f in
  let fat_end := fat_start + fat_sects_b in
  d <- fat_pack (data f) (reserved_sects f * sector_size f) 0 (fat f) ;;
  Ok (set_data f (fat_copy d fat_start fat_sects_b fat_end (range 1 (fat_count f)))).

Definition blank : result Floppy := __init__ blank_floppy.


(** Python's default recursion limit bounds every recursive method; past it
    the interpreter raises RecursionError, which the model reports as
    [OutOfFuel]. *)
Definition recursion_limit : nat := 1000.

(** ** Cluster addresser and chain manager *)

(** Image offset of a FAT indexed logical cluster. *)
Definition _cluster_offset (f : Floppy) (cluster : Z) : Z :=
  if cluster <? 2 then root f
  else cluster2 f + sector_size f * cluster_sects f * (cluster - 2).

(** The [while cluster < 0xFF0] loop of _read_chain. *)
Fixpoint read_chain_loop (fuel : nat) (f : Floppy) (cluster size : Z) (acc : list Z)
  : result (list Z) :=
  match fuel with
  | O => OutOfFuel
  | S k =>
      if cluster <? 0xFF0 then
        let offset := _cluster_offset f cluster in
        if cluster <? 2 then
          Ok (acc ++ Py.slice (data f) (root f) (root f + size))
        else
          let read := Z.min size (sector_size f * cluster_sects f) in
          let acc := acc ++ Py.slice (data f) offset (offset + read) in
          let size := size - read in
          if size <? 1 then Ok acc
          else (c <- Py.index (fat f) cluster ;; read_chain_loop k f c size acc)
      else Ok acc
  end.

(** Returns up to size bytes from a chain of clusters starting at cluster.
    Every turn that goes on has taken at least one byte off [size] (clusters
    are not empty), so [size] turns and one are enough. *)
Definition _read_chain (f : Floppy) (cluster size : Z) : result (list Z) :=
  read_chain_loop (S (Z.to_nat size)) f cluster size [].

(** Reads an entire directory chain starting at the given cluster (0 for root). *)
Definition _read_dir_chain (f : Floppy) (cluster : Z) : result (list Z) :=
  if cluster <? 2 then
    Ok (Py.slice (data f) (root f) (root f + root_max f * 32))
  else
    n <- Py.floordiv (sector_size f * sectors f) (cluster_sects f) ;;
    _read_chain f cluster n.

(** The [while] loop of _delete_chain. *)
Fixpoint delete_chain_loop (fuel : nat) (t : list Z) (cluster : Z) : result (list Z) :=
  match fuel with
  | O => OutOfFuel
  | S k =>
      if (cluster <? 0xFF0) && (2 <=? cluster) then
        link <- Py.index t cluster ;;
        t' <- Py.store t cluster 0 ;;
        delete_chain_loop k t' link
      else Ok t
  end.

(** Deletes a FAT chain. Every turn zeroes an entry and a zero entry ends the
    walk, so the length of the FAT and two turns are enough. *)
Definition _delete_chain (f : Floppy) (cluster : Z) : result Floppy :=
  t <- delete_chain_loop (S (S (List.length (fat f)))) (fat f) cluster ;;
  Ok (set_fat f t).

(** The TwoSide block shared by _add_chain and _reserve_side1: for the loop
    index [i] it gives [l], [csplit] and the cluster [j] at that position of
    the side-1-first order. *)
Definition side_order (f : Floppy) (i : Z) : result (Z * Z * Z) :=
  cside <- Py.floordiv (track_sects f) (cluster_sects f) ;;
  tcount <- Py.floordiv (sectors f) (track_sects f * 2) ;;
  let csplit := (tcount - 1) * cside in
  cdual <- Py.floordiv (track_sects f * 2) (cluster_sects f) ;;
  let l := i - 2 in
  ' (icluster, itrack, ihead) <-
     (if l <? csplit then
        ic <- Py.modulo l cside ;;
        it <- Py.floordiv l cside ;;
        Ok (ic, it, 0)
      else
        ic <- Py.modulo (l - csplit) (cdual - cside) ;;
        it <- Py.floordiv (l - csplit) (cdual - cside) ;;
        Ok (ic, it, 1)) ;;
  let j := itrack * cdual + (1 - ihead) * (cdual - cside) + icluster + 2 in
  Ok (l, csplit, j).

(** The [for i in range(2,len(self.fat))] loop of _add_chain that finds a
    chain of free clusters. *)
Fixpoint find_chain (f : Floppy) (clusters : Z) (idx : list Z) (chain : list Z)
  : result (list Z) :=
  match idx with
  | [] => Ok chain
  | i :: rest =>
      ' (_, _, j) <- side_order f i ;;
      if cluster_limit f <=? j then find_chain f clusters rest chain
      else
        v <- Py.index (fat f) j ;;
        let chain := if v =? 0 then chain ++ [j] else chain in
        if clusters <=? Py.len chain then Ok chain
        else find_chain f clusters rest chain
  end.

(** The loop of _add_chain that stores the links: each cluster of the chain
    points to the next one. *)
Fixpoint link_chain (t : list Z) (chain : list Z) : result (list Z) :=
  match chain with
  | a :: ((b :: _) as rest) =>
      t' <- Py.store t a b ;;
      link_chain t' rest
  | _ => Ok t
  end.

(** The [while len(data) > 0] loop of _add_chain that stores the data. *)
Fixpoint write_chain (fuel : nat) (f : Floppy) (d img chain : list Z)
  (c cluster_size : Z) : result (list Z) :=
  match fuel with
  | O => OutOfFuel
  | S k =>
      if 0 <? Py.len d then
        let write := Z.min (Py.len d) cluster_size in
        cc <- Py.index chain c ;;
        let offset := _cluster_offset f cc in
        let img := Py.slice_assign img offset (offset + write) (Py.slice d 0 write) in
        write_chain k f (Py.slice d write (Py.len d)) img chain (c + 1) cluster_size
      else Ok img
  end.

(** Adds a block of data to the disk and creates its FAT chain. Returns start
    cluster, or -1 for failure. *)
Definition _add_chain (f : Floppy) (d : list Z) : result (Floppy * Z) :=
  let cluster_size := sector_size f * cluster_sects f in
  clusters <- Py.floordiv (Py.len d + cluster_size - 1) cluster_size ;;
  let clusters := if clusters <? 1 then 1 else clusters in
  chain <- find_chain f clusters (range 2 (Py.len (fat f))) [] ;;
  if Py.len chain <? clusters then Ok (f, -1) else
  start_cluster <- Py.index chain 0 ;;
  t <- link_chain (fat f) chain ;;
  final <- Py.index chain (Py.len chain - 1) ;;
  t <- Py.store t final 0xFFF ;;
  img <- write_chain (S (List.length d)) f d (data f) chain 0 cluster_size ;;
  Ok (set_data (set_fat f t) img, start_cluster).

(** The loop of _reserve_side1. *)
Fixpoint reserve_loop (f : Floppy) (reserve : bool) (idx : list Z) (t : list Z)
  (count : Z) : result (list Z * Z) :=
  match idx with
  | [] => Ok (t, count)
  | i :: rest =>
      ' (l, csplit, j) <- side_order f i ;;
      if l <? csplit then
        v <- Py.index t j ;;
        if v =? 0 then
          t' <- (if reserve then Py.store t j 0xFF0 else Ok t) ;;
          reserve_loop f reserve rest t' (count + 1)
        else reserve_loop f reserve rest t count
      else
        v <- Py.index t j ;;
        if negb (v =? 0) then reserve_loop f reserve rest t (count - 1)
        else reserve_loop f reserve rest t count
  end.

(** Counts and optionally reserves free clusters on side 1. Used clusters on
    side 2 count as -1. *)
Definition _reserve_side1 (f : Floppy) (reserve : bool) : result (Floppy * Z) :=
  ' (t, count) <- reserve_loop f reserve (range 2 (cluster_limit f)) (fat f) 0 ;;
  Ok (set_fat f t, count).

(** Counts remaining clusters on side 1. *)
Definition free_side1 (f : Floppy) : result (Floppy * Z) := _reserve_side1 f false.

(** Marks all remaining side 1 clusters as reserved. *)
Definition close_side1 (f : Floppy) : result (Floppy * Z) := _reserve_side1 f true.

(** ** Directory engine *)

(** Find the offset in self.data to a particular directory entry. *)
Fixpoint dir_entry_offset_rec (fuel : nat) (f : Floppy) (cluster dir_index : Z)
  : result Z :=
  match fuel with
  | O => OutOfFuel
  | S k =>
      if cluster <? 2 then Ok (root f + 32 * dir_index)
      else if 0xFF0 <=? cluster then Raise FloppyError
      else
        let per_cluster := (sector_size f * cluster_sects f) / 32 in
        if dir_index <? per_cluster then
          Ok (_cluster_offset f cluster + 32 * dir_index)
        else
          c <- Py.index (fat f) cluster ;;
          dir_entry_offset_rec k f c (dir_index - per_cluster)
  end.

Definition _dir_entry_offset (f : Floppy) (cluster dir_index : Z) : result Z :=
  dir_entry_offset_rec recursion_limit f cluster dir_index.

(** Deletes a FileEntry. *)
Definition delete_file (f : Floppy) (entry : FileEntry.t) : result Floppy :=
  f <- _delete_chain f (FileEntry.cluster entry) ;;
  offset <- _dir_entry_offset f (FileEntry.dir_cluster entry)
              (FileEntry.dir_index entry) ;;
  d <- Py.bstore (data f) (offset + 0) EMPTY ;;
  Ok (set_data f d).

(** [directory[(i*32):(i*32)+32]] parsed as the entry at slot [i]. *)
Definition entry_at (directory : list Z) (cluster i : Z) : result FileEntry.t :=
  FileEntry.init (Py.slice directory (i * 32) (i * 32 + 32)) cluster i.

(** [path.find("\\")] splits a path into its first component and the rest. *)
Definition path_seek (path : string) : string :=
  let separator := Str.find backslash path in
  if 0 <=? separator then Str.upto path separator else path.

Definition path_next (path : string) : string :=
  let separator := Str.find backslash path in
  if 0 <=? separator then Str.from path (separator + 1) else EmptyString.

Definition is_dots (p : string) : bool :=
  String.eqb p "." || String.eqb p "..".

(** The [for] loop of _find_path_dir; [rec] is the recursive call. *)
Fixpoint find_scan (rec : Z -> string -> result (option FileEntry.t))
  (directory : list Z) (cluster : Z) (seek next : string) (idx : list Z)
  : result (option FileEntry.t) :=
  match idx with
  | [] => Ok None
  | i :: rest =>
      e <- entry_at directory cluster i ;;
      if FileEntry.incipit e =? 0x00 then Ok None
      else if FileEntry.incipit e =? EMPTY then
        find_scan rec directory cluster seek next rest
      else if negb (Z.land (FileEntry.attributes e) 0x08 =? 0) then
        find_scan rec directory cluster seek next rest
      else if negb (Z.land (FileEntry.attributes e) 0x10 =? 0) then
        if is_dots (FileEntry.path e) then
          find_scan rec directory cluster seek next rest
        else if String.eqb (FileEntry.path e) seek then
          if 0 <? Str.len next then rec (FileEntry.cluster e) next
          else Ok (Some e)
        else find_scan rec directory cluster seek next rest
      else if String.eqb (FileEntry.path e) seek && String.eqb next "" then
        Ok (Some e)
      else find_scan rec directory cluster seek next rest
  end.

(** Recursive find path, breaking out subdirectories progressively. *)
Fixpoint find_path_dir_rec (fuel : nat) (f : Floppy) (cluster : Z) (path : string)
  : result (option FileEntry.t) :=
  match fuel with
  | O => OutOfFuel
  | S k =>
      directory <- _read_dir_chain f cluster ;;
      find_scan (find_path_dir_rec k f) directory cluster
        (path_seek path) (path_next path) (range 0 (Py.len directory / 32))
  end.

Definition _find_path_dir (f : Floppy) (cluster : Z) (path : string)
  : result (option FileEntry.t) :=
  find_path_dir_rec recursion_limit f cluster path.

(** Finds a FileEntry for a given path. *)
Definition find_path (f : Floppy) (path : string) : result (option FileEntry.t) :=
  _find_path_dir f 0 path.

(** The [for] loop of _delete_tree; [rec] is the recursive call. *)
Fixpoint delete_scan (rec : Floppy -> FileEntry.t -> result Floppy)
  (f : Floppy) (directory : list Z) (cluster : Z) (idx : list Z) : result Floppy :=
  match idx with
  | [] => Ok f
  | i :: rest =>
      e <- entry_at directory cluster i ;;
      if FileEntry.incipit e =? 0x00 then Ok f
      else if FileEntry.incipit e =? EMPTY then
        delete_scan rec f directory cluster rest
      else if negb (Z.land (FileEntry.attributes e) 0x08 =? 0) then
        delete_scan rec f directory cluster rest
      else if negb (Z.land (FileEntry.attributes e) 0x10 =? 0) then
        if is_dots (FileEntry.path e) then
          delete_scan rec f directory cluster rest
        else
          f <- rec f e ;;
          f <- delete_file f e ;;
          delete_scan rec f directory cluster rest
      else
        f <- delete_file f e ;;
        delete_scan rec f directory cluster rest
  end.

(** Recursively deletes directory entries. *)
Fixpoint delete_tree_rec (fuel : nat) (f : Floppy) (de : FileEntry.t) : result Floppy :=
  match fuel with
  | O => OutOfFuel
  | S k =>
      directory <- _read_dir_chain f (FileEntry.cluster de) ;;
      delete_scan (delete_tree_rec k) f directory (FileEntry.cluster de)
        (range 0 (Py.len directory / 32))
  end.

Definition _delete_tree (f : Floppy) (de : FileEntry.t) : result Floppy :=
  delete_tree_rec recursion_limit f de.

(** Finds a file or directory and deletes it (recursive), if it exists.
    Returns True if successful. *)
Definition delete_path (f : Floppy) (path : string) : result (Floppy * bool) :=
  r <- find_path f path ;;
  match r with
  | None => Ok (f, false)
  | Some e =>
      f <- (if negb (Z.land (FileEntry.attributes e) 0x10 =? 0)
            then _delete_tree f e else Ok f) ;;
      f <- delete_file f e ;;
      Ok (f, true)
  end.

(** The [while i < dir_len] loop of _add_entry: the first slot that is
    terminal or empty, and whether it was the terminal one. *)
Fixpoint free_slot (directory : list Z) (cluster : Z) (idx : list Z) (dir_len : Z)
  : result (Z * bool) :=
  match idx with
  | [] => Ok (Z.max 0 dir_len, false)
  | i :: rest =>
      e <- entry_at directory cluster i ;;
      if FileEntry.incipit e =? 0x00 then Ok (i, true)
      else if FileEntry.incipit e =? EMPTY then Ok (i, false)
      else free_slot directory cluster rest dir_len
  end.

(** The [while self.fat[tail] < 0xFF0] loop of _add_entry. *)
Fixpoint fat_tail (fuel : nat) (t : list Z) (tail : Z) : result Z :=
  match fuel with
  | O => OutOfFuel
  | S k =>
      v <- Py.index t tail ;;
      if v <? 0xFF0 then fat_tail k t v else Ok tail
  end.

(** Adds an entry to a directory starting at the given cluster, appending a
    new cluster if needed. Sets entry.dir_cluster and entry.dir_index to match
    their new directory. Returns False if out of space. *)
Definition _add_entry (f : Floppy) (dir_cluster : Z) (entry : FileEntry.t)
  : result (Floppy * FileEntry.t * bool) :=
  directory <- _read_dir_chain f dir_cluster ;;
  let dir_len := Py.len directory / 32 in
  ' (i, terminal) <- free_slot directory dir_cluster (range 0 dir_len) dir_len ;;
  room <- (if dir_len <=? i then
             if dir_cluster <? 2 then Ok None
             else
               ' (f1, chain) <- _add_chain f
                                  (repeat 0 (Z.to_nat (sector_size f * cluster_sects f))) ;;
               if chain <? 0 then Ok None
               else
                 tail <- fat_tail (S (List.length (fat f1))) (fat f1) dir_cluster ;;
                 t <- Py.store (fat f1) tail chain ;;
                 t <- Py.store t chain 0xFFF ;;
                 Ok (Some (set_fat f1 t))
           else Ok (Some f)) ;;
  match room with
  | None => Ok (f, entry, false)
  | Some f =>
      let entry := FileEntry.set_dir entry dir_cluster i in
      offset <- _dir_entry_offset f dir_cluster i ;;
      ' (entry, b) <- FileEntry.compile entry ;;
      let f := set_data f (Py.slice_assign (data f) offset (offset + 32) b) in
      f <- (if terminal then
              let i := i + 1 in
              if i <? dir_len then
                offset <- _dir_entry_offset f dir_cluster i ;;
                t <- FileEntry.new_terminal ;;
                ' (_, b) <- FileEntry.compile t ;;
                Ok (set_data f (Py.slice_assign (data f) offset (offset + 32) b))
              else Ok f
            else Ok f) ;;
      Ok (f, entry, true)
  end.

Section Clock.

(** [FileEntry.fat_time_now()]: the (date, time) the clock gives. *)
Variable now : Z * Z.

(** The [for] loop of _add_dir_recursive: the first subdirectory entry whose
    name is [seek], if the scan meets one before the end of the directory. *)
Fixpoint dir_scan (directory : list Z) (cluster : Z) (seek : string) (idx : list Z)
  : result (option FileEntry.t) :=
  match idx with
  | [] => Ok None
  | i :: rest =>
      e <- entry_at directory cluster i ;;
      if FileEntry.incipit e =? 0x00 then Ok None
      else if FileEntry.incipit e =? EMPTY then dir_scan directory cluster seek rest
      else if negb (Z.land (FileEntry.attributes e) 0x10 =? 0)
              && String.eqb (FileEntry.path e) seek then Ok (Some e)
      else dir_scan directory cluster seek rest
  end.

(** Recursively creates directory, returns cluster of created dir, -1 if failed. *)
Fixpoint add_dir_rec (fuel : nat) (f : Floppy) (cluster : Z) (path : string)
  : result (Floppy * Z) :=
  match fuel with
  | O => OutOfFuel
  | S k =>
      let seek := path_seek path in
      let next := path_next path in
      directory <- _read_dir_chain f cluster ;;
      found <- dir_scan directory cluster seek (range 0 (Py.len directory / 32)) ;;
      match found with
      | Some e =>
          if Str.len next <? 1 then Ok (f, FileEntry.cluster e)
          else add_dir_rec k f (FileEntry.cluster e) next
      | None =>
          dp0 <- FileEntry.new_dir now "_" ;;
          dp1 <- FileEntry.new_dir now "__" ;;
          let dp1 := FileEntry.set_cluster dp1 cluster in
          ' (dp0, b0) <- FileEntry.compile dp0 ;;
          ' (dp1, b1) <- FileEntry.compile dp1 ;;
          let dir_block :=
            b0 ++ b1 ++ repeat 0 (Z.to_nat (sector_size f * cluster_sects f - 64)) in
          ' (f, new_cluster) <- _add_chain f dir_block ;;
          if new_cluster <? 0 then Ok (f, -1) else
          let dp0 := FileEntry.set_cluster dp0 new_cluster in
          offset <- _dir_entry_offset f new_cluster 0 ;;
          ' (dp0, b0) <- FileEntry.compile dp0 ;;
          let d := Py.slice_assign (data f) offset (offset + 32) b0 in
          dot <- Str.encode ".          " ;;
          let d := Py.slice_assign d (offset + 0) (offset + 11) dot in
          dotdot <- Str.encode "..         " ;;
          let d := Py.slice_assign d (offset + 32) (offset + 43) dotdot in
          let f := set_data f d in
          new_dir <- FileEntry.new_dir now seek ;;
          let new_dir := FileEntry.set_cluster new_dir new_cluster in
          ' (f, _, ok) <- _add_entry f cluster new_dir ;;
          if negb ok then
            f <- _delete_chain f new_cluster ;;
            Ok (f, -1)
          else if Str.len next <? 1 then Ok (f, new_cluster)
          else add_dir_rec k f new_cluster next
      end
  end.

Definition _add_dir_recursive (f : Floppy) (cluster : Z) (path : string)
  : result (Floppy * Z) :=
  add_dir_rec recursion_limit f cluster path.

(** Recursively ensures that the given directory path exists, creating it if
    necessary. Returns cluster of directory at path, or -1 if failed. *)
Definition add_dir_path (f : Floppy) (path : string) : result (Floppy * Z) :=
  if Str.len path <? 1 then Ok (f, 0)
  else _add_dir_recursive f 0 path.

(** Adds the given data as a file at the given path. Will automatically
    create directories to complete the path. Returns False if failed. *)
Definition add_file_path (f : Floppy) (path : string) (d : list Z)
  : result (Floppy * bool) :=
  ' (f, _) <- delete_path f path ;;
  let separator := Str.rfind backslash path in
  let dir_path := if 0 <=? separator then Str.upto path separator else EmptyString in
  let file_path := if 0 <=? separator then Str.from path (separator + 1) else path in
  ' (f, dir_cluster) <- add_dir_path f dir_path ;;
  if dir_cluster <? 0 then Ok (f, false) else
  ' (f, cluster) <- _add_chain f d ;;
  if cluster <? 0 then Ok (f, false) else
  entry <- FileEntry.new_file now file_path ;;
  let entry := FileEntry.set_cluster entry cluster in
  let entry := FileEntry.set_size entry (Py.len d) in
  ' (f, entry, ok) <- _add_entry f dir_cluster entry ;;
  if negb ok then
    f <- _delete_chain f cluster ;;
    Ok (f, false)
  else
    offset <- _dir_entry_offset f (FileEntry.dir_cluster entry)
                (FileEntry.dir_index entry) ;;
    ' (_, b) <- FileEntry.compile entry ;;
    Ok (set_data f (Py.slice_assign (data f) offset (offset + 32) b), true).

End Clock.





(** The bytes of an ASCII string literal *)
Definition bs (s : string) : list Z := map Str.code (list_ascii_of_string s).

(** ** A small image for concrete runs

    128-byte sectors, one sector per cluster, two one-sector FATs and a
    four-entry root that fill the first four-sector track of side 1, 32
    sectors in all: 28 clusters, 12 of them on side 1. *)
Definition small_floppy : list Z :=
  repeat 0 11
  ++ [0x80;0x00; 0x01; 0x01;0x00; 0x02; 0x04;0x00; 0x20;0x00; 0xF9;
      0x01;0x00; 0x04;0x00; 0x02;0x00]
  ++ repeat 0 100
  ++ [0xF7;0xFF;0xFF] ++ repeat 0 125
  ++ [0xF7;0xFF;0xFF] ++ repeat 0 125
  ++ repeat 0 128
  ++ repeat 0xE5 (28 * 128).

Definition bytes_okb (d : list Z) : bool :=
  forallb (fun b => (0 <=? b) && (b <? 256)) d.

(** ** 8.3 names

    The two parts FileEntry.compile cuts a name into, at its first period. *)
Definition name_base (s : string) : string :=
  let period := Str.find "." s in
  if 0 <=? period then Str.upto s period else s.

Definition name_ext (s : string) : string :=
  let period := Str.find "." s in
  if 0 <=? period then Str.from s (period + 1) else EmptyString.

Fixpoint is_ascii (s : string) : bool :=
  match s with
  | EmptyString => true
  | String c t => (Str.code c <? 128) && is_ascii t
  end.

(** A name that is at most 8 ASCII characters, a period and at most 3 ASCII
    characters (the period and extension may be missing). *)
Definition decomposable (s : string) : bool :=
  is_ascii s && (Str.len (name_base s) <=? 8) && (Str.len (name_ext s) <=? 3).

(** The first character of a name is not NUL. *)
Definition starts_plain (s : string) : bool :=
  match s with
  | EmptyString => true
  | String c _ => negb (Str.code c =? 0)
  end.

(** ** The side-1-first order, as a function

    The values the TwoSide block computes, when no division is by zero. *)
Definition cside (f : Floppy) : Z := track_sects f / cluster_sects f.
Definition tcount (f : Floppy) : Z := sectors f / (track_sects f * 2).
Definition csplit (f : Floppy) : Z := (tcount f - 1) * cside f.
Definition cdual (f : Floppy) : Z := (track_sects f * 2) / cluster_sects f.

(** The cluster [j] at position [l] of the order. *)
Definition position (f : Floppy) (l : Z) : Z :=
  if l <? csplit f then
    (l / cside f) * cdual f + (1 - 0) * (cdual f - cside f) + l mod cside f + 2
  else
    ((l - csplit f) / (cdual f - cside f)) * cdual f
    + (1 - 1) * (cdual f - cside f) + (l - csplit f) mod (cdual f - cside f) + 2.

(** The geometry under which the TwoSide block divides by no zero. *)
Definition geom_ok (f : Floppy) : Prop :=
  0 < cluster_sects f /\ 0 < track_sects f /\ cluster_sects f <= 2 * track_sects f.

(** The FAT entry of cluster [j], for [j >= 0]. *)
Definition fat_at (t : list Z) (j : Z) : option Z := nth_error t (Z.to_nat j).

(** Cluster [j] is the side-1 position of one of the loop indices [idx]. *)
Definition side1_at (f : Floppy) (idx : list Z) (j : Z) : bool :=
  existsb (fun i => (i - 2 <? csplit f) && (position f (i - 2) =? j)) idx.

(** The loop indices that stand for a free cluster on side 1, and those that
    stand for a used cluster on side 2. *)
Definition side1_free (f : Floppy) (t : list Z) (i : Z) : bool :=
  (i - 2 <? csplit f)
  && match fat_at t (position f (i - 2)) with Some v => v =? 0 | None => false end.

Definition side2_used (f : Floppy) (t : list Z) (i : Z) : bool :=
  negb (i - 2 <? csplit f)
  && match fat_at t (position f (i - 2)) with Some v => negb (v =? 0) | None => false end.

Definition count_of (p : Z -> bool) (idx : list Z) : Z := Py.len (filter p idx).

(** Cluster [j] is below the cluster limit and its FAT entry is zero. *)
Definition is_free (f : Floppy) (j : Z) : bool :=
  (j <? cluster_limit f)
  && match fat_at (fat f) j with Some v => v =? 0 | None => false end.

(** The free clusters, in the order the loop of _add_chain meets them. *)
Definition candidates (f : Floppy) (idx : list Z) : list Z :=
  filter (is_free f) (map (fun i => position f (i - 2)) idx).

(** The FAT can be indexed at every position below the cluster limit. *)
Definition fat_covers (f : Floppy) (idx : list Z) : Prop :=
  forall i, In i idx ->
    2 <= i /\ (position f (i - 2) < cluster_limit f -> position f (i - 2) < Py.len (fat f)).

(** The small image, loaded. *)
Definition small_fat : list Z := [0xFF7; 0xFFF] ++ repeat 0 83.

Definition small : Floppy :=
  mkFloppy small_floppy 128 1 1 2 4 32 1 4 2 0 "" 384 512 30 small_fat.

(** The blank image with cluster 2 marked as the one cluster of a file, in
    both FAT copies: what a loader gets from a disk that another FAT12 tool
    wrote its first file to. *)
Definition blank_used2 : list Z :=
  Py.slice_assign (Py.slice_assign blank_floppy 515 517 [0xFF; 0x0F])
                  2051 2053 [0xFF; 0x0F].

(** How many entries of [t'] hold the reserved sentinel where [t] held zero. *)
Fixpoint newly_reserved (t t' : list Z) : Z :=
  match t, t' with
  | v :: r, v' :: r' =>
      (if (v =? 0) && (v' =? 0xFF0) then 1 else 0) + newly_reserved r r'
  | _, _ => 0
  end.

(** The blank image, loaded. *)
Definition blank_fat : list Z := [0xFF7; 0xFFF] ++ repeat 0 1022.

Definition blank_state : Floppy :=
  mkFloppy blank_floppy 512 2 1 2 32 1440 3 9 2 0 "" 3584 4608 717 blank_fat.




(** [f'] is [f] with other image bytes and another FAT of the same length:
    every operation of the engine leaves the boot fields alone. *)
Definition same_geom (f f' : Floppy) : Prop :=
  exists t d, f' = set_data (set_fat f t) d /\ Py.len t = Py.len (fat f).

(** The link a chain gives cluster [j]: the cluster after it, or the
    end-of-chain mark for the last one; nothing for a cluster outside it. *)
Fixpoint chain_link (chain : list Z) (j : Z) : option Z :=
  match chain with
  | [] => None
  | a :: rest =>
      if a =? j then Some (match rest with b :: _ => b | [] => 0xFFF end)
      else chain_link rest j
  end.

(** The number of clusters _add_chain wants for the data [d], and the chain
    of free clusters it finds for it. *)
Definition clusters_for (f : Floppy) (d : list Z) : Z :=
  let cluster_size := sector_size f * cluster_sects f in
  let clusters := (Py.len d + cluster_size - 1) / cluster_size in
  if clusters <? 1 then 1 else clusters.

Definition chain_for (f : Floppy) (d : list Z) : list Z :=
  firstn (Z.to_nat (clusters_for f d)) (candidates f (range 2 (Py.len (fat f)))).

(** The directory part and the leaf of a path, as add_file_path cuts it at
    the last separator. *)
Definition dir_part (path : string) : string :=
  let separator := Str.rfind backslash path in
  if 0 <=? separator then Str.upto path separator else EmptyString.

Definition leaf_part (path : string) : string :=
  let separator := Str.rfind backslash path in
  if 0 <=? separator then Str.from path (separator + 1) else path.



(** ** Chains and directories as they lie on the image *)

Definition cluster_size (f : Floppy) : Z := sector_size f * cluster_sects f.

(** The clusters of the chain that starts at [c], when the walk along the FAT
    stays among the data clusters, meets no cluster twice and ends at an
    end-of-chain mark. *)
Fixpoint chain_of (fuel : nat) (t : list Z) (lim c : Z) : option (list Z) :=
  match fuel with
  | O => None
  | S k =>
      if (2 <=? c) && (c <? lim) then
        match fat_at t c with
        | Some v =>
            if 0xFF0 <=? v then Some [c]
            else match chain_of k t lim v with
                 | Some rest =>
                     if existsb (Z.eqb c) rest then None else Some (c :: rest)
                 | None => None
                 end
        | None => None
        end
      else None
  end.

(** The regions of a directory: the root is the one region 0, a
    subdirectory has the clusters of its chain. *)
Definition dir_chain (f : Floppy) (cl : Z) : option (list Z) :=
  if cl =? 0 then Some [0]
  else chain_of (List.length (fat f)) (fat f) (cluster_limit f) cl.

Definition region_size (f : Floppy) (c : Z) : Z :=
  if c <? 2 then root_max f * 32 else cluster_size f.

Definition region (f : Floppy) (c : Z) : list Z :=
  Py.slice (data f) (_cluster_offset f c) (_cluster_offset f c + region_size f c).

Definition listing (f : Floppy) (ch : list Z) : list Z := List.concat (map (region f) ch).

(** The image offset of slot [i] of the directory whose regions are [ch]. *)
Definition slots_per (f : Floppy) (cl : Z) : Z := region_size f cl / 32.

Definition slot_offset (f : Floppy) (cl : Z) (ch : list Z) (i : Z) : Z :=
  _cluster_offset f (nth (Z.to_nat (i / slots_per f cl)) ch 0)
  + 32 * (i mod slots_per f cl).

(** What the operations on directories take for granted of the layout: the
    allocator's geometry, clusters of whole directory entries with room for
    the two dot entries, the root directory below the first cluster, every
    cluster inside the image and described by the FAT, cluster numbers below
    the reserved marks, and a directory of two clusters within the size
    _read_dir_chain reads. *)
Definition image_ok (f : Floppy) : bool :=
  (0 <? cluster_sects f) && (0 <? track_sects f)
  && (cluster_sects f <=? 2 * track_sects f)
  && (64 <=? cluster_size f) && (cluster_size f mod 32 =? 0)
  && (0 <=? root f) && (0 <=? root_max f)
  && (root f + root_max f * 32 <=? cluster2 f)
  && (2 <=? cluster_limit f)
  && (cluster2 f + cluster_size f * (cluster_limit f - 2) <=? Py.len (data f))
  && (cluster_limit f <=? Py.len (fat f)) && (cluster_limit f <=? 0xFF0)
  && (2 * cluster_size f <=? (sector_size f * sectors f) / cluster_sects f).

(** A chain of clusters holds the data [d]: cluster by cluster, the image
    has the next [cluster_size] bytes of it. *)
Fixpoint holds (f : Floppy) (img : list Z) (ch : list Z) (d : list Z) : Prop :=
  match ch with
  | [] => d = []
  | c :: rest =>
      let n := Z.min (Py.len d) (cluster_size f) in
      Py.slice img (_cluster_offset f c) (_cluster_offset f c + n) = Py.slice d 0 n
      /\ holds f img rest (Py.slice d n (Py.len d))
  end.

(** The FAT links the clusters of [ch] one to the next and marks the last
    one as the end. *)
Fixpoint linked (t : list Z) (ch : list Z) : Prop :=
  match ch with
  | [] => True
  | c :: rest =>
      match rest with
      | [] => exists v, fat_at t c = Some v /\ 0xFF0 <= v
      | c' :: _ => fat_at t c = Some c' /\ linked t rest
      end
  end.

Record wf_chain (t : list Z) (lim : Z) (ch : list Z) : Prop := {
  wf_nonempty : ch <> [];
  wf_nodup : NoDup ch;
  wf_range : forall c, In c ch -> 2 <= c < lim;
  wf_linked : linked t ch
}.

(** [ch] are the regions of the directory [cl] of the image. *)
Definition dir_at (f : Floppy) (cl : Z) (ch : list Z) : Prop :=
  (cl = 0 /\ ch = [0]) \/
  (2 <= cl /\ hd 0 ch = cl /\ wf_chain (fat f) (cluster_limit f) ch).

(** ** What an operation leaves as it was *)

(** A region in use: the root directory, or a cluster that the FAT does not
    give as free. *)
Definition used (f : Floppy) (c : Z) : Prop :=
  c = 0 \/ (2 <= c < cluster_limit f /\ exists v, fat_at (fat f) c = Some v /\ v <> 0).

(** The bytes and the FAT entry of region [c] are the same in [f'] as in [f]. *)
Definition kept (f f' : Floppy) (c : Z) : Prop :=
  region f' c = region f c /\ (2 <= c -> fat_at (fat f') c = fat_at (fat f) c).

(** From [f] to [f'] the geometry and the size of the image are the same, and
    every region in use outside [X] is kept. *)
Definition keeps (f f' : Floppy) (X : list Z) : Prop :=
  same_geom f f' /\ Py.len (data f') = Py.len (data f) /\
  forall c, used f c -> ~ In c X -> kept f f' c.

(** ** What the scans of a directory look for *)

(** _add_dir_recursive takes the first subdirectory entry with the name. *)
Definition p_dir (seek : string) (e : FileEntry.t) : bool :=
  negb (Z.land (FileEntry.attributes e) 0x10 =? 0)
  && String.eqb (FileEntry.path e) seek.

(** _find_path_dir takes the first entry with the name that is not a volume
    label: a subdirectory that is not a dot entry, or, for the last
    component of the path, a file. *)
Definition p_find (seek next : string) (e : FileEntry.t) : bool :=
  (Z.land (FileEntry.attributes e) 0x08 =? 0)
  && (if negb (Z.land (FileEntry.attributes e) 0x10 =? 0)
      then negb (is_dots (FileEntry.path e)) && String.eqb (FileEntry.path e) seek
      else String.eqb (FileEntry.path e) seek && String.eqb next "").

(** A scan for [p] goes past slot [j]: the slot parses, does not end the
    directory, and is deleted or not what is looked for. *)
Definition passes (L : list Z) (cl : Z) (p : FileEntry.t -> bool) (j : Z) : Prop :=
  exists e, entry_at L cl j = Ok e /\ FileEntry.incipit e <> 0 /\
            (FileEntry.incipit e = EMPTY \/ p e = false).

(** Slot [m] holds the first entry that a scan for [p] takes. *)
Definition first_hit (L : list Z) (cl : Z) (p : FileEntry.t -> bool) (m : Z)
  (e : FileEntry.t) : Prop :=
  0 <= m /\ (forall j, 0 <= j < m -> passes L cl p j) /\
  entry_at L cl m = Ok e /\ FileEntry.incipit e <> 0 /\
  FileEntry.incipit e <> EMPTY /\ p e = true.

(** The size _read_dir_chain reads at most, and the directories it reads
    whole and whose slots _dir_entry_offset reaches. *)
Definition dir_read_max (f : Floppy) : Z := (sector_size f * sectors f) / cluster_sects f.

Definition read_room (f : Floppy) (ch : list Z) : Prop :=
  cluster_size f * Py.len ch <= dir_read_max f /\
  Py.len ch <= Z.of_nat recursion_limit.

(** The walk of _add_dir_recursive from directory [cl] along the components
    [comps] finds every one of them and ends in the directory [dc]; [F] are
    the regions of the directories it reads, no region twice. *)
Inductive resolves (f : Floppy) : Z -> list string -> Z -> list Z -> Prop :=
| resolves_nil : forall cl, resolves f cl [] cl []
| resolves_cons : forall cl ch s rest m e dc F,
    dir_at f cl ch -> read_room f ch ->
    m < slots_per f cl * Py.len ch ->
    first_hit (listing f ch) cl (p_dir s) m e ->
    Z.land (FileEntry.attributes e) 0x08 = 0 ->
    resolves f (FileEntry.cluster e) rest dc F ->
    (forall c, In c ch -> ~ In c F) ->
    resolves f cl (s :: rest) dc (ch ++ F).

(** The small image with one file chain in its FAT: clusters 2 and 3. *)
Definition chained_small : Floppy :=
  set_fat small ([0xFF7; 0xFFF; 3; 0xFFF] ++ repeat 0 81).

(** ** Names that are stored and read back unchanged *)

(** A string of [k] spaces. *)
Fixpoint spaces (k : nat) : string :=
  match k with
  | O => EmptyString
  | S k' => String " "%char (spaces k')
  end.

(** The name FileEntry(data) reads from the eight name bytes [n] and the
    three extension bytes [x] of an entry whose first byte is [inc]. *)
Definition read_name (n x : list Z) (inc : Z) : result string :=
  if negb (inc =? 0x00) && negb (inc =? EMPTY) then
    filename <- Str.decode n ;;
    let filename := Str.rstrip filename in
    extension <- Str.decode x ;;
    let extension := Str.rstrip extension in
    if 0 <? Str.len extension
    then Ok (filename ++ "." ++ extension)%string
    else Ok filename
  else Ok EmptyString.

(** A name in the form the directory keeps it: at most 8 + 3 ASCII
    characters, not starting with NUL, no space at the end of the base or of
    the extension, and no period without an extension after it. *)
Definition canonical (s : string) : bool :=
  decomposable s && starts_plain s
  && String.eqb (Str.rstrip (name_base s)) (name_base s)
  && String.eqb (Str.rstrip (name_ext s)) (name_ext s)
  && ((Str.find "." s <? 0) || (0 <? Str.len (name_ext s))).

(** * Theorems *)

(** ** Outcomes *)

Lemma bind_ok {A B : Type} (m : result A) (k : A -> result B) (b : B) :
  bind m k = Ok b -> exists a, m = Ok a /\ k a = Ok b.
Proof. destruct m; simpl; intros H; try discriminate. eauto. Qed.

Ltac inv_bind H :=
  let a := fresh "x" in
  let Ha := fresh "E" in
  apply bind_ok in H; destruct H as (a & Ha & H).

(** ** Python sequences *)

Lemma update_spec {A : Type} (l : list A) (n : nat) (v : A) (l' : list A) :
  Py.update l n v = Some l' ->
  List.length l' = List.length l /\ nth_error l' n = Some v /\
  (forall m, m <> n -> nth_error l' m = nth_error l m).
Proof.
  revert n l'. induction l as [|h t IH]; intros n l' H; simpl in H.
  - destruct n; discriminate.
  - destruct n as [|k].
    + inversion H; subst; clear H. simpl. repeat split.
      intros [|m] Hm; [congruence | reflexivity].
    + destruct (Py.update t k v) as [t'|] eqn:E; [|discriminate].
      inversion H; subst; clear H.
      destruct (IH _ _ E) as (HL & HN & HO). simpl. repeat split; auto.
      intros [|m] Hm; simpl; auto.
Qed.

Lemma update_some {A : Type} (l : list A) (n : nat) (v : A) :
  (n < List.length l)%nat -> exists l', Py.update l n v = Some l'.
Proof.
  revert n. induction l as [|h t IH]; intros n H; simpl in *; [lia|].
  destruct n; [eauto|]. destruct (IH n) as (t' & E); [lia|]. rewrite E. eauto.
Qed.

Lemma index_nonneg {A : Type} (l : list A) (i : Z) (x : A) :
  0 <= i -> (Py.index l i = Ok x <-> nth_error l (Z.to_nat i) = Some x).
Proof.
  intros H. unfold Py.index.
  destruct (i <? 0) eqn:E; [apply Z.ltb_lt in E; lia|]. rewrite E.
  destruct (nth_error l (Z.to_nat i)); split; intros H1; congruence.
Qed.

Lemma store_nonneg {A : Type} (l : list A) (i : Z) (v : A) (l' : list A) :
  0 <= i -> (Py.store l i v = Ok l' <-> Py.update l (Z.to_nat i) v = Some l').
Proof.
  intros H. unfold Py.store.
  destruct (i <? 0) eqn:E; [apply Z.ltb_lt in E; lia|]. rewrite E.
  destruct (Py.update l (Z.to_nat i) v); split; intros H1; congruence.
Qed.

Lemma bstore_ok (l : list Z) (i v : Z) (l' : list Z) :
  Py.bstore l i v = Ok l' -> Py.store l i v = Ok l' /\ 0 <= v < 256.
Proof.
  unfold Py.bstore. destruct (v <? 0) eqn:E1; simpl; [discriminate|].
  destruct (256 <=? v) eqn:E2; [discriminate|].
  apply Z.ltb_ge in E1. apply Z.leb_gt in E2. auto.
Qed.

(** ** FAT table codec: the round trip *)

Definition nibble_lo (o : option Z) : option Z := option_map (fun b => Z.land b 0x0F) o.

Lemma land_lor_lo (b x : Z) :
  Z.land (Z.lor (Z.land b 0x0F) (Z.land x 0xF0)) 0x0F = Z.land b 0x0F.
Proof.
  rewrite Z.land_lor_distr_l, <- !Z.land_assoc. simpl Z.land at 2 4.
  rewrite (Z.land_0_r x), Z.lor_0_r. reflexivity.
Qed.

Lemma land_lor_hi (b x : Z) :
  Z.land (Z.lor (Z.land b 0x0F) (Z.land x 0xF0)) 0xF0 = Z.land x 0xF0.
Proof.
  rewrite Z.land_lor_distr_l, <- !Z.land_assoc. simpl Z.land at 2 4.
  rewrite (Z.land_0_r b), Z.lor_0_l. reflexivity.
Qed.

Lemma land_lor_lo' (b x : Z) :
  Z.land (Z.lor (Z.land b 0xF0) (Z.land x 0x0F)) 0x0F = Z.land x 0x0F.
Proof.
  rewrite Z.land_lor_distr_l, <- !Z.land_assoc. simpl Z.land at 2 4.
  rewrite (Z.land_0_r b), Z.lor_0_l. reflexivity.
Qed.

Definition even_ok (x : Z) : bool :=
  Z.lor (Z.land x 0xFF) (Z.shiftl (Z.land (Z.shiftr x 8) 0x0F) 8) =? x.

Definition odd_ok (x : Z) : bool :=
  Z.lor (Z.shiftr (Z.land (Z.shiftl x 4) 0xF0) 4)
        (Z.shiftl (Z.land (Z.shiftr x 4) 0xFF) 4) =? x.

Lemma range_In (a b x : Z) : a <= x < b -> In x (range a b).
Proof.
  intros H. unfold range. apply in_map_iff. exists (Z.to_nat (x - a)).
  split; [lia|]. apply in_seq. lia.
Qed.

Lemma twelve_bits_codec :
  forallb (fun x => even_ok x && odd_ok x) (range 0 4096) = true.
Proof. vm_compute. reflexivity. Qed.

Lemma even_entry (x : Z) : 0 <= x <= 0xFFF ->
  Z.lor (Z.land x 0xFF) (Z.shiftl (Z.land (Z.shiftr x 8) 0x0F) 8) = x.
Proof.
  intros H. pose proof twelve_bits_codec as T.
  rewrite forallb_forall in T. specialize (T x (range_In 0 4096 x ltac:(lia))).
  apply andb_prop in T. destruct T as [T _]. apply Z.eqb_eq in T. exact T.
Qed.

Lemma odd_entry (x : Z) : 0 <= x <= 0xFFF ->
  Z.lor (Z.shiftr (Z.land (Z.shiftl x 4) 0xF0) 4)
        (Z.shiftl (Z.land (Z.shiftr x 4) 0xFF) 4) = x.
Proof.
  intros H. pose proof twelve_bits_codec as T.
  rewrite forallb_forall in T. specialize (T x (range_In 0 4096 x ltac:(lia))).
  apply andb_prop in T. destruct T as [_ T]. apply Z.eqb_eq in T. exact T.
Qed.

Lemma parity_succ (n : Z) : (Z.land (n + 1) 1 =? 0) = negb (Z.land n 1 =? 0).
Proof.
  change 1 with (Z.ones 1) at 2 3. rewrite !Z.land_ones by lia.
  change (2 ^ 1) with 2.
  destruct (Z.eqb_spec (n mod 2) 0) as [E|E];
    destruct (Z.eqb_spec ((n + 1) mod 2) 0) as [E'|E']; simpl; auto.
  - rewrite Z.add_mod in E' by lia. rewrite E in E'. discriminate.
  - exfalso. pose proof (Z.mod_pos_bound n 2 ltac:(lia)).
    rewrite Z.add_mod in E' by lia. assert (n mod 2 = 1) as R by lia.
    rewrite R in E'. apply E'. reflexivity.
Qed.

(** What packing leaves alone: the length, every byte below [e], and, when
    the first entry to pack is an odd one, the low nibble of the byte at [e]. *)
Lemma fat_pack_frame (fat : list Z) : forall (d : list Z) (e i : Z) (d' : list Z),
  0 <= e -> fat_pack d e i fat = Ok d' ->
  List.length d' = List.length d /\
  (forall k, (k < Z.to_nat e)%nat -> nth_error d' k = nth_error d k) /\
  ((Z.land i 1 =? 0) = false ->
   nibble_lo (nth_error d' (Z.to_nat e)) = nibble_lo (nth_error d (Z.to_nat e))).
Proof.
  induction fat as [|entry rest IH]; intros d e i d' He H; simpl in H.
  - inversion H; subst. auto.
  - destruct (Z.land i 1 =? 0) eqn:Ei.
    + inv_bind H. inv_bind H. inv_bind H.
      apply bstore_ok in E. destruct E as [E _].
      apply bstore_ok in E1. destruct E1 as [E1 _].
      rewrite Z.add_0_r in E.
      apply store_nonneg in E; [|lia]. apply store_nonneg in E1; [|lia].
      apply update_spec in E. destruct E as (L1 & _ & O1).
      apply update_spec in E1. destruct E1 as (L2 & _ & O2).
      apply IH in H; [|lia]. destruct H as (L3 & O3 & _).
      split; [congruence|]. split; [|discriminate].
      intros k Hk. rewrite O3 by lia. rewrite O2 by lia. apply O1. lia.
    + inv_bind H. inv_bind H. inv_bind H.
      apply bstore_ok in E0. destruct E0 as [E0 _].
      apply bstore_ok in E1. destruct E1 as [E1 _].
      rewrite Z.add_0_r in E, E0.
      apply index_nonneg in E; [|lia].
      apply store_nonneg in E0; [|lia]. apply store_nonneg in E1; [|lia].
      apply update_spec in E0. destruct E0 as (L1 & N1 & O1).
      apply update_spec in E1. destruct E1 as (L2 & _ & O2).
      apply IH in H; [|lia]. destruct H as (L3 & O3 & _).
      split; [congruence|]. split.
      * intros k Hk. rewrite O3 by lia. rewrite O2 by lia. apply O1. lia.
      * intros _. rewrite O3 by lia. rewrite O2 by lia. rewrite N1, E. simpl.
        rewrite land_lor_lo. reflexivity.
Qed.

(** The bound [fat_end] lets the reading loop take exactly the entries of
    [fat], starting at byte [e] with entry number [i]. *)
Fixpoint stops_after (e i : Z) (fat : list Z) (fat_end : Z) : Prop :=
  match fat with
  | [] => fat_end < e + 2
  | _ :: rest =>
      e + 2 <= fat_end /\
      stops_after (if Z.land i 1 =? 0 then e + 1 else e + 2) (i + 1) rest fat_end
  end.

Lemma fat_read_pack (fat : list Z) :
  forall (d : list Z) (e i : Z) (d' acc : list Z) (fuel : nat) (fat_end : Z),
  0 <= e -> Forall (fun x => 0 <= x <= 0xFFF) fat ->
  fat_pack d e i fat = Ok d' ->
  (Z.land (Py.len acc) 1 =? 0) = (Z.land i 1 =? 0) ->
  stops_after e i fat fat_end ->
  (List.length fat < fuel)%nat ->
  fat_read fuel d' e fat_end acc = Ok (acc ++ fat).
Proof.
  induction fat as [|entry rest IH];
    intros d e i d' acc fuel fat_end He HF H Hp Hs Hfuel.
  - destruct fuel; [simpl in Hfuel; lia|]. simpl in *.
    destruct (Z.leb_spec (e + 2) fat_end); [lia|]. rewrite app_nil_r. reflexivity.
  - destruct fuel; [simpl in Hfuel; lia|].
    inversion HF as [|? ? Hx HF']; subst. simpl in Hs. destruct Hs as [Hs1 Hs2].
    assert (Hlen : (Z.land (Py.len (acc ++ [entry])) 1 =? 0)
                   = (Z.land (i + 1) 1 =? 0)).
    { unfold Py.len in *. rewrite length_app. simpl List.length.
      rewrite Nat2Z.inj_add. change (Z.of_nat 1) with 1.
      rewrite !parity_succ. f_equal. exact Hp. }
    simpl in H. simpl fat_read.
    destruct (Z.leb_spec (e + 2) fat_end); [|lia]. rewrite Hp.
    destruct (Z.land i 1 =? 0) eqn:Ei.
    + inv_bind H. inv_bind H. inv_bind H.
      assert (R : fat_read fuel d' (e + 1) fat_end (acc ++ [entry])
                  = Ok ((acc ++ [entry]) ++ rest)).
      { apply (IH x1 (e + 1) (i + 1)); auto; try lia. simpl in Hfuel. lia. }
      apply fat_pack_frame in H; [|lia]. destruct H as (L3 & O3 & N3).
      apply bstore_ok in E. destruct E as [E _].
      apply bstore_ok in E1. destruct E1 as [E1 _].
      rewrite Z.add_0_r in E.
      apply store_nonneg in E; [|lia]. apply store_nonneg in E1; [|lia].
      apply update_spec in E. destruct E as (L1 & N1 & O1).
      apply update_spec in E1. destruct E1 as (L2 & N2 & O2).
      assert (B0 : Py.index d' (e + 0) = Ok (Z.land entry 0xFF)).
      { rewrite Z.add_0_r. apply index_nonneg; [lia|].
        rewrite O3 by lia. rewrite O2 by lia. exact N1. }
      specialize (N3 ltac:(rewrite parity_succ, Ei; reflexivity)).
      rewrite N2 in N3. simpl in N3. rewrite land_lor_lo' in N3.
      destruct (nth_error d' (Z.to_nat (e + 1))) as [b1|] eqn:Eb1; [|discriminate].
      simpl in N3. inversion N3 as [N3'].
      assert (B1 : Py.index d' (e + 1) = Ok b1).
      { apply index_nonneg; [lia|]. exact Eb1. }
      rewrite B0, B1. cbn [bind]. rewrite N3'.
      rewrite even_entry by exact Hx.
      rewrite R, <- app_assoc. reflexivity.
    + inv_bind H. inv_bind H. inv_bind H.
      assert (R : fat_read fuel d' (e + 2) fat_end (acc ++ [entry])
                  = Ok ((acc ++ [entry]) ++ rest)).
      { apply (IH x1 (e + 2) (i + 1)); auto; try lia. simpl in Hfuel. lia. }
      apply fat_pack_frame in H; [|lia]. destruct H as (L3 & O3 & _).
      apply bstore_ok in E0. destruct E0 as [E0 _].
      apply bstore_ok in E1. destruct E1 as [E1 _].
      rewrite Z.add_0_r in E, E0.
      apply store_nonneg in E0; [|lia]. apply store_nonneg in E1; [|lia].
      apply update_spec in E0. destruct E0 as (L1 & N1 & O1).
      apply update_spec in E1. destruct E1 as (L2 & N2 & O2).
      assert (B0 : Py.index d' (e + 0) = Ok
                (Z.lor (Z.land x 0x0F) (Z.land (Z.shiftl entry 4) 0xF0))).
      { rewrite Z.add_0_r. apply index_nonneg; [lia|].
        rewrite O3 by lia. rewrite O2 by lia. exact N1. }
      assert (B1 : Py.index d' (e + 1) = Ok (Z.land (Z.shiftr entry 4) 0xFF)).
      { apply index_nonneg; [lia|]. rewrite O3 by lia. exact N2. }
      rewrite B0, B1. cbn [bind]. rewrite land_lor_hi.
      rewrite odd_entry by exact Hx.
      rewrite R, <- app_assoc. reflexivity.
Qed.

Lemma stops_after_exact (fat : list Z) : forall (e i fat_end : Z),
  fat_end - e < (3 * Py.len fat + i mod 2) / 2 + 2 ->
  (0 < Py.len fat -> (3 * Py.len fat + i mod 2 + 1) / 2 <= fat_end - e) ->
  stops_after e i fat fat_end.
Proof.
  induction fat as [|x rest IH]; intros e i fat_end H H0.
  - simpl. change (Py.len (@nil Z)) with 0 in H.
    pose proof (Z.mod_pos_bound i 2 ltac:(lia)). Z.div_mod_to_equations. lia.
  - assert (Hn : Py.len (x :: rest) = Py.len rest + 1).
    { unfold Py.len. simpl List.length. lia. }
    pose proof (Zle_0_nat (List.length rest)) as Hr. fold (Py.len rest) in Hr.
    rewrite Hn in *. specialize (H0 ltac:(lia)).
    assert (Hland : (Z.land i 1 =? 0) = (i mod 2 =? 0)).
    { change 1 with (Z.ones 1). rewrite Z.land_ones by lia. reflexivity. }
    assert (Hi1 : (i + 1) mod 2 = 1 - i mod 2).
    { Z.div_mod_to_equations. lia. }
    simpl. rewrite Hland. split.
    + revert H0. generalize (Py.len rest) Hr. intros m Hm H0.
      Z.div_mod_to_equations. lia.
    + apply IH; rewrite Hi1.
      * revert H. generalize (Py.len rest) Hr. intros m Hm H.
        destruct (Z.eqb_spec (i mod 2) 0) as [Ez|Ez].
        -- rewrite Ez in *. Z.div_mod_to_equations. lia.
        -- assert (i mod 2 = 1) as E1 by (Z.div_mod_to_equations; lia).
           rewrite E1 in *. Z.div_mod_to_equations. lia.
      * revert H0. generalize (Py.len rest) Hr. intros m Hm H0 Hpos.
        destruct (Z.eqb_spec (i mod 2) 0) as [Ez|Ez].
        -- rewrite Ez in *. Z.div_mod_to_equations. lia.
        -- assert (i mod 2 = 1) as E1 by (Z.div_mod_to_equations; lia).
           rewrite E1 in *. Z.div_mod_to_equations. lia.
Qed.

Lemma land_ff_bound (x : Z) : 0 <= Z.land x 0xFF < 256.
Proof.
  change 0xFF with (Z.ones 8). rewrite Z.land_ones by lia.
  apply Z.mod_pos_bound. reflexivity.
Qed.

Lemma lor_nibbles_bound (a b m n : Z) :
  Z.land m 0xFF = m -> Z.land n 0xFF = n ->
  0 <= Z.lor (Z.land a m) (Z.land b n) < 256.
Proof.
  intros Hm Hn.
  assert (E : Z.land (Z.lor (Z.land a m) (Z.land b n)) 0xFF
              = Z.lor (Z.land a m) (Z.land b n)).
  { rewrite Z.land_lor_distr_l, <- !Z.land_assoc, Hm, Hn. reflexivity. }
  rewrite <- E. apply land_ff_bound.
Qed.

Lemma bstore_in_range (l : list Z) (i v : Z) :
  0 <= i < Py.len l -> 0 <= v < 256 -> exists l', Py.bstore l i v = Ok l'.
Proof.
  intros Hi Hv. unfold Py.bstore, Py.store.
  destruct (Z.ltb_spec v 0); [lia|]. destruct (Z.leb_spec 256 v); [lia|]. simpl.
  destruct (Z.ltb_spec i 0); [lia|]. destruct (Z.ltb_spec i 0); [lia|].
  destruct (update_some l (Z.to_nat i) v) as (l' & E).
  { unfold Py.len in Hi. lia. }
  rewrite E. eauto.
Qed.

Lemma index_in_range {A : Type} (l : list A) (i : Z) :
  0 <= i < Py.len l -> exists x, Py.index l i = Ok x.
Proof.
  intros Hi. unfold Py.index.
  destruct (Z.ltb_spec i 0); [lia|]. destruct (Z.ltb_spec i 0); [lia|].
  destruct (nth_error l (Z.to_nat i)) eqn:E; [eauto|].
  apply nth_error_None in E. unfold Py.len in Hi. lia.
Qed.

Lemma bstore_len (l : list Z) (i v : Z) (l' : list Z) :
  0 <= i -> Py.bstore l i v = Ok l' -> Py.len l' = Py.len l.
Proof.
  intros Hi H. apply bstore_ok in H. destruct H as [H _].
  apply store_nonneg in H; [|lia]. apply update_spec in H.
  unfold Py.len. destruct H as (L & _). congruence.
Qed.

(** Packing succeeds as soon as the bytes it touches are inside the buffer:
    that takes no assumption on the entries. *)
Lemma fat_pack_total (fat : list Z) : forall (d : list Z) (e i : Z),
  0 <= e ->
  (0 < Py.len fat -> e + (3 * Py.len fat + i mod 2 + 1) / 2 <= Py.len d) ->
  exists d', fat_pack d e i fat = Ok d'.
Proof.
  induction fat as [|x rest IH]; intros d e i He H; cbn [fat_pack]; [eauto|].
  assert (Hn : Py.len (x :: rest) = Py.len rest + 1).
  { unfold Py.len. simpl List.length. lia. }
  pose proof (Zle_0_nat (List.length rest)) as Hr. fold (Py.len rest) in Hr.
  rewrite Hn in H. specialize (H ltac:(lia)).
  assert (Hi1 : (i + 1) mod 2 = 1 - i mod 2).
  { Z.div_mod_to_equations. lia. }
  assert (Hland : (Z.land i 1 =? 0) = (i mod 2 =? 0)).
  { change 1 with (Z.ones 1). rewrite Z.land_ones by lia. reflexivity. }
  assert (Hroom : e + 2 <= Py.len d).
  { revert H. generalize (Py.len rest) Hr. intros m Hm H.
    Z.div_mod_to_equations. lia. }
  rewrite Hland. destruct (Z.eqb_spec (i mod 2) 0) as [Ez|Ez].
  - destruct (bstore_in_range d (e + 0) (Z.land x 0xFF)) as (d1 & E1);
      [lia | apply land_ff_bound |].
    rewrite E1. cbn [bind]. pose proof (bstore_len d (e + 0) _ d1 ltac:(lia) E1) as L1.
    destruct (index_in_range d1 (e + 1)) as (b & Eb); [lia|].
    rewrite Eb. cbn [bind].
    destruct (bstore_in_range d1 (e + 1)
                (Z.lor (Z.land b 0xF0) (Z.land (Z.shiftr x 8) 0x0F)))
      as (d2 & E2); [lia | apply lor_nibbles_bound; reflexivity |].
    rewrite E2. cbn [bind]. pose proof (bstore_len d1 (e + 1) _ d2 ltac:(lia) E2) as L2.
    apply IH; [lia|]. intros Hpos. rewrite Hi1, Ez, L2, L1.
    revert H. rewrite Ez. generalize (Py.len rest) Hr. intros m Hm H.
    Z.div_mod_to_equations. lia.
  - assert (E1' : i mod 2 = 1) by (Z.div_mod_to_equations; lia).
    destruct (index_in_range d (e + 0)) as (b & Eb); [lia|].
    rewrite Eb. cbn [bind].
    destruct (bstore_in_range d (e + 0)
                (Z.lor (Z.land b 0x0F) (Z.land (Z.shiftl x 4) 0xF0)))
      as (d1 & E1); [lia | apply lor_nibbles_bound; reflexivity |].
    rewrite E1. cbn [bind]. pose proof (bstore_len d (e + 0) _ d1 ltac:(lia) E1) as L1.
    destruct (bstore_in_range d1 (e + 1) (Z.land (Z.shiftr x 4) 0xFF))
      as (d2 & E2); [lia | apply land_ff_bound |].
    rewrite E2. cbn [bind]. pose proof (bstore_len d1 (e + 1) _ d2 ltac:(lia) E2) as L2.
    apply IH; [lia|]. intros Hpos. rewrite Hi1, E1', L2, L1.
    revert H. rewrite E1'. generalize (Py.len rest) Hr. intros m Hm H.
    Z.div_mod_to_equations. lia.
Qed.

(** C1. For every array of 12-bit FAT entries, of even or odd length, packed
    at byte [e] of a buffer the way _fat_flush does, the reading loop of
    _fat_open run over the bytes that hold the packing gives back the array. *)
Theorem fat_pack_unpack_roundtrip :
  forall (d : list Z) (e fat_end : Z) (fat d' : list Z),
  0 <= e ->
  Forall (fun x => 0 <= x <= 0xFFF) fat ->
  (3 * Py.len fat + 1) / 2 <= fat_end - e < (3 * Py.len fat) / 2 + 2 ->
  fat_pack d e 0 fat = Ok d' ->
  fat_unpack d' e fat_end = Ok fat.
Proof.
  intros d e fat_end fat d' He HF Hend H. unfold fat_unpack.
  pose proof (Zle_0_nat (List.length fat)) as Hr. fold (Py.len fat) in Hr.
  change (Ok fat) with (Ok ([] ++ fat)).
  apply (fat_read_pack fat d e 0 d'); auto.
  - apply stops_after_exact; change (0 mod 2) with 0;
      rewrite ?Z.add_0_r; [lia|]. intros _. lia.
  - assert (Py.len fat <= fat_end - e).
    { revert Hend. generalize (Py.len fat) Hr. intros m Hm H1.
      Z.div_mod_to_equations. lia. }
    unfold Py.len in *. lia.
Qed.

Lemma fat_pack_unpack_roundtrip_witness :
  fat_unpack [0xBC; 0x3A; 0x12; 0xFF; 0x0F] 0 5 = Ok [0xABC; 0x123; 0xFFF].
Proof.
  apply (fat_pack_unpack_roundtrip [0; 0; 0; 0; 0] 0 5 [0xABC; 0x123; 0xFFF]).
  - lia.
  - repeat constructor; lia.
  - vm_compute. split; [discriminate | reflexivity].
  - reflexivity.
Defined.

(** ** Slices *)

Lemma slice_nonneg {A : Type} (l : list A) (a b : Z) :
  0 <= a -> 0 <= b ->
  Py.slice l a b = firstn (Z.to_nat (b - a)) (skipn (Z.to_nat a) l).
Proof.
  intros Ha Hb. unfold Py.slice, Py.wrap.
  destruct (Z.ltb_spec a 0); [lia|]. destruct (Z.ltb_spec b 0); [lia|]. reflexivity.
Qed.

Lemma slice_assign_nonneg {A : Type} (l : list A) (a b : Z) (v : list A) :
  0 <= a <= b ->
  Py.slice_assign l a b v = firstn (Z.to_nat a) l ++ v ++ skipn (Z.to_nat b) l.
Proof.
  intros H. unfold Py.slice_assign, Py.wrap.
  destruct (Z.ltb_spec a 0); [lia|]. destruct (Z.ltb_spec b 0); [lia|].
  rewrite Z.max_r by lia. reflexivity.
Qed.

Lemma nth_error_slice {A : Type} (l : list A) (a b : Z) (k : nat) :
  0 <= a -> 0 <= b -> (k < Z.to_nat (b - a))%nat ->
  nth_error (Py.slice l a b) k = nth_error l (Z.to_nat a + k).
Proof.
  intros Ha Hb Hk. rewrite slice_nonneg by lia.
  rewrite nth_error_firstn. destruct (Nat.ltb_spec k (Z.to_nat (b - a))); [|lia].
  apply nth_error_skipn.
Qed.

Lemma py_eqb_eq (x y : list Z) : Py.eqb x y = true <-> x = y.
Proof.
  revert y. induction x as [|a x IH]; intros [|b y]; simpl; split; intros H;
    try discriminate; try reflexivity.
  - apply andb_prop in H. destruct H as [H1 H2].
    apply Z.eqb_eq in H1. apply IH in H2. congruence.
  - inversion H; subst. rewrite Z.eqb_refl. simpl. apply IH. reflexivity.
Qed.

(** ** Loading: what _boot_open and _fat_open accept *)

Definition bytes_ok (d : list Z) : Prop := Forall (fun b => 0 <= b < 256) d.

Lemma bytes_nth (d : list Z) (n : nat) : bytes_ok d -> 0 <= nth n d 0 < 256.
Proof.
  intros H. destruct (nth_in_or_default n d 0) as [HI|HD].
  - unfold bytes_ok in H. rewrite Forall_forall in H. apply H. exact HI.
  - rewrite HD. lia.
Qed.

Lemma bytes_firstn (d : list Z) (n : nat) : bytes_ok d -> bytes_ok (firstn n d).
Proof.
  intros H. unfold bytes_ok in *. rewrite <- (firstn_skipn n d) in H.
  apply Forall_app in H. apply H.
Qed.

Lemma bytes_skipn (d : list Z) (n : nat) : bytes_ok d -> bytes_ok (skipn n d).
Proof.
  intros H. unfold bytes_ok in *. rewrite <- (firstn_skipn n d) in H.
  apply Forall_app in H. apply H.
Qed.

Lemma bytes_slice (d : list Z) (a b : Z) : bytes_ok d -> bytes_ok (Py.slice d a b).
Proof. intros H. unfold Py.slice. apply bytes_firstn, bytes_skipn, H. Qed.

Lemma u8_bound (d : list Z) (o : nat) : bytes_ok d -> 0 <= Struct.u8 d o < 256.
Proof. apply bytes_nth. Qed.

Lemma u16_bound (d : list Z) (o : nat) : bytes_ok d -> 0 <= Struct.u16 d o < 65536.
Proof.
  intros H. unfold Struct.u16.
  pose proof (bytes_nth d o H). pose proof (bytes_nth d (S o) H). lia.
Qed.

(** What a parsed boot sector guarantees. *)
Record boot_ok (d : list Z) (f : Floppy) : Prop := {
  bo_data : data f = d;
  bo_len : 38 < Py.len d;
  bo_sector_size : 0 < sector_size f < 65536;
  bo_cluster_sects : 0 < cluster_sects f < 256;
  bo_reserved : 0 <= reserved_sects f < 65536;
  bo_fat_count : 0 <= fat_count f < 256;
  bo_root_max : 0 <= root_max f < 65536;
  bo_sectors : 0 <= sectors f < 65536;
  bo_fat_sects : 0 <= fat_sects f < 65536;
  bo_track_sects : 0 <= track_sects f < 65536;
  bo_heads : heads f = 2;
  bo_fits : sectors f * sector_size f <= Py.len d;
  bo_root : root f = sector_size f * (reserved_sects f + fat_count f * fat_sects f);
  bo_cluster2 : cluster2 f = root f
      + sector_size f * ((root_max f * 32 + (sector_size f - 1)) / sector_size f);
  bo_track : cluster2 f = sector_size f * track_sects f;
  bo_limit : cluster_limit f
      = (sectors f - cluster2 f / sector_size f) / cluster_sects f + 2;
  bo_fat : fat f = []
}.

Lemma floordiv_ok (a b q : Z) : Py.floordiv a b = Ok q -> b <> 0 /\ q = a / b.
Proof.
  unfold Py.floordiv. destruct (Z.eqb_spec b 0); intros H; inversion H. auto.
Qed.

Ltac case_if H E :=
  match type of H with
  | (if ?c then _ else _) = _ => destruct c eqn:E
  end.

Lemma boot_open_ok (d : list Z) (f : Floppy) :
  bytes_ok d -> _boot_open d = Ok f -> boot_ok d f.
Proof.
  intros Hb H. unfold _boot_open in H.
  destruct (Z.ltb_spec (Py.len d) 38) as [|Hlen]; [discriminate|].
  inv_bind H. inv_bind H. destruct x0 as [vid vlabel].
  case_if H Hfit; [discriminate|]. apply Z.ltb_ge in Hfit.
  inv_bind H. inv_bind H. inv_bind H.
  apply floordiv_ok in E1, E2, E3.
  destruct E1 as [Z1 Q1]. destruct E2 as [Z2 Q2]. destruct E3 as [Z3 Q3].
  case_if H Hh; [discriminate|]. apply negb_false_iff, Z.eqb_eq in Hh.
  case_if H Ht; [discriminate|]. apply negb_false_iff, Z.eqb_eq in Ht.
  inversion H; subst f; clear H.
  pose proof (bytes_slice d 11 28 Hb) as Hbs.
  pose proof (u16_bound _ 0%nat Hbs). pose proof (u8_bound _ 2%nat Hbs).
  pose proof (u16_bound _ 3%nat Hbs). pose proof (u8_bound _ 5%nat Hbs).
  pose proof (u16_bound _ 6%nat Hbs). pose proof (u16_bound _ 8%nat Hbs).
  pose proof (u16_bound _ 11%nat Hbs). pose proof (u16_bound _ 13%nat Hbs).
  assert (Hl : 38 < Py.len d).
  { apply index_nonneg in E; [|lia].
    assert (nth_error d (Z.to_nat 38) <> None) as Hn by congruence.
    apply nth_error_Some in Hn. unfold Py.len. lia. }
  constructor; simpl; try lia; try reflexivity; subst; auto.
Qed.

Lemma init_data (d : list Z) (f : Floppy) : __init__ d = Ok f -> data f = d.
Proof.
  unfold __init__. intros H. inv_bind H.
  assert (Hd : data x = d).
  { unfold _boot_open in E.
    case_if E E1; [discriminate|]. inv_bind E. inv_bind E. destruct x1.
    case_if E E4; [discriminate|]. inv_bind E. inv_bind E. inv_bind E.
    case_if E E8; [discriminate|]. case_if E E9; [discriminate|].
    inversion E. reflexivity. }
  unfold _fat_open in H.
  case_if H H1; [discriminate|]. case_if H H2; [discriminate|].
  inv_bind H. inv_bind H. inversion H. simpl. exact Hd.
Qed.

Lemma fat_verify_mismatch (d : list Z) (fs fb fe : Z) (idx : list Z) (i : Z) :
  In i idx ->
  Py.slice d fs fe <> Py.slice d (fs + fb * i) (fs + fb * i + fb) ->
  fat_verify d fs fb fe idx = Raise FloppyError.
Proof.
  intros Hin Hne. induction idx as [|a rest IH]; [destruct Hin|].
  simpl. destruct (Py.eqb _ _) eqn:E; [|reflexivity].
  apply py_eqb_eq in E. destruct Hin as [->|Hin]; [contradiction|]. auto.
Qed.

Lemma fat_verify_ok (d : list Z) (fs fb fe : Z) (idx : list Z) :
  fat_verify d fs fb fe idx = Ok tt ->
  forall i, In i idx ->
  Py.slice d (fs + fb * i) (fs + fb * i + fb) = Py.slice d fs fe.
Proof.
  induction idx as [|a rest IH]; intros H i Hin; [destruct Hin|].
  simpl in H. destruct (Py.eqb _ _) eqn:E; [|discriminate].
  apply py_eqb_eq in E. destruct Hin as [->|Hin]; auto.
Qed.

(** C8. On load every FAT copy beyond the first is compared with copy 0 byte
    for byte: if some byte [k] of some copy [i] differs from byte [k] of copy
    0, loading raises the Floppy error and there is no image; and an image
    that loads holds the bytes it was given, unchanged, all copies equal. *)
Theorem fat_copies_checked_on_load : forall (d : list Z) (f0 : Floppy),
  bytes_ok d -> _boot_open d = Ok f0 ->
  let fat_start := reserved_sects f0 * sector_size f0 in
  let fat_bytes := fat_sects f0 * sector_size f0 in
  (forall i k, 1 <= i < fat_count f0 -> 0 <= k < fat_bytes ->
     nth_error d (Z.to_nat (fat_start + k))
       <> nth_error d (Z.to_nat (fat_start + fat_bytes * i + k)) ->
     __init__ d = Raise FloppyError) /\
  (forall f, __init__ d = Ok f ->
     data f = d /\
     forall i, 1 <= i < fat_count f0 ->
       Py.slice d (fat_start + fat_bytes * i) (fat_start + fat_bytes * i + fat_bytes)
       = Py.slice d fat_start (fat_start + fat_bytes)).
Proof.
  intros d f0 Hb Hboot fat_start fat_bytes.
  pose proof (boot_open_ok d f0 Hb Hboot) as B. destruct B.
  assert (Hfs : 0 <= fat_start) by (unfold fat_start; nia).
  split.
  - intros i k Hi Hk Hne. unfold __init__. rewrite Hboot. cbn [bind].
    unfold _fat_open. fold fat_start. fold fat_bytes.
    destruct (_ <? _); [reflexivity|]. destruct (_ || _); [reflexivity|].
    rewrite (fat_verify_mismatch _ _ _ _ _ i); [reflexivity | |].
    + apply range_In. lia.
    + intros Heq. apply Hne. rewrite bo_data0 in Heq.
      assert (Hk' : (Z.to_nat k < Z.to_nat (fat_start + fat_bytes - fat_start))%nat)
        by lia.
      pose proof (nth_error_slice d fat_start (fat_start + fat_bytes) (Z.to_nat k)
                    ltac:(lia) ltac:(lia) Hk') as N1.
      assert (Hk2 : (Z.to_nat k < Z.to_nat (fat_start + fat_bytes * i + fat_bytes
                                           - (fat_start + fat_bytes * i)))%nat) by lia.
      pose proof (nth_error_slice d (fat_start + fat_bytes * i)
                    (fat_start + fat_bytes * i + fat_bytes) (Z.to_nat k)
                    ltac:(nia) ltac:(nia) Hk2) as N2.
      rewrite Heq in N1. rewrite N1 in N2.
      replace (Z.to_nat (fat_start + k)) with (Z.to_nat fat_start + Z.to_nat k)%nat
        by lia.
      replace (Z.to_nat (fat_start + fat_bytes * i + k))
        with (Z.to_nat (fat_start + fat_bytes * i) + Z.to_nat k)%nat by nia.
      exact N2.
  - intros f Hf. split; [apply init_data; exact Hf|].
    intros i Hi. unfold __init__ in Hf. rewrite Hboot in Hf. cbn [bind] in Hf.
    unfold _fat_open in Hf. fold fat_start in Hf. fold fat_bytes in Hf.
    case_if Hf H1; [discriminate|]. case_if Hf H2; [discriminate|].
    inv_bind Hf. destruct x. rewrite bo_data0 in E.
    apply (fat_verify_ok _ _ _ _ _ E). apply range_In. lia.
Qed.

Lemma bytes_okb_ok (d : list Z) : bytes_okb d = true -> bytes_ok d.
Proof.
  unfold bytes_okb, bytes_ok. rewrite forallb_forall, Forall_forall.
  intros H x Hx. specialize (H x Hx). apply andb_prop in H. destruct H as [H1 H2].
  apply Z.leb_le in H1. apply Z.ltb_lt in H2. lia.
Qed.

Definition small_boot : Floppy :=
  mkFloppy small_floppy 128 1 1 2 4 32 1 4 2 0 "" 384 512 30 [].

(** The small image with one byte of its second FAT changed. *)
Definition small_bad_fat : list Z := Py.slice_assign small_floppy 260 261 [0x01].

Lemma fat_copies_checked_on_load_witness :
  bytes_ok small_bad_fat /\
  _boot_open small_bad_fat
    = Ok (mkFloppy small_bad_fat 128 1 1 2 4 32 1 4 2 0 "" 384 512 30 []) /\
  __init__ small_bad_fat = Raise FloppyError.
Proof.
  assert (Hb : bytes_ok small_bad_fat) by (apply bytes_okb_ok; vm_compute; reflexivity).
  assert (Ho : _boot_open small_bad_fat
    = Ok (mkFloppy small_bad_fat 128 1 1 2 4 32 1 4 2 0 "" 384 512 30 []))
    by (vm_compute; reflexivity).
  split; [exact Hb|]. split; [exact Ho|].
  apply (proj1 (fat_copies_checked_on_load small_bad_fat _ Hb Ho) 1 4).
  - simpl. lia.
  - simpl. lia.
  - vm_compute. discriminate.
Defined.

(** ** Loading: which exception each format check raises *)

Lemma fat_open_fields (f f' : Floppy) : _fat_open f = Ok f' ->
  f' = set_fat f (fat f').
Proof.
  unfold _fat_open. intros H.
  case_if H H1; [discriminate|]. case_if H H2; [discriminate|].
  inv_bind H. inv_bind H. inversion H. reflexivity.
Qed.

(** No image results unless the four format conditions hold. *)
Lemma init_ok_format (d : list Z) (f : Floppy) :
  bytes_ok d -> __init__ d = Ok f ->
  38 < Py.len d /\ sectors f * sector_size f <= Py.len d /\ heads f = 2 /\
  cluster2 f = sector_size f * track_sects f.
Proof.
  intros Hb H. unfold __init__ in H. inv_bind H.
  apply boot_open_ok in E; [|exact Hb]. destruct E.
  apply fat_open_fields in H. rewrite H. simpl. auto.
Qed.

Lemma init_short_buffer (d : list Z) :
  Py.len d < 38 -> __init__ d = Raise PyNameError.
Proof.
  intros H. unfold __init__, _boot_open.
  destruct (Z.ltb_spec (Py.len d) 38); [reflexivity | lia].
Qed.

(** C9, at the failing inputs. The blank image with its heads field set to 1,
    or with a track size that leaves the root short of the track boundary,
    does not load, but the exception is the AttributeError of [self.error],
    not the Floppy error; its first 37 bytes alone raise the NameError of
    [len(data)]. Only a buffer shorter than the declared sectors raises the
    Floppy error. *)
Theorem init_format_check_exceptions :
  __init__ (Py.slice_assign blank_floppy 26 27 [1]) = Raise PyAttributeError /\
  __init__ (Py.slice_assign blank_floppy 24 25 [10]) = Raise PyAttributeError /\
  __init__ (Py.slice blank_floppy 0 37) = Raise PyNameError /\
  __init__ (Py.slice blank_floppy 0 1000) = Raise FloppyError.
Proof.
  split; [|split; [|split]]; vm_compute; reflexivity.
Qed.

(** ** 8.3 names: where a name that does not fit is refused *)

Lemma encode_ascii (s : string) : is_ascii s = true ->
  exists b, Str.encode s = Ok b /\ Py.len b = Str.len s /\
            b = map Str.code (list_ascii_of_string s).
Proof.
  induction s as [|c t IH]; simpl; intros H.
  - exists []. auto.
  - apply andb_prop in H. destruct H as [Hc Ht].
    destruct (IH Ht) as (b & E & L & M).
    apply Z.ltb_lt in Hc. destruct (Z.leb_spec 128 (Str.code c)); [lia|].
    rewrite E. cbn [bind]. exists (Str.code c :: b). repeat split.
    + unfold Py.len, Str.len in *. simpl List.length. simpl String.length. lia.
    + rewrite M. reflexivity.
Qed.

Lemma encode_not_ascii (s : string) : is_ascii s = false ->
  Str.encode s = Raise PyUnicodeError.
Proof.
  induction s as [|c t IH]; simpl; intros H; [discriminate|].
  destruct (Z.leb_spec 128 (Str.code c)); [reflexivity|].
  destruct (Z.ltb_spec (Str.code c) 128); [|lia]. simpl in H.
  rewrite (IH H). reflexivity.
Qed.

Lemma is_ascii_take (n : nat) (s : string) :
  is_ascii s = true -> is_ascii (Str.take n s) = true.
Proof.
  revert s. induction n as [|n IH]; intros [|c t] H; simpl; auto.
  simpl in H. apply andb_prop in H. destruct H as [Hc Ht].
  rewrite Hc. simpl. auto.
Qed.

Lemma is_ascii_drop (n : nat) (s : string) :
  is_ascii s = true -> is_ascii (Str.drop n s) = true.
Proof.
  revert s. induction n as [|n IH]; intros [|c t] H; simpl; auto.
  simpl in H. apply andb_prop in H. destruct H as [Hc Ht]. auto.
Qed.

Lemma is_ascii_base (s : string) : is_ascii s = true -> is_ascii (name_base s) = true.
Proof.
  intros H. unfold name_base. destruct (0 <=? Str.find "." s); [|exact H].
  apply is_ascii_take, H.
Qed.

Lemma is_ascii_ext (s : string) : is_ascii s = true -> is_ascii (name_ext s) = true.
Proof.
  intros H. unfold name_ext. destruct (0 <=? Str.find "." s); [|reflexivity].
  apply is_ascii_drop, H.
Qed.

Lemma filestring_ascii (s : string) (n : Z) : is_ascii s = true ->
  _filestring s n =
  if Str.len s <=? n
  then Ok (map Str.code (list_ascii_of_string s)
           ++ repeat 0x20 (Z.to_nat (n - Str.len s)))
  else Raise PyNameError.
Proof.
  intros H. unfold _filestring. destruct (encode_ascii s H) as (b & E & L & M).
  rewrite E. cbn [bind]. rewrite <- M.
  assert (Hl : Py.len (b ++ repeat 32 (Z.to_nat (n - Py.len b)))
               = Py.len b + Z.of_nat (Z.to_nat (n - Py.len b))).
  { unfold Py.len. rewrite length_app, repeat_length. lia. }
  rewrite Hl, L. destruct (Z.leb_spec (Str.len s) n).
  - destruct (Z.eqb_spec (Str.len s + Z.of_nat (Z.to_nat (n - Str.len s))) n);
      [reflexivity | lia].
  - destruct (Z.eqb_spec (Str.len s + Z.of_nat (Z.to_nat (n - Str.len s))) n);
      [lia | reflexivity].
Qed.

Lemma filestring_not_ascii (s : string) (n : Z) : is_ascii s = false ->
  _filestring s n = Raise PyUnicodeError.
Proof. intros H. unfold _filestring. rewrite (encode_not_ascii s H). reflexivity. Qed.

Lemma init_default_ok : exists e, FileEntry.init_default = Ok e /\
  FileEntry.data e = EMPTY :: repeat 0 31.
Proof. eexists. split; [vm_compute; reflexivity | reflexivity]. Qed.

Lemma code_bound (c : ascii) : 0 <= Str.code c < 256.
Proof.
  unfold Str.code. pose proof (N_ascii_bounded c). lia.
Qed.

(** The incipit [set_name] computes for an ASCII name of at most 12
    characters: its first byte, or a space when it is empty. *)
Definition incipit_of (s : string) : Z :=
  match s with
  | EmptyString => 0x20
  | String c _ => Str.code c
  end.

Lemma set_name_ascii (e : FileEntry.t) (s : string) : is_ascii s = true ->
  FileEntry.set_name e s =
  if Str.len s <=? 12
  then Ok (FileEntry.mk (FileEntry.data e) s (incipit_of s) (FileEntry.attributes e)
             (FileEntry.write_time e) (FileEntry.write_date e) (FileEntry.cluster e)
             (FileEntry.size e) (FileEntry.dir_cluster e) (FileEntry.dir_index e))
  else Raise PyNameError.
Proof.
  intros H. unfold FileEntry.set_name. rewrite (filestring_ascii s 12 H).
  destruct (Z.leb_spec (Str.len s) 12); [|reflexivity]. cbn [bind].
  destruct s as [|c t]; [reflexivity|].
  simpl list_ascii_of_string. simpl map. simpl app.
  unfold Py.index. simpl. reflexivity.
Qed.

(** Serialising an entry with an ASCII name whose first part is longer than 8
    or whose extension is longer than 3 raises the NameError. *)
Lemma compile_name_error (e : FileEntry.t) :
  is_ascii (FileEntry.path e) = true ->
  FileEntry.incipit e <> 0x00 -> FileEntry.incipit e <> 0xEF ->
  8 < Str.len (name_base (FileEntry.path e))
  \/ 3 < Str.len (name_ext (FileEntry.path e)) ->
  FileEntry.compile e = Raise PyNameError.
Proof.
  intros Ha H0 HE Hlong. unfold FileEntry.compile.
  fold (name_base (FileEntry.path e)). fold (name_ext (FileEntry.path e)).
  destruct (Z.eqb_spec (FileEntry.incipit e) 0); [contradiction|].
  destruct (Z.eqb_spec (FileEntry.incipit e) 0xEF); [contradiction|].
  cbn [negb andb].
  rewrite (filestring_ascii _ 8 (is_ascii_base _ Ha)).
  rewrite (filestring_ascii _ 3 (is_ascii_ext _ Ha)).
  destruct (Z.leb_spec (Str.len (name_base (FileEntry.path e))) 8);
    [|reflexivity].
  destruct (Z.leb_spec (Str.len (name_ext (FileEntry.path e))) 3); [lia|].
  reflexivity.
Qed.

Lemma new_entry_ascii (now : Z * Z) (s : string) (a : Z) (e0 : FileEntry.t) :
  is_ascii s = true ->
  (e <- FileEntry.set_name e0 s ;;
   Ok (FileEntry.set_attributes (FileEntry.set_now now e) a)) =
  if Str.len s <=? 12
  then Ok (FileEntry.mk (FileEntry.data e0) s (incipit_of s) a (snd now) (fst now)
             (FileEntry.cluster e0) (FileEntry.size e0)
             (FileEntry.dir_cluster e0) (FileEntry.dir_index e0))
  else Raise PyNameError.
Proof.
  intros H. rewrite (set_name_ascii e0 s H).
  destruct (Str.len s <=? 12); reflexivity.
Qed.

Lemma incipit_plain (s : string) :
  is_ascii s = true -> starts_plain s = true ->
  incipit_of s <> 0x00 /\ incipit_of s <> 0xEF.
Proof.
  destruct s as [|c t]; simpl; intros Ha Hp; [split; discriminate|].
  apply andb_prop in Ha. destruct Ha as [Hc _]. apply Z.ltb_lt in Hc.
  apply negb_true_iff, Z.eqb_neq in Hp. split; [exact Hp | lia].
Qed.

Lemma not_decomposable_long (s : string) :
  is_ascii s = true -> decomposable s = false ->
  8 < Str.len (name_base s) \/ 3 < Str.len (name_ext s).
Proof.
  intros Ha Hd. unfold decomposable in Hd. rewrite Ha in Hd. simpl in Hd.
  destruct (Z.leb_spec (Str.len (name_base s)) 8); [|lia].
  destruct (Z.leb_spec (Str.len (name_ext s)) 3); [discriminate | lia].
Qed.

(** C10, as amended. A name that is not at most 8 ASCII characters, a period
    and at most 3 ASCII characters, and does not start with NUL, is refused:
    a name that is not ASCII by the UnicodeEncodeError of [encode], when the
    entry is made; an ASCII name longer than 12 characters by the NameError,
    when the entry is made; any other by the NameError when the entry, once
    made, is serialised by [compile]. *)
Theorem name_not_representable : forall (now : Z * Z) (s : string),
  decomposable s = false -> starts_plain s = true ->
  (is_ascii s = false ->
     FileEntry.new_file now s = Raise PyUnicodeError /\
     FileEntry.new_dir now s = Raise PyUnicodeError) /\
  (is_ascii s = true -> 12 < Str.len s ->
     FileEntry.new_file now s = Raise PyNameError /\
     FileEntry.new_dir now s = Raise PyNameError) /\
  (is_ascii s = true -> Str.len s <= 12 ->
     exists e d, FileEntry.new_file now s = Ok e /\ FileEntry.new_dir now s = Ok d /\
       FileEntry.path e = s /\ FileEntry.path d = s /\
       forall e', FileEntry.path e' = s ->
         FileEntry.incipit e' = FileEntry.incipit e ->
         FileEntry.compile e' = Raise PyNameError).
Proof.
  intros now s Hd Hp. destruct init_default_ok as (e0 & E0 & _).
  unfold FileEntry.new_file, FileEntry.new_dir. rewrite E0. cbn [bind].
  split; [|split].
  - intros Ha. unfold FileEntry.set_name.
    rewrite (filestring_not_ascii s 12 Ha). auto.
  - intros Ha Hl. rewrite !(new_entry_ascii now s _ e0 Ha).
    destruct (Z.leb_spec (Str.len s) 12); [lia|]. auto.
  - intros Ha Hl. rewrite !(new_entry_ascii now s _ e0 Ha).
    destruct (Z.leb_spec (Str.len s) 12); [|lia].
    eexists. eexists. split; [reflexivity|]. split; [reflexivity|]. simpl.
    split; [reflexivity|]. split; [reflexivity|].
    intros e' He' Hi. destruct (incipit_plain s Ha Hp) as [I0 IE].
    apply compile_name_error; rewrite ?He', ?Hi; auto.
    apply not_decomposable_long; assumption.
Qed.

Lemma name_not_representable_witness :
  decomposable "LONGFILENAME" = false /\ starts_plain "LONGFILENAME" = true /\
  exists e, FileEntry.new_file (0, 0) "LONGFILENAME" = Ok e /\
            FileEntry.compile e = Raise PyNameError.
Proof.
  split; [reflexivity|]. split; [reflexivity|].
  destruct (name_not_representable (0, 0) "LONGFILENAME" eq_refl eq_refl)
    as (_ & _ & H).
  destruct (H eq_refl ltac:(vm_compute; discriminate)) as (e & d & E1 & _ & P & _ & C).
  exists e. split; [exact E1|]. apply C; [exact P | reflexivity].
Defined.

(** C10, as stated, fails: a 9-character name makes an entry without any
    error (the NameError only comes when the entry is serialised), and a name
    with a character outside ASCII raises UnicodeEncodeError, not NameError. *)
Lemma name_error_counterexample :
  decomposable "ABCDEFGHI" = false /\
  (exists e, FileEntry.new_file (0, 0) "ABCDEFGHI" = Ok e) /\
  decomposable (String (ascii_of_nat 233) "") = false /\
  FileEntry.new_file (0, 0) (String (ascii_of_nat 233) "") = Raise PyUnicodeError.
Proof.
  split; [reflexivity|]. split; [eexists; vm_compute; reflexivity|].
  split; reflexivity.
Qed.

(** ** The side-1-first order *)

Lemma geom_gap (f : Floppy) : geom_ok f ->
  0 <= cside f /\ cside f <= cdual f - cside f /\ 1 <= cdual f - cside f.
Proof.
  intros (Hc & Ht & Hd). unfold cside, cdual.
  pose proof (Z.div_mod (track_sects f) (cluster_sects f) ltac:(lia)) as D1.
  pose proof (Z.mod_pos_bound (track_sects f) (cluster_sects f) Hc) as B1.
  pose proof (Z.div_mod (track_sects f * 2) (cluster_sects f) ltac:(lia)) as D2.
  pose proof (Z.mod_pos_bound (track_sects f * 2) (cluster_sects f) Hc) as B2.
  set (q1 := track_sects f / cluster_sects f) in *.
  set (q2 := track_sects f * 2 / cluster_sects f) in *.
  assert (0 <= q1) by (apply Z.div_pos; lia).
  assert (1 <= q2) by (apply Z.div_le_lower_bound; lia).
  split; [lia|]. assert (2 * q1 <= q2) by nia. lia.
Qed.

Lemma side_order_pure (f : Floppy) (i : Z) : geom_ok f -> 2 <= i ->
  side_order f i = Ok (i - 2, csplit f, position f (i - 2)).
Proof.
  intros G Hi. pose proof (geom_gap f G) as (G1 & G2 & G3).
  destruct G as (Hc & Ht & Hd). unfold side_order, Py.floordiv, Py.modulo.
  destruct (Z.eqb_spec (cluster_sects f) 0); [lia|]. cbn [bind].
  destruct (Z.eqb_spec (track_sects f * 2) 0); [lia|]. cbn [bind].
  fold (cside f). fold (tcount f). fold (csplit f). fold (cdual f).
  unfold position. destruct (Z.ltb_spec (i - 2) (csplit f)) as [Hl|Hl].
  - destruct (Z.eqb_spec (cside f) 0) as [E|E].
    + exfalso. unfold csplit in Hl. rewrite E in Hl. lia.
    + reflexivity.
  - destruct (Z.eqb_spec (cdual f - cside f) 0); [lia|]. reflexivity.
Qed.

(** A position splits into a track and a place within the double track;
    the place tells the side, and with the track it gives [l] back. *)
Lemma position_decomp (f : Floppy) (l : Z) : geom_ok f -> 0 <= l ->
  exists q r, position f l = cdual f * q + r + 2 /\ 0 <= q /\ 0 <= r < cdual f /\
    (l < csplit f -> cdual f - cside f <= r /\
                     l = cside f * q + (r - (cdual f - cside f))) /\
    (csplit f <= l -> r < cdual f - cside f /\
                      l - csplit f = (cdual f - cside f) * q + r).
Proof.
  intros G Hl. pose proof (geom_gap f G) as (G1 & G2 & G3).
  unfold position. destruct (Z.ltb_spec l (csplit f)) as [H|H].
  - assert (Hs : 0 < cside f).
    { destruct (Z.eq_dec (cside f) 0) as [E|E]; [|lia].
      unfold csplit in H. rewrite E in H. lia. }
    exists (l / cside f), (cdual f - cside f + l mod cside f).
    pose proof (Z.div_mod l (cside f) ltac:(lia)).
    pose proof (Z.mod_pos_bound l (cside f) Hs).
    assert (0 <= l / cside f) by (apply Z.div_pos; lia).
    repeat split; try lia.
  - set (m := cdual f - cside f) in *.
    exists ((l - csplit f) / m), ((l - csplit f) mod m).
    pose proof (Z.div_mod (l - csplit f) m ltac:(lia)).
    pose proof (Z.mod_pos_bound (l - csplit f) m ltac:(lia)).
    assert (0 <= (l - csplit f) / m) by (apply Z.div_pos; lia).
    repeat split; try lia.
Qed.

Lemma position_inj (f : Floppy) (l1 l2 : Z) : geom_ok f -> 0 <= l1 -> 0 <= l2 ->
  position f l1 = position f l2 -> l1 = l2.
Proof.
  intros G H1 H2 E. pose proof (geom_gap f G) as (G1 & G2 & G3).
  destruct (position_decomp f l1 G H1) as (q1 & r1 & P1 & Q1 & R1 & A1 & B1).
  destruct (position_decomp f l2 G H2) as (q2 & r2 & P2 & Q2 & R2 & A2 & B2).
  assert (U : q1 = q2 /\ r1 = r2).
  { apply (Z.div_mod_unique (cdual f)); try lia. }
  destruct U as [-> ->].
  destruct (Z.lt_ge_cases l1 (csplit f)) as [C1|C1];
    destruct (Z.lt_ge_cases l2 (csplit f)) as [C2|C2];
    try specialize (A1 C1); try specialize (A2 C2);
    try specialize (B1 C1); try specialize (B2 C2); lia.
Qed.

Lemma position_ge2 (f : Floppy) (l : Z) : geom_ok f -> 0 <= l -> 2 <= position f l.
Proof.
  intros G H. destruct (position_decomp f l G H) as (q & r & P & Q & R & _).
  pose proof (geom_gap f G). nia.
Qed.

(** A side-1 position is never below its own place in the order. *)
Lemma position_side1_ge (f : Floppy) (l : Z) : geom_ok f -> 0 <= l ->
  l < csplit f -> l + 2 <= position f l.
Proof.
  intros G H C. destruct (position_decomp f l G H) as (q & r & P & Q & R & A & _).
  specialize (A C). pose proof (geom_gap f G). nia.
Qed.

(** ** FAT entries *)

Lemma index_at (t : list Z) (j v : Z) : 0 <= j ->
  (Py.index t j = Ok v <-> fat_at t j = Some v).
Proof. apply index_nonneg. Qed.

Lemma index_at_some (t : list Z) (j v : Z) : 0 <= j ->
  fat_at t j = Some v -> Py.index t j = Ok v.
Proof. intros H. apply index_at. exact H. Qed.

Lemma fat_at_in_range (t : list Z) (j : Z) : 0 <= j < Py.len t ->
  exists v, fat_at t j = Some v.
Proof.
  intros H. unfold fat_at. destruct (nth_error t (Z.to_nat j)) eqn:E; [eauto|].
  apply nth_error_None in E. unfold Py.len in H. lia.
Qed.

Lemma fat_at_some_range (t : list Z) (j v : Z) : 0 <= j ->
  fat_at t j = Some v -> j < Py.len t.
Proof.
  intros H E. unfold fat_at in E.
  assert (nth_error t (Z.to_nat j) <> None) as N by congruence.
  apply nth_error_Some in N. unfold Py.len. lia.
Qed.

Lemma store_at (t : list Z) (j v : Z) (t' : list Z) : 0 <= j ->
  Py.store t j v = Ok t' ->
  Py.len t' = Py.len t /\ fat_at t' j = Some v /\
  (forall k, 0 <= k -> k <> j -> fat_at t' k = fat_at t k).
Proof.
  intros H S. apply store_nonneg in S; [|exact H]. apply update_spec in S.
  destruct S as (L & N & O). unfold Py.len, fat_at.
  split; [congruence|]. split; [exact N|]. intros k Hk Hne. apply O. lia.
Qed.

Lemma store_in_range (t : list Z) (j v : Z) : 0 <= j < Py.len t ->
  exists t', Py.store t j v = Ok t'.
Proof.
  intros H. destruct (update_some t (Z.to_nat j) v) as (t' & E).
  { unfold Py.len in H. lia. }
  exists t'. apply store_nonneg; [lia | exact E].
Qed.

(** ** close_side1 *)

Lemma count_of_cons (p : Z -> bool) (i : Z) (idx : list Z) :
  count_of p (i :: idx) = (if p i then 1 else 0) + count_of p idx.
Proof.
  unfold count_of, Py.len. simpl. destruct (p i); simpl List.length; lia.
Qed.

Lemma count_of_ext (p q : Z -> bool) (idx : list Z) :
  (forall i, In i idx -> p i = q i) -> count_of p idx = count_of q idx.
Proof.
  intros H. unfold count_of. f_equal. induction idx as [|a r IH]; [reflexivity|].
  simpl. rewrite (H a (or_introl eq_refl)).
  rewrite IH; [reflexivity|]. intros i Hi. apply H. right. exact Hi.
Qed.

Lemma ok_pair_eq {A : Type} (a : A) (x y : Z) :
  x = y -> @Ok (A * Z) (a, x) = Ok (a, y).
Proof. intros ->. reflexivity. Qed.

Section Reserve.

Variable f : Floppy.
Hypothesis G : geom_ok f.

(** The loop of _reserve_side1 with [reserve] set, over any indices that are
    distinct and whose positions are inside the FAT: it returns the count it
    started with, plus the free side-1 positions, minus the used side-2
    positions, and it has put the reserved sentinel on the free side-1
    positions and on nothing else. *)
Lemma reserve_loop_spec (idx : list Z) : forall (t : list Z) (count : Z),
  NoDup idx ->
  (forall i, In i idx -> 2 <= i /\ position f (i - 2) < Py.len t) ->
  exists t',
    reserve_loop f true idx t count
      = Ok (t', count + count_of (side1_free f t) idx - count_of (side2_used f t) idx)
    /\ Py.len t' = Py.len t
    /\ forall j, 0 <= j ->
         fat_at t' j = match fat_at t j with
                       | Some v => Some (if (v =? 0) && side1_at f idx j
                                         then 0xFF0 else v)
                       | None => None
                       end.
Proof.
  induction idx as [|i rest IH]; intros t count ND Hin.
  - exists t. simpl. split; [apply ok_pair_eq; unfold count_of; simpl; lia|].
    split; [reflexivity|]. intros j Hj. destruct (fat_at t j); [|reflexivity].
    rewrite andb_false_r. reflexivity.
  - inversion ND as [|? ? Hni ND']; subst.
    destruct (Hin i (or_introl eq_refl)) as (Hi & Hp).
    pose proof (position_ge2 f (i - 2) G ltac:(lia)) as Hp2.
    destruct (fat_at_in_range t (position f (i - 2)) ltac:(lia)) as (v & Ev).
    assert (Hrest : forall t1 : list Z, Py.len t1 = Py.len t ->
              forall k, In k rest -> 2 <= k /\ position f (k - 2) < Py.len t1).
    { intros t1 L k Hk. rewrite L. apply Hin. right. exact Hk. }
    assert (Hdiff : forall k, In k rest -> position f (k - 2) <> position f (i - 2)).
    { intros k Hk E. apply position_inj in E; auto.
      - assert (k = i) by lia. subst. contradiction.
      - destruct (Hin k (or_intror Hk)). lia.
      - lia. }
    cbn [reserve_loop]. rewrite (side_order_pure f i G Hi). cbn [bind].
    rewrite !count_of_cons. unfold side1_free at 1, side2_used at 1. rewrite Ev.
    destruct (Z.ltb_spec (i - 2) (csplit f)) as [Hl|Hl]; cbn [negb andb].
    + rewrite (index_at_some t (position f (i - 2)) v ltac:(lia) Ev). cbn [bind].
      destruct (Z.eqb_spec v 0) as [Hv|Hv].
      * destruct (store_in_range t (position f (i - 2)) 0xFF0 ltac:(lia))
          as (t1 & S1).
        rewrite S1. cbn [bind].
        apply store_at in S1; [|lia]. destruct S1 as (L1 & N1 & O1).
        destruct (IH t1 (count + 1) ND' (Hrest t1 L1)) as (t' & R & L' & P').
        exists t'. split; [|split; [congruence|]].
        -- rewrite R. apply ok_pair_eq.
           rewrite (count_of_ext (side1_free f t1) (side1_free f t) rest).
           ++ rewrite (count_of_ext (side2_used f t1) (side2_used f t) rest); [lia|].
              intros k Hk. unfold side2_used. rewrite O1; auto.
              destruct (Hin k (or_intror Hk)).
              pose proof (position_ge2 f (k - 2) G ltac:(lia)). lia.
           ++ intros k Hk. unfold side1_free. rewrite O1; auto.
              destruct (Hin k (or_intror Hk)).
              pose proof (position_ge2 f (k - 2) G ltac:(lia)). lia.
        -- intros j Hj. rewrite (P' j Hj). cbn [side1_at existsb].
           destruct (Z.ltb_spec (i - 2) (csplit f)); [|lia]. cbn [andb].
           destruct (Z.eqb_spec (position f (i - 2)) j) as [Ej|Ej].
           ++ subst j. rewrite N1, Ev. subst v. reflexivity.
           ++ rewrite O1 by auto. cbn [orb]. reflexivity.
      * destruct (IH t count ND' (Hrest t eq_refl)) as (t' & R & L' & P').
        exists t'. split; [|split; [congruence|]].
        -- rewrite R. apply ok_pair_eq. lia.
        -- intros j Hj. rewrite (P' j Hj). cbn [side1_at existsb].
           destruct (Z.ltb_spec (i - 2) (csplit f)); [|lia]. cbn [andb].
           destruct (Z.eqb_spec (position f (i - 2)) j) as [Ej|Ej].
           ++ subst j. rewrite Ev. destruct (Z.eqb_spec v 0); [contradiction|].
              reflexivity.
           ++ cbn [orb]. reflexivity.
    + rewrite (index_at_some t (position f (i - 2)) v ltac:(lia) Ev). cbn [bind].
      destruct (IH t (count - 1) ND' (Hrest t eq_refl)) as (t1 & R1 & L1 & P1).
      destruct (IH t count ND' (Hrest t eq_refl)) as (t0 & R0 & L0 & P0).
      assert (Hside : forall j, side1_at f (i :: rest) j = side1_at f rest j).
      { intros j. cbn [side1_at existsb].
        destruct (Z.ltb_spec (i - 2) (csplit f)); [lia|]. reflexivity. }
      destruct (Z.eqb_spec v 0) as [Hv|Hv]; cbn [negb].
      * exists t0. split; [|split; [congruence|]].
        -- rewrite R0. apply ok_pair_eq. lia.
        -- intros j Hj. rewrite (P0 j Hj), Hside. reflexivity.
      * exists t1. split; [|split; [congruence|]].
        -- rewrite R1. apply ok_pair_eq. lia.
        -- intros j Hj. rewrite (P1 j Hj), Hside. reflexivity.
Qed.

End Reserve.

(** ** The allocator: which clusters _add_chain takes *)

Lemma len_app1 (l : list Z) (x : Z) : Py.len (l ++ [x]) = Py.len l + 1.
Proof. unfold Py.len. rewrite length_app. simpl. lia. Qed.

Lemma len_nonneg {A : Type} (l : list A) : 0 <= Py.len l.
Proof. unfold Py.len. lia. Qed.

(** The loop of _add_chain appends, to the chain it has, the first free
    clusters of the side-1-first order, as many as are still wanted. *)
Lemma find_chain_spec (f : Floppy) (n : Z) : geom_ok f ->
  forall (idx chain0 : list Z),
  fat_covers f idx -> Py.len chain0 < n ->
  find_chain f n idx chain0
  = Ok (chain0 ++ firstn (Z.to_nat (n - Py.len chain0)) (candidates f idx)).
Proof.
  intros G. induction idx as [|i rest IH]; intros chain0 Hc Hn.
  - simpl. unfold candidates. simpl. rewrite firstn_nil, app_nil_r. reflexivity.
  - destruct (Hc i (or_introl eq_refl)) as (Hi & Hr).
    assert (Hc' : fat_covers f rest).
    { intros k Hk. apply Hc. right. exact Hk. }
    pose proof (position_ge2 f (i - 2) G ltac:(lia)) as Hp2.
    cbn [find_chain]. rewrite (side_order_pure f i G Hi). cbn [bind].
    unfold candidates. cbn [map filter]. fold (candidates f rest).
    unfold is_free at 1.
    destruct (Z.leb_spec (cluster_limit f) (position f (i - 2))) as [Hl|Hl].
    + destruct (Z.ltb_spec (position f (i - 2)) (cluster_limit f)); [lia|].
      cbn [andb]. apply IH; assumption.
    + destruct (Z.ltb_spec (position f (i - 2)) (cluster_limit f)); [|lia].
      cbn [andb].
      destruct (fat_at_in_range (fat f) (position f (i - 2)) ltac:(lia)) as (v & Ev).
      rewrite (index_at_some (fat f) (position f (i - 2)) v ltac:(lia) Ev).
      rewrite Ev. cbn [bind].
      destruct (Z.eqb_spec v 0) as [Hv|Hv].
      * rewrite len_app1. pose proof (len_nonneg chain0).
        replace (Z.to_nat (n - Py.len chain0))
          with (S (Z.to_nat (n - (Py.len chain0 + 1)))) by lia.
        cbn [firstn].
        destruct (Z.leb_spec n (Py.len chain0 + 1)).
        -- replace (Z.to_nat (n - (Py.len chain0 + 1))) with 0%nat by lia.
           reflexivity.
        -- rewrite IH; [|assumption | rewrite len_app1; lia].
           rewrite len_app1, <- app_assoc. reflexivity.
      * destruct (Z.leb_spec n (Py.len chain0)); [lia|]. apply IH; assumption.
Qed.

Lemma candidates_sound (f : Floppy) (idx : list Z) (j : Z) :
  In j (candidates f idx) ->
  exists i, In i idx /\ j = position f (i - 2) /\ j < cluster_limit f /\
            fat_at (fat f) j = Some 0.
Proof.
  unfold candidates. intros H. apply filter_In in H. destruct H as (Hm & Hf).
  apply in_map_iff in Hm. destruct Hm as (i & <- & Hi).
  exists i. split; [exact Hi|]. split; [reflexivity|].
  unfold is_free in Hf. apply andb_prop in Hf. destruct Hf as (H1 & H2).
  apply Z.ltb_lt in H1. split; [exact H1|].
  destruct (fat_at (fat f) (position f (i - 2))) as [v|]; [|discriminate].
  apply Z.eqb_eq in H2. subst. reflexivity.
Qed.

Lemma range_In_inv (a b x : Z) : In x (range a b) -> a <= x < b.
Proof.
  unfold range. intros H. apply in_map_iff in H. destruct H as (k & <- & Hk).
  apply in_seq in Hk. lia.
Qed.

Lemma range_NoDup (a b : Z) : NoDup (range a b).
Proof.
  unfold range. apply Injective_map_NoDup; [|apply seq_NoDup].
  intros x y H. lia.
Qed.

Lemma In_firstn {A : Type} (n : nat) (l : list A) (x : A) :
  In x (firstn n l) -> In x l.
Proof.
  intros H. rewrite <- (firstn_skipn n l). apply in_or_app. left. exact H.
Qed.

Lemma In_skipn {A : Type} (n : nat) (l : list A) (x : A) :
  In x (skipn n l) -> In x l.
Proof.
  intros H. rewrite <- (firstn_skipn n l). apply in_or_app. right. exact H.
Qed.

Lemma forallb_range (p : Z -> bool) (a b : Z) :
  forallb p (range a b) = true -> forall i, a <= i < b -> p i = true.
Proof.
  intros H i Hi. rewrite forallb_forall in H. apply H. apply range_In. exact Hi.
Qed.

Lemma small_loads : __init__ small_floppy = Ok small.
Proof. vm_compute. reflexivity. Qed.

Lemma small_geom : geom_ok small.
Proof. unfold geom_ok. simpl. lia. Qed.

(** C4, as amended. close_side1 puts the reserved sentinel 0xFF0 on every
    free side-1 cluster and on nothing else, so that the loop of _add_chain
    afterwards only ever takes side-2 clusters; with K free side-1 clusters
    and M used side-2 clusters it reserves the K and returns K - M: K when
    side 2 is unused, and a negative count when side 1 is full and side 2 in
    use. *)
Theorem close_side1_spec : forall (f : Floppy),
  geom_ok f ->
  cluster_limit f <= Py.len (fat f) ->
  (forall i, 2 <= i < cluster_limit f -> position f (i - 2) < Py.len (fat f)) ->
  let idx := range 2 (cluster_limit f) in
  let K := count_of (side1_free f (fat f)) idx in
  let M := count_of (side2_used f (fat f)) idx in
  exists t',
    close_side1 f = Ok (set_fat f t', K - M) /\
    Py.len t' = Py.len (fat f) /\
    (forall j, 0 <= j ->
       fat_at t' j = match fat_at (fat f) j with
                     | Some v => Some (if (v =? 0) && side1_at f idx j
                                       then 0xFF0 else v)
                     | None => None
                     end) /\
    (forall n, 0 < n ->
       exists chain,
         find_chain (set_fat f t') n (range 2 (Py.len t')) [] = Ok chain /\
         forall j, In j chain -> exists l, csplit f <= l /\ j = position f l).
Proof.
  intros f G H1 H2 idx K M.
  destruct (reserve_loop_spec f G idx (fat f) 0 (range_NoDup _ _)) as (t' & R & L & P).
  { intros i Hi. apply range_In_inv in Hi. split; [lia|]. apply H2. lia. }
  exists t'. unfold close_side1, _reserve_side1. fold idx. rewrite R. cbn [bind].
  split; [reflexivity|]. split; [exact L|]. split; [exact P|].
  intros n Hn. set (f' := set_fat f t').
  assert (G' : geom_ok f') by exact G.
  assert (C' : fat_covers f' (range 2 (Py.len t'))).
  { intros i Hi. apply range_In_inv in Hi. split; [lia|].
    change (cluster_limit f') with (cluster_limit f).
    change (position f' (i - 2)) with (position f (i - 2)).
    change (fat f') with t'. lia. }
  eexists. split.
  - apply (find_chain_spec f' n G' _ [] C'). simpl. exact Hn.
  - intros j Hj. simpl in Hj. apply In_firstn in Hj.
    apply candidates_sound in Hj. destruct Hj as (i & Hi & Ej & Hlim & Hz).
    apply range_In_inv in Hi.
    change (position f' (i - 2)) with (position f (i - 2)) in Ej.
    change (cluster_limit f') with (cluster_limit f) in Hlim.
    change (fat f') with t' in Hz.
    exists (i - 2). split; [|exact Ej].
    destruct (Z.lt_ge_cases (i - 2) (csplit f)) as [Hs|Hs]; [exfalso|exact Hs].
    pose proof (position_side1_ge f (i - 2) G ltac:(lia) Hs) as Hge.
    pose proof (position_ge2 f (i - 2) G ltac:(lia)) as Hp2.
    rewrite P in Hz by lia.
    destruct (fat_at (fat f) j) as [v|]; [|discriminate].
    assert (Hside : side1_at f idx j = true).
    { unfold side1_at. apply existsb_exists. exists i. split.
      - apply range_In. lia.
      - apply andb_true_intro. split; [apply Z.ltb_lt; exact Hs|].
        apply Z.eqb_eq. symmetry. exact Ej. }
    rewrite Hside, andb_true_r in Hz.
    destruct (Z.eqb_spec v 0); inversion Hz; lia.
Qed.

Lemma close_side1_spec_witness :
  geom_ok small /\ cluster_limit small <= Py.len (fat small) /\
  exists t', close_side1 small = Ok (set_fat small t', 12) /\
             fat_at t' 6 = Some 0xFF0 /\ fat_at t' 2 = Some 0.
Proof.
  split; [exact small_geom|]. split; [vm_compute; discriminate|].
  destruct (close_side1_spec small small_geom) as (t' & E & L & P & _).
  - vm_compute. discriminate.
  - intros i Hi.
    assert (T : forallb (fun i => position small (i - 2) <? Py.len (fat small))
                  (range 2 (cluster_limit small)) = true)
      by (vm_compute; reflexivity).
    apply Z.ltb_lt. apply (forallb_range _ _ _ T i Hi).
  - exists t'. split; [exact E|]. split.
    + rewrite (P 6 ltac:(lia)). vm_compute. reflexivity.
    + rewrite (P 2 ltac:(lia)). vm_compute. reflexivity.
Defined.

(** C4, as stated, fails: the blank image with cluster 2 in use has 316 free
    side-1 clusters, close_side1 reserves all 316, and returns 315. *)
Lemma close_side1_counterexample :
  match __init__ blank_used2 with
  | Ok f =>
      match close_side1 f with
      | Ok (f', c) =>
          count_of (side1_free f (fat f)) (range 2 (cluster_limit f)) = 316 /\
          newly_reserved (fat f) (fat f') = 316 /\ c = 315
      | _ => False
      end
  | _ => False
  end.
Proof. vm_compute. split; [|split]; reflexivity. Qed.

(** ** The allocator on a fresh image *)



Section Fresh.

Variable f0 : Floppy.
Hypothesis G : geom_ok f0.
Hypothesis Hcs : 0 < sector_size f0 * cluster_sects f0.
Hypothesis Hlim : cluster_limit f0 <= Py.len (fat f0).









End Fresh.

Lemma range_nth (a b : Z) (k : nat) (x : Z) :
  nth_error (range a b) k = Some x -> x = a + Z.of_nat k /\ a + Z.of_nat k < b.
Proof.
  unfold range. intros H. rewrite nth_error_map in H.
  destruct (nth_error (seq 0 (Z.to_nat (b - a))) k) as [m|] eqn:E; [|discriminate].
  simpl in H. inversion H; subst; clear H.
  assert (Hk : (k < Z.to_nat (b - a))%nat).
  { assert (nth_error (seq 0 (Z.to_nat (b - a))) k <> None) as N by congruence.
    apply nth_error_Some in N. rewrite length_seq in N. exact N. }
  rewrite nth_error_seq in E.
  destruct (Nat.ltb_spec k (Z.to_nat (b - a))); [|lia].
  inversion E; subst. lia.
Qed.

(** ** The blank image *)

Lemma blank_boot :
  _boot_open blank_floppy
  = Ok (mkFloppy blank_floppy 512 2 1 2 32 1440 3 9 2 0 "" 3584 4608 717 []).
Proof.
  assert (L : Py.len blank_floppy = 786432) by (vm_compute; reflexivity).
  assert (B : Py.slice blank_floppy 11 28
              = [0; 2; 2; 1; 0; 2; 32; 0; 160; 5; 249; 3; 0; 9; 0; 2; 0])
    by (vm_compute; reflexivity).
  assert (I : Py.index blank_floppy 38 = Ok 0x4E) by (vm_compute; reflexivity).
  unfold _boot_open. rewrite L, B, I. reflexivity.
Qed.

Lemma blank_loads : __init__ blank_floppy = Ok blank_state.
Proof.
  unfold __init__. rewrite blank_boot. cbn [bind]. unfold _fat_open.
  cbn [data sector_size reserved_sects fat_sects fat_count sectors].
  assert (V : fat_verify blank_floppy (1 * 512) (3 * 512) (1 * 512 + 3 * 512)
                (range 1 2) = Ok tt) by (vm_compute; reflexivity).
  assert (U : fat_unpack blank_floppy (1 * 512) (1 * 512 + 3 * 512) = Ok blank_fat)
    by (vm_compute; reflexivity).
  rewrite V, U. reflexivity.
Qed.







(** ** Every operation keeps the geometry and the length of the FAT *)

Ltac step H :=
  lazymatch type of H with
  | bind _ _ = Ok _ =>
      let a := fresh "x" in
      let Ha := fresh "E" in
      apply bind_ok in H; destruct H as (a & Ha & H); cbv beta in H
  | (if ?c then _ else _) = Ok _ =>
      let Hc := fresh "C" in destruct c eqn:Hc
  | (let '(_, _) := ?p in _) = Ok _ => destruct p
  | match ?p with | (_, _) => _ end = Ok _ => destruct p
  | match ?p with | Some _ => _ | None => _ end = Ok _ =>
      let Hp := fresh "O" in destruct p eqn:Hp
  | Ok _ = Ok _ => inversion H; subst; clear H
  | Raise _ = Ok _ => discriminate H
  | OutOfFuel = Ok _ => discriminate H
  end.

Lemma same_geom_refl (f : Floppy) : same_geom f f.
Proof. exists (fat f), (data f). destruct f. split; reflexivity. Qed.

Lemma same_geom_trans (f g h : Floppy) : same_geom f g -> same_geom g h -> same_geom f h.
Proof.
  intros (t & d & -> & L) (t' & d' & -> & L'). exists t', d'.
  split; [destruct f; reflexivity|]. simpl in L'. congruence.
Qed.

Lemma same_geom_data (f : Floppy) (d : list Z) : same_geom f (set_data f d).
Proof. exists (fat f), d. destruct f. split; reflexivity. Qed.

Lemma same_geom_fat (f : Floppy) (t : list Z) :
  Py.len t = Py.len (fat f) -> same_geom f (set_fat f t).
Proof. intros L. exists t, (data f). destruct f. split; [reflexivity | exact L]. Qed.

Lemma same_geom_fields (f f' : Floppy) : same_geom f f' ->
  sector_size f' = sector_size f /\ cluster_sects f' = cluster_sects f /\
  track_sects f' = track_sects f /\ sectors f' = sectors f /\
  cluster_limit f' = cluster_limit f /\ root f' = root f /\
  cluster2 f' = cluster2 f /\ root_max f' = root_max f /\
  Py.len (fat f') = Py.len (fat f).
Proof. intros (t & d & -> & L). simpl. repeat split; auto. Qed.


Lemma store_len (t : list Z) (j v : Z) (t' : list Z) :
  Py.store t j v = Ok t' -> Py.len t' = Py.len t.
Proof.
  unfold Py.store. intros H. destruct (_ <? 0) in H; [discriminate|].
  destruct (Py.update t _ v) eqn:E; [|discriminate]. inversion H; subst.
  apply update_spec in E. unfold Py.len. destruct E as (L & _). congruence.
Qed.

Ltac lens :=
  repeat match goal with
  | H : Py.store _ _ _ = Ok _ |- _ => apply store_len in H
  end;
  congruence.

Lemma delete_chain_loop_len (fuel : nat) : forall (t : list Z) (c : Z) (t' : list Z),
  delete_chain_loop fuel t c = Ok t' -> Py.len t' = Py.len t.
Proof.
  induction fuel as [|k IH]; intros t c t' H; simpl in H; [discriminate|].
  step H; [|step H; reflexivity]. step H. step H.
  apply IH in H. apply store_len in E0. congruence.
Qed.

Lemma delete_chain_geom (f : Floppy) (c : Z) (f' : Floppy) :
  _delete_chain f c = Ok f' -> same_geom f f'.
Proof.
  unfold _delete_chain. intros H. step H. step H.
  apply same_geom_fat. eapply delete_chain_loop_len; eauto.
Qed.

Lemma delete_file_geom (f : Floppy) (e : FileEntry.t) (f' : Floppy) :
  delete_file f e = Ok f' -> same_geom f f'.
Proof.
  unfold delete_file. intros H. step H. step H. step H. step H.
  eapply same_geom_trans; [eapply delete_chain_geom; eauto|].
  apply same_geom_data.
Qed.

Lemma delete_scan_geom (rec : Floppy -> FileEntry.t -> result Floppy)
  (directory : list Z) (cluster : Z) :
  (forall f e f', rec f e = Ok f' -> same_geom f f') ->
  forall idx f f', delete_scan rec f directory cluster idx = Ok f' -> same_geom f f'.
Proof.
  intros Hrec. induction idx as [|i rest IH]; intros f f' H; simpl in H.
  - step H. apply same_geom_refl.
  - step H. step H; [step H; apply same_geom_refl|].
    step H; [eauto|]. step H; [eauto|]. step H.
    + step H; [eauto|]. step H. step H.
      eapply same_geom_trans; [eapply Hrec; eauto|].
      eapply same_geom_trans; [eapply delete_file_geom; eauto|]. eauto.
    + step H. eapply same_geom_trans; [eapply delete_file_geom; eauto|]. eauto.
Qed.

Lemma delete_tree_geom (fuel : nat) : forall f e f',
  delete_tree_rec fuel f e = Ok f' -> same_geom f f'.
Proof.
  induction fuel as [|k IH]; intros f e f' H; simpl in H; [discriminate|].
  step H. eapply delete_scan_geom; eauto.
Qed.

Lemma delete_path_geom (f : Floppy) (path : string) (f' : Floppy) (b : bool) :
  delete_path f path = Ok (f', b) -> same_geom f f'.
Proof.
  unfold delete_path. intros H. step H. step H.
  - step H. step H. step H.
    eapply same_geom_trans; [|eapply delete_file_geom; eauto].
    step E0; [eapply delete_tree_geom; eauto|]. step E0. apply same_geom_refl.
  - step H. apply same_geom_refl.
Qed.

Lemma link_chain_len (chain : list Z) : forall t t',
  link_chain t chain = Ok t' -> Py.len t' = Py.len t.
Proof.
  induction chain as [|a [|b r] IH]; intros t t' H; simpl in H;
    try (step H; reflexivity).
  step H. apply IH in H. lens.
Qed.

Lemma add_chain_geom (f : Floppy) (d : list Z) (f' : Floppy) (c : Z) :
  _add_chain f d = Ok (f', c) -> same_geom f f'.
Proof.
  unfold _add_chain. intros H. step H. step H. step H; [step H; apply same_geom_refl|].
  step H. step H. step H. step H. step H. step H.
  eexists. eexists. split; [destruct f; reflexivity|].
  match goal with L : link_chain _ _ = Ok _ |- _ => apply link_chain_len in L end.
  lens.
Qed.

Ltac steps :=
  repeat match goal with
  | H : _ = Ok _ |- _ => step H
  end.

(** Walks back from the state in the goal through the calls that made it. *)
Ltac geom :=
  repeat match goal with
  | |- same_geom ?f ?f => apply same_geom_refl
  | |- same_geom ?f (set_data ?g _) =>
      apply (same_geom_trans f g); [|apply same_geom_data]
  | |- same_geom ?f (set_fat ?g _) =>
      apply (same_geom_trans f g); [|apply same_geom_fat; lens]
  | H : _delete_chain ?g _ = Ok ?h |- same_geom ?f ?h =>
      apply (same_geom_trans f g); [|exact (delete_chain_geom _ _ _ H)]
  | H : delete_file ?g _ = Ok ?h |- same_geom ?f ?h =>
      apply (same_geom_trans f g); [|exact (delete_file_geom _ _ _ H)]
  | H : _add_chain ?g _ = Ok (?h, _) |- same_geom ?f ?h =>
      apply (same_geom_trans f g); [|exact (add_chain_geom _ _ _ _ H)]
  end.

Lemma add_entry_geom (f : Floppy) (dc : Z) (e : FileEntry.t)
  (f' : Floppy) (e' : FileEntry.t) (b : bool) :
  _add_entry f dc e = Ok (f', e', b) -> same_geom f f'.
Proof.
  unfold _add_entry. intros H. steps; geom.
Qed.

Lemma add_dir_rec_geom (now : Z * Z) (fuel : nat) : forall f c path f' r,
  add_dir_rec now fuel f c path = Ok (f', r) -> same_geom f f'.
Proof.
  induction fuel as [|k IH]; intros f c path f' r H; simpl in H; [discriminate|].
  steps;
    repeat match goal with
    | H : add_dir_rec _ _ ?g _ _ = Ok (?h, _) |- same_geom ?f ?h =>
        apply (same_geom_trans f g); [|exact (IH _ _ _ _ _ H)]
    | H : _add_entry ?g _ _ = Ok (?h, _, _) |- same_geom ?f ?h =>
        apply (same_geom_trans f g); [|exact (add_entry_geom _ _ _ _ _ _ H)]
    | _ => progress geom
    end.
Qed.

Lemma add_dir_path_geom (now : Z * Z) (f : Floppy) (path : string) (f' : Floppy) (r : Z) :
  add_dir_path now f path = Ok (f', r) -> same_geom f f'.
Proof.
  unfold add_dir_path, _add_dir_recursive. intros H. step H.
  - step H. apply same_geom_refl.
  - eapply add_dir_rec_geom; eauto.
Qed.

Lemma add_file_path_geom (now : Z * Z) (f : Floppy) (path : string) (d : list Z)
  (f' : Floppy) (b : bool) :
  add_file_path now f path d = Ok (f', b) -> same_geom f f'.
Proof.
  unfold add_file_path. intros H. steps;
    repeat match goal with
    | H : delete_path ?g _ = Ok (?h, _) |- same_geom ?f ?h =>
        apply (same_geom_trans f g); [|exact (delete_path_geom _ _ _ _ H)]
    | H : add_dir_path _ ?g _ = Ok (?h, _) |- same_geom ?f ?h =>
        apply (same_geom_trans f g); [|exact (add_dir_path_geom _ _ _ _ _ H)]
    | H : _add_entry ?g _ _ = Ok (?h, _, _) |- same_geom ?f ?h =>
        apply (same_geom_trans f g); [|exact (add_entry_geom _ _ _ _ _ _ H)]
    | _ => progress geom
    end.
Qed.


(** ** Chains: what _add_chain links, _delete_chain unlinks *)

Lemma fat_ext (t t' : list Z) :
  (forall j, 0 <= j -> fat_at t j = fat_at t' j) -> t = t'.
Proof.
  intros H. apply nth_error_ext. intros n. specialize (H (Z.of_nat n) ltac:(lia)).
  unfold fat_at in H. rewrite Nat2Z.id in H. exact H.
Qed.

Lemma chain_link_in (chain : list Z) (j : Z) :
  chain_link chain j <> None <-> In j chain.
Proof.
  induction chain as [|a rest IH]; simpl; [tauto|].
  destruct (Z.eqb_spec a j) as [E|E].
  - split; [auto | discriminate].
  - rewrite IH. split; [auto | intros [H|H]; [contradiction | exact H]].
Qed.

Lemma chain_link_notin (chain : list Z) (j : Z) :
  ~ In j chain -> chain_link chain j = None.
Proof.
  intros H. destruct (chain_link chain j) eqn:E; [|reflexivity].
  exfalso. apply H. apply chain_link_in. congruence.
Qed.

(** The two loops of _add_chain that store the FAT chain. *)
Lemma link_chain_spec (chain : list Z) : forall (t : list Z),
  chain <> [] -> NoDup chain ->
  (forall c, In c chain -> 0 <= c < Py.len t) ->
  exists t1 final t',
    link_chain t chain = Ok t1 /\
    Py.index chain (Py.len chain - 1) = Ok final /\
    Py.store t1 final 0xFFF = Ok t' /\
    Py.len t' = Py.len t /\
    forall j, 0 <= j ->
      fat_at t' j = match chain_link chain j with
                    | Some v => Some v
                    | None => fat_at t j
                    end.
Proof.
  induction chain as [|a rest IH]; intros t Hne ND Hr; [contradiction|].
  inversion ND as [|? ? Hni ND']; subst.
  destruct (Hr a (or_introl eq_refl)) as (Ha0 & Ha1).
  destruct rest as [|b r].
  - destruct (store_in_range t a 0xFFF ltac:(lia)) as (t' & St).
    exists t, a, t'. split; [reflexivity|]. split; [reflexivity|].
    split; [exact St|]. apply store_at in St; [|lia]. destruct St as (L & N & O).
    split; [exact L|]. intros j Hj. simpl.
    destruct (Z.eqb_spec a j) as [->|E]; [exact N | apply O; auto].
  - destruct (store_in_range t a b ltac:(lia)) as (t0 & St).
    pose proof St as St'. apply store_at in St'; [|lia]. destruct St' as (L0 & N0 & O0).
    destruct (IH t0 ltac:(discriminate) ND') as (t1 & final & t' & E1 & E2 & E3 & L & P).
    { intros c Hc. rewrite L0. apply Hr. right. exact Hc. }
    exists t1, final, t'. split.
    { cbn [link_chain]. rewrite St. cbn [bind]. exact E1. }
    split.
    { assert (HL : Py.len (a :: b :: r) - 1 = Py.len (b :: r) - 1 + 1).
      { unfold Py.len. simpl List.length. lia. }
      rewrite HL. pose proof (len_nonneg r).
      assert (H1 : 0 <= Py.len (b :: r) - 1).
      { unfold Py.len. simpl List.length. lia. }
      apply index_nonneg in E2; [|lia]. apply index_nonneg; [lia|].
      replace (Z.to_nat (Py.len (b :: r) - 1 + 1))
        with (S (Z.to_nat (Py.len (b :: r) - 1))) by lia.
      exact E2. }
    split; [exact E3|]. split; [congruence|].
    intros j Hj. rewrite (P j Hj).
    change (chain_link (a :: b :: r) j)
      with (if a =? j then Some b else chain_link (b :: r) j).
    destruct (Z.eqb_spec a j) as [->|E].
    + rewrite (chain_link_notin (b :: r) j Hni). exact N0.
    + destruct (chain_link (b :: r) j); [reflexivity|]. apply O0; auto.
Qed.


Lemma NoDup_firstn {A : Type} (n : nat) (l : list A) : NoDup l -> NoDup (firstn n l).
Proof.
  intros H. rewrite <- (firstn_skipn n l) in H. eapply NoDup_app_remove_r; eauto.
Qed.

Lemma candidates_NoDup (f : Floppy) (a b : Z) : geom_ok f -> 2 <= a ->
  NoDup (candidates f (range a b)).
Proof.
  intros G Ha. unfold candidates. apply NoDup_filter.
  apply NoDup_map_NoDup_ForallPairs; [|apply range_NoDup].
  intros x y Hx Hy E. apply range_In_inv in Hx, Hy.
  apply position_inj in E; auto; lia.
Qed.

Lemma chain_for_props (f : Floppy) (d : list Z) :
  geom_ok f -> cluster_limit f <= Py.len (fat f) ->
  NoDup (chain_for f d) /\
  (List.length (chain_for f d) <= List.length (fat f))%nat /\
  forall c, In c (chain_for f d) ->
    2 <= c < cluster_limit f /\ fat_at (fat f) c = Some 0.
Proof.
  intros G Hlim. unfold chain_for. split; [|split].
  - apply NoDup_firstn, candidates_NoDup; [exact G | lia].
  - rewrite length_firstn. unfold candidates.
    pose proof (filter_length_le (is_free f)
                  (map (fun i => position f (i - 2)) (range 2 (Py.len (fat f))))) as Hf.
    unfold range in Hf at 2. rewrite !length_map, length_seq in Hf.
    assert (Z.to_nat (Py.len (fat f) - 2) <= List.length (fat f))%nat
      by (unfold Py.len; lia).
    lia.
  - intros c Hc. apply In_firstn in Hc. apply candidates_sound in Hc.
    destruct Hc as (i & Hi & -> & Hl & Hz). apply range_In_inv in Hi.
    pose proof (position_ge2 f (i - 2) G ltac:(lia)). auto.
Qed.

(** What a call of _add_chain does: nothing, returning -1, when the free
    clusters are too few; otherwise it links the first free clusters of the
    order into a chain, writes the data, and returns the head of the chain. *)
Lemma add_chain_spec (f : Floppy) (d : list Z) (f' : Floppy) (c : Z) :
  geom_ok f -> 0 < sector_size f * cluster_sects f ->
  cluster_limit f <= Py.len (fat f) ->
  _add_chain f d = Ok (f', c) ->
  (Py.len (chain_for f d) < clusters_for f d /\ f' = f /\ c = -1) \/
  (Py.len (chain_for f d) = clusters_for f d /\ chain_for f d <> [] /\
   c = hd 0 (chain_for f d) /\
   exists t' img,
     f' = set_data (set_fat f t') img /\
     Py.len t' = Py.len (fat f) /\
     (forall j, 0 <= j ->
        fat_at t' j = match chain_link (chain_for f d) j with
                      | Some v => Some v
                      | None => fat_at (fat f) j
                      end) /\
     write_chain (S (List.length d)) f d (data f) (chain_for f d) 0
       (sector_size f * cluster_sects f) = Ok img).
Proof.
  intros G Hcs Hlim H.
  destruct (chain_for_props f d G Hlim) as (ND & Hlen & Hin).
  assert (Hn : 1 <= clusters_for f d).
  { unfold clusters_for.
    match goal with |- context [?q <? 1] => destruct (Z.ltb_spec q 1); lia end. }
  unfold _add_chain in H. step H. apply floordiv_ok in E. destruct E as (_ & ->).
  fold (clusters_for f d) in H.
  rewrite (find_chain_spec f (clusters_for f d) G _ []) in H.
  2:{ intros k Hk. apply range_In_inv in Hk. split; lia. }
  2:{ change (Py.len (@nil Z)) with 0. lia. }
  change (Py.len (@nil Z)) with 0 in H. rewrite Z.sub_0_r in H. cbn [app bind] in H.
  fold (chain_for f d) in H.
  assert (Hle : Py.len (chain_for f d) <= clusters_for f d).
  { unfold chain_for, Py.len. rewrite length_firstn. lia. }
  step H.
  - step H. left. apply Z.ltb_lt in C. auto.
  - right. apply Z.ltb_ge in C. split; [lia|].
    assert (Hne : chain_for f d <> []).
    { intros E. rewrite E in C. change (Py.len (@nil Z)) with 0 in C. lia. }
    split; [exact Hne|].
    destruct (link_chain_spec (chain_for f d) (fat f) Hne ND)
      as (t1 & final & t' & E1 & E2 & E3 & L & P).
    { intros k Hk. destruct (Hin k Hk). lia. }
    rewrite E1, E2 in H. step H. cbn [bind] in H. rewrite E3 in H. cbn [bind] in H.
    step H. step H. split.
    + apply index_nonneg in E; [|lia]. destruct (chain_for f d); [discriminate|].
      simpl in E. inversion E. reflexivity.
    + exists t', x0. repeat split; auto.
Qed.


(** ** add_file_path that fails *)




(** ** Bytes of the image: what a slice assignment changes *)

Lemma slice_len {A : Type} (d : list A) (a n : Z) :
  0 <= a -> 0 <= n -> a + n <= Py.len d -> Py.len (Py.slice d a (a + n)) = n.
Proof.
  intros Ha Hn H. rewrite slice_nonneg by lia. unfold Py.len in *.
  rewrite length_firstn, length_skipn. lia.
Qed.

Lemma nth_error_slice_assign {A : Type} (d v : list A) (a : Z) (k : nat) :
  0 <= a -> a + Py.len v <= Py.len d ->
  nth_error (Py.slice_assign d a (a + Py.len v) v) k =
  if (Z.of_nat k <? a) || (a + Py.len v <=? Z.of_nat k)
  then nth_error d k else nth_error v (k - Z.to_nat a).
Proof.
  intros Ha H. pose proof (len_nonneg v) as Hv.
  rewrite slice_assign_nonneg by lia. unfold Py.len in *.
  rewrite nth_error_app. rewrite length_firstn.
  replace (Init.Nat.min (Z.to_nat a) (List.length d)) with (Z.to_nat a) by lia.
  destruct (Nat.ltb_spec k (Z.to_nat a)) as [H1|H1].
  - destruct (Z.ltb_spec (Z.of_nat k) a); [|lia]. simpl.
    rewrite nth_error_firstn. destruct (Nat.ltb_spec k (Z.to_nat a)); [reflexivity|lia].
  - destruct (Z.ltb_spec (Z.of_nat k) a); [lia|]. simpl.
    rewrite nth_error_app.
    destruct (Nat.ltb_spec (k - Z.to_nat a) (List.length v)) as [H2|H2].
    + destruct (Z.leb_spec (a + Z.of_nat (List.length v)) (Z.of_nat k)); [lia|].
      reflexivity.
    + destruct (Z.leb_spec (a + Z.of_nat (List.length v)) (Z.of_nat k)); [|lia].
      rewrite nth_error_skipn. f_equal. lia.
Qed.

Lemma slice_assign_len {A : Type} (d v : list A) (a : Z) :
  0 <= a -> a + Py.len v <= Py.len d ->
  Py.len (Py.slice_assign d a (a + Py.len v) v) = Py.len d.
Proof.
  intros Ha H. pose proof (len_nonneg v) as Hv.
  rewrite slice_assign_nonneg by lia. unfold Py.len in *.
  rewrite !length_app, length_firstn, length_skipn. lia.
Qed.

Lemma slice_ext {A : Type} (d d' : list A) (a n : Z) :
  0 <= a -> 0 <= n ->
  (forall k, a <= k < a + n -> nth_error d' (Z.to_nat k) = nth_error d (Z.to_nat k)) ->
  Py.slice d' a (a + n) = Py.slice d a (a + n).
Proof.
  intros Ha Hn H. rewrite !slice_nonneg by lia. apply nth_error_ext. intros k.
  rewrite !nth_error_firstn. destruct (Nat.ltb_spec k (Z.to_nat (a + n - a))); [|reflexivity].
  rewrite !nth_error_skipn.
  specialize (H (a + Z.of_nat k) ltac:(lia)).
  replace (Z.to_nat (a + Z.of_nat k)) with (Z.to_nat a + k)%nat in H by lia. exact H.
Qed.

(** A slice that the assignment does not overlap reads as before. *)
Lemma slice_assign_other {A : Type} (d v : list A) (a x n : Z) :
  0 <= a -> a + Py.len v <= Py.len d -> 0 <= x -> 0 <= n ->
  x + n <= a \/ a + Py.len v <= x ->
  Py.slice (Py.slice_assign d a (a + Py.len v) v) x (x + n) = Py.slice d x (x + n).
Proof.
  intros Ha H Hx Hn Hd. apply slice_ext; auto. intros k Hk.
  rewrite nth_error_slice_assign by lia. rewrite Z2Nat.id by lia.
  destruct (Z.ltb_spec k a); [reflexivity|].
  destruct (Z.leb_spec (a + Py.len v) k); [reflexivity|]. lia.
Qed.

(** The slice that was assigned reads as the value assigned. *)
Lemma slice_assign_same {A : Type} (d v : list A) (a : Z) :
  0 <= a -> a + Py.len v <= Py.len d ->
  Py.slice (Py.slice_assign d a (a + Py.len v) v) a (a + Py.len v) = v.
Proof.
  intros Ha H. pose proof (len_nonneg v) as Hv.
  rewrite slice_nonneg by lia. apply nth_error_ext. intros k.
  rewrite nth_error_firstn.
  destruct (Nat.ltb_spec k (Z.to_nat (a + Py.len v - a))) as [Hk|Hk].
  - rewrite nth_error_skipn, nth_error_slice_assign by lia.
    destruct (Z.ltb_spec (Z.of_nat (Z.to_nat a + k)) a); [lia|].
    destruct (Z.leb_spec (a + Py.len v) (Z.of_nat (Z.to_nat a + k))); [lia|].
    simpl. f_equal. lia.
  - symmetry. apply nth_error_None. unfold Py.len in *. lia.
Qed.


(** ** Data written along a chain reads back *)

Lemma slice_full {A : Type} (d : list A) : Py.slice d 0 (Py.len d) = d.
Proof.
  pose proof (len_nonneg d). rewrite slice_nonneg by lia. unfold Py.len. simpl.
  rewrite Z.sub_0_r, Nat2Z.id. apply firstn_all.
Qed.

Lemma slice_empty {A : Type} (d : list A) (a : Z) : 0 <= a -> Py.slice d a a = [].
Proof. intros H. rewrite slice_nonneg by lia. rewrite Z.sub_diag. reflexivity. Qed.

Lemma slice_split {A : Type} (d : list A) (n : Z) : 0 <= n <= Py.len d ->
  Py.slice d 0 n ++ Py.slice d n (Py.len d) = d.
Proof.
  intros H. rewrite !slice_nonneg by lia.
  rewrite (firstn_all2 (n := Z.to_nat (Py.len d - n)))
    by (rewrite length_skipn; unfold Py.len; lia).
  rewrite Z.sub_0_r. change (skipn (Z.to_nat 0) d) with d. apply firstn_skipn.
Qed.

Lemma slice_rest_len {A : Type} (d : list A) (n : Z) : 0 <= n <= Py.len d ->
  Py.len (Py.slice d n (Py.len d)) = Py.len d - n.
Proof.
  intros H. replace (Py.len d) with (n + (Py.len d - n)) at 1 by lia.
  apply slice_len; lia.
Qed.

Lemma holds_nil (f : Floppy) (img ch : list Z) : 0 < cluster_size f ->
  (forall c, In c ch -> 0 <= _cluster_offset f c) -> holds f img ch [].
Proof.
  intros Hcs. induction ch as [|c rest IH]; intros H; simpl; [reflexivity|].
  change (Py.len (@nil Z)) with 0. rewrite Z.min_l by lia.
  rewrite Z.add_0_r, !slice_empty by (try lia; apply H; left; reflexivity).
  split; [reflexivity|]. apply IH. intros; apply H; right; assumption.
Qed.

Lemma offset_data (f : Floppy) (c : Z) : 2 <= c ->
  _cluster_offset f c = cluster2 f + cluster_size f * (c - 2).
Proof.
  intros H. unfold _cluster_offset, cluster_size.
  destruct (Z.ltb_spec c 2); [lia | reflexivity].
Qed.

Lemma offsets_apart (f : Floppy) (c c' : Z) : 0 < cluster_size f ->
  2 <= c -> 2 <= c' -> c <> c' ->
  _cluster_offset f c + cluster_size f <= _cluster_offset f c' \/
  _cluster_offset f c' + cluster_size f <= _cluster_offset f c.
Proof. intros H A B N. rewrite !offset_data by lia. nia. Qed.

Lemma index_app_at {A : Type} (pre : list A) (c : A) (rest : list A) :
  Py.index (pre ++ c :: rest) (Py.len pre) = Ok c.
Proof.
  apply index_nonneg; [apply len_nonneg|]. unfold Py.len. rewrite Nat2Z.id.
  rewrite nth_error_app2 by lia. rewrite Nat.sub_diag. reflexivity.
Qed.

(** What the writing loop of _add_chain leaves in the image. *)
Lemma write_chain_spec (f : Floppy) (ch : list Z) :
  forall (pre d img : list Z) (fuel : nat) (img' : list Z),
  0 < cluster_size f -> 0 <= cluster2 f ->
  (forall c, In c ch -> 2 <= c /\ _cluster_offset f c + cluster_size f <= Py.len img) ->
  NoDup ch -> Py.len d <= cluster_size f * Py.len ch ->
  write_chain fuel f d img (pre ++ ch) (Py.len pre) (cluster_size f) = Ok img' ->
  Py.len img' = Py.len img /\ holds f img' ch d /\
  forall x n, 0 <= x -> 0 <= n ->
    (forall c, In c ch -> x + n <= _cluster_offset f c
                          \/ _cluster_offset f c + cluster_size f <= x) ->
    Py.slice img' x (x + n) = Py.slice img x (x + n).
Proof.
  induction ch as [|c rest IH]; intros pre d img fuel img' Hcs Hc2 Hin Hnd Hlen Hw.
  - pose proof (len_nonneg d). change (Py.len (@nil Z)) with 0 in Hlen.
    assert (d = []) by (destruct d; [reflexivity | unfold Py.len in *; simpl in *; lia]).
    subst d. destruct fuel; [discriminate|]. simpl in Hw. inversion Hw; subst.
    repeat split; auto.
  - destruct fuel as [|k]; [discriminate|]. cbn [write_chain] in Hw.
    assert (Hoff : forall c', In c' (c :: rest) -> 0 <= _cluster_offset f c').
    { intros c' Hc'. destruct (Hin c' Hc') as [G _]. rewrite offset_data by lia. nia. }
    destruct (Z.ltb_spec 0 (Py.len d)) as [Hd|Hd].
    + rewrite index_app_at in Hw. cbn [bind] in Hw.
      set (w := Z.min (Py.len d) (cluster_size f)) in *.
      assert (Hw0 : 0 < w <= cluster_size f /\ w <= Py.len d) by (unfold w; lia).
      set (off := _cluster_offset f c) in *.
      assert (Hsl : Py.len (Py.slice d 0 w) = w) by (apply (slice_len d 0 w); lia).
      destruct (Hin c (or_introl eq_refl)) as [Hc Hfit]. fold off in Hfit.
      assert (Hoc : 0 <= off) by (apply Hoff; left; reflexivity).
      replace (off + w) with (off + Py.len (Py.slice d 0 w)) in Hw by lia.
      replace (pre ++ c :: rest) with ((pre ++ [c]) ++ rest) in Hw
        by (rewrite <- app_assoc; reflexivity).
      replace (Py.len pre + 1) with (Py.len (pre ++ [c])) in Hw by apply len_app1.
      inversion Hnd as [|? ? Hnotin Hnd']; subst.
      apply IH in Hw; auto.
      * destruct Hw as (L & Hh & Hfr).
        rewrite slice_assign_len in L by lia.
        split; [exact L|]. split.
        -- cbn [holds]. fold w. fold off. split; [|exact Hh].
           rewrite Hfr; try lia.
           ++ pose proof (slice_assign_same img (Py.slice d 0 w) off Hoc ltac:(lia)) as E.
              rewrite Hsl in E |- *. exact E.
           ++ intros c' Hc'. destruct (Hin c' (or_intror Hc')) as [G _].
              assert (c <> c') by (intros ->; contradiction).
              destruct (offsets_apart f c c' Hcs Hc G H) as [H1|H1]; unfold off in *; lia.
        -- intros x n Hx Hn Hdis. rewrite Hfr; auto.
           ++ apply slice_assign_other; try lia.
              destruct (Hdis c (or_introl eq_refl)) as [H1|H1]; unfold off in *; [lia|].
              right. rewrite Hsl. lia.
           ++ intros c' Hc'. apply Hdis. right. exact Hc'.
      * intros c' Hc'. rewrite slice_assign_len by lia. apply Hin. right. exact Hc'.
      * rewrite slice_rest_len by lia.
        replace (Py.len (c :: rest)) with (Py.len rest + 1) in Hlen
          by (unfold Py.len; simpl List.length; lia).
        pose proof (len_nonneg rest).
        assert (0 <= cluster_size f * Py.len rest) by nia.
        unfold w. lia.
    + inversion Hw; subst. pose proof (len_nonneg d).
      assert (d = []) by (destruct d; [reflexivity | unfold Py.len in *; simpl in *; lia]).
      subst d. split; [reflexivity|]. split; [|auto].
      apply holds_nil; [exact Hcs | exact Hoff].
Qed.

(** Reading the chain of a file whose clusters hold [d] gives [d]. *)
Lemma read_chain_holds (f : Floppy) (ch : list Z) :
  forall (d : list Z) (fuel : nat) (acc : list Z),
  0 < cluster_size f -> ch <> [] -> linked (fat f) ch ->
  (forall c, In c ch -> 2 <= c < 0xFF0) ->
  holds f (data f) ch d -> Py.len d <= cluster_size f * Py.len ch ->
  Py.len d < Z.of_nat fuel ->
  read_chain_loop fuel f (hd 0 ch) (Py.len d) acc = Ok (acc ++ d).
Proof.
  induction ch as [|c rest IH]; intros d fuel acc Hcs Hne Hl Hr Hh Hlen Hf;
    [contradiction|].
  destruct fuel as [|k]; [pose proof (len_nonneg d); lia|].
  destruct (Hr c (or_introl eq_refl)) as [Hc2 Hcf].
  cbn [hd read_chain_loop].
  destruct (Z.ltb_spec c 0xFF0) as [_|?]; [|lia].
  destruct (Z.ltb_spec c 2) as [?|_]; [lia|].
  fold (cluster_size f). cbn [holds] in Hh. destruct Hh as [Hh1 Hh2].
  pose proof (len_nonneg d) as Hd0.
  rewrite Hh1.
  destruct (Z.ltb_spec (Py.len d - Z.min (Py.len d) (cluster_size f)) 1) as [Hs|Hs].
  - rewrite Z.min_l by lia. rewrite slice_full. reflexivity.
  - rewrite Z.min_r in * by lia.
    destruct rest as [|c' rest'].
    + change (Py.len [c]) with 1 in Hlen. lia.
    + cbn [linked] in Hl. destruct Hl as [Hl1 Hl2].
      rewrite (index_at_some (fat f) c c' ltac:(lia) Hl1). cbn [bind].
      assert (E : Py.len d - cluster_size f
                  = Py.len (Py.slice d (cluster_size f) (Py.len d)))
        by (rewrite slice_rest_len; lia).
      rewrite E. change c' with (hd 0 (c' :: rest')).
      rewrite IH; auto.
      * rewrite <- app_assoc, slice_split by lia. reflexivity.
      * discriminate.
      * intros x Hx. apply Hr. right. exact Hx.
      * rewrite <- E.
        replace (Py.len (c :: c' :: rest')) with (Py.len (c' :: rest') + 1) in Hlen
          by (unfold Py.len; simpl List.length; lia).
        lia.
      * lia.
Qed.




(** ** The slots of a directory *)

Lemma image_ok_facts (f : Floppy) : image_ok f = true ->
  geom_ok f /\ 64 <= cluster_size f /\ cluster_size f mod 32 = 0 /\
  0 <= root f /\ 0 <= root_max f /\ root f + root_max f * 32 <= cluster2 f /\
  2 <= cluster_limit f /\
  cluster2 f + cluster_size f * (cluster_limit f - 2) <= Py.len (data f) /\
  cluster_limit f <= Py.len (fat f) /\ cluster_limit f <= 0xFF0 /\
  2 * cluster_size f <= (sector_size f * sectors f) / cluster_sects f.
Proof.
  unfold image_ok, geom_ok. rewrite !andb_true_iff.
  rewrite !Z.ltb_lt, !Z.leb_le, Z.eqb_eq. tauto.
Qed.

Lemma image_ok_same (f f' : Floppy) : same_geom f f' ->
  Py.len (data f') = Py.len (data f) -> image_ok f = true -> image_ok f' = true.
Proof.
  intros (t & d & -> & L) Hd. unfold image_ok, cluster_size. simpl in *.
  rewrite Hd, L. auto.
Qed.




Lemma region_bounds (f : Floppy) (c : Z) : image_ok f = true ->
  c = 0 \/ 2 <= c < cluster_limit f ->
  0 <= _cluster_offset f c /\
  _cluster_offset f c + region_size f c <= Py.len (data f) /\
  0 <= region_size f c /\ region_size f c = 32 * (region_size f c / 32) /\
  cluster2 f <= Py.len (data f) /\
  (2 <= c -> root f + root_max f * 32 <= _cluster_offset f c).
Proof.
  intros I H. apply image_ok_facts in I.
  destruct I as (_ & Hcs & Hm & Hr & Hrm & Hre & Hl & Hd & _).
  assert (Hc2 : cluster2 f <= Py.len (data f)) by nia.
  destruct H as [->|H].
  - unfold _cluster_offset, region_size. change (0 <? 2) with true. cbv iota.
    rewrite Z.div_mul by lia. lia.
  - rewrite offset_data by lia. unfold region_size.
    destruct (Z.ltb_spec c 2); [lia|].
    pose proof (Z.div_mod (cluster_size f) 32 ltac:(lia)). nia.
Qed.


Lemma dir_regions (f : Floppy) (cl : Z) (ch : list Z) : dir_at f cl ch ->
  forall c, In c ch ->
    (c = 0 \/ 2 <= c < cluster_limit f) /\ region_size f c = region_size f cl.
Proof.
  intros [[-> ->]|(Hcl & Hhd & W)] c Hc.
  - destruct Hc as [<-|[]]. auto.
  - pose proof (wf_range _ _ _ W c Hc). split; [auto|]. unfold region_size.
    destruct (Z.ltb_spec c 2); destruct (Z.ltb_spec cl 2); lia || reflexivity.
Qed.

Lemma dir_nonempty (f : Floppy) (cl : Z) (ch : list Z) : dir_at f cl ch ->
  ch <> [] /\ hd 0 ch = cl /\ NoDup ch.
Proof.
  intros [[-> ->]|(Hcl & Hhd & W)].
  - split; [discriminate|]. split; [reflexivity|]. repeat constructor. intros [].
  - destruct W. auto.
Qed.



(** Where slot [i] lies: in the region [i / slots_per] of the directory. *)
Lemma slot_place (f : Floppy) (cl : Z) (ch : list Z) (i : Z) : image_ok f = true ->
  dir_at f cl ch -> 0 <= i < slots_per f cl * Py.len ch ->
  let c := nth (Z.to_nat (i / slots_per f cl)) ch 0 in
  0 < slots_per f cl /\ 0 <= i / slots_per f cl < Py.len ch /\
  0 <= i mod slots_per f cl < slots_per f cl /\
  In c ch /\ region_size f c = 32 * slots_per f cl /\
  _cluster_offset f c <= slot_offset f cl ch i /\
  slot_offset f cl ch i + 32 <= _cluster_offset f c + region_size f c /\
  0 <= slot_offset f cl ch i /\ slot_offset f cl ch i + 32 <= Py.len (data f).
Proof.
  intros I D Hi c. pose proof (len_nonneg ch) as Hl.
  assert (Hp : 0 < slots_per f cl) by nia.
  pose proof (Z.div_mod i (slots_per f cl) ltac:(lia)) as E.
  pose proof (Z.mod_pos_bound i (slots_per f cl) Hp) as M.
  assert (Hq : 0 <= i / slots_per f cl < Py.len ch).
  { split; [apply Z.div_pos; lia|]. apply Z.div_lt_upper_bound; lia. }
  assert (Hc : In c ch) by (apply nth_In; unfold Py.len in Hq; lia).
  destruct (dir_regions f cl ch D c Hc) as [Hr Hs].
  destruct (dir_nonempty f cl ch D) as (Hne & Hhd & _).
  assert (Hcl : In cl ch) by (destruct ch; [contradiction | left; exact Hhd]).
  destruct (dir_regions f cl ch D cl Hcl) as [Hrc _].
  destruct (region_bounds f cl I Hrc) as (_ & _ & _ & E32 & _).
  destruct (region_bounds f c I Hr) as (A & B & _).
  fold (slots_per f cl) in E32. unfold slot_offset. fold c.
  repeat split; try lia; try exact Hc.
Qed.




Lemma regions_apart (f : Floppy) (c c' : Z) : image_ok f = true ->
  c = 0 \/ 2 <= c < cluster_limit f -> c' = 0 \/ 2 <= c' < cluster_limit f ->
  c <> c' ->
  _cluster_offset f c + region_size f c <= _cluster_offset f c' \/
  _cluster_offset f c' + region_size f c' <= _cluster_offset f c.
Proof.
  intros I H H' N.
  destruct (region_bounds f c I H) as (_ & _ & _ & _ & _ & A).
  destruct (region_bounds f c' I H') as (_ & _ & _ & _ & _ & A').
  pose proof (image_ok_facts f I) as (_ & Hcs & _).
  destruct H as [->|H]; destruct H' as [->|H']; try lia.
  - left. unfold _cluster_offset at 1. unfold region_size at 1.
    change (0 <? 2) with true. cbv iota. apply A'. lia.
  - right. unfold _cluster_offset at 1. unfold region_size at 1.
    change (0 <? 2) with true. cbv iota. apply A. lia.
  - unfold region_size. destruct (Z.ltb_spec c 2); [lia|].
    destruct (Z.ltb_spec c' 2); [lia|].
    apply offsets_apart; lia.
Qed.

(** Two slots of a directory do not overlap. *)
Lemma slots_apart (f : Floppy) (cl : Z) (ch : list Z) (i j : Z) :
  image_ok f = true -> dir_at f cl ch ->
  0 <= i < slots_per f cl * Py.len ch -> 0 <= j < slots_per f cl * Py.len ch ->
  i <> j ->
  slot_offset f cl ch i + 32 <= slot_offset f cl ch j \/
  slot_offset f cl ch j + 32 <= slot_offset f cl ch i.
Proof.
  intros I D Hi Hj N.
  destruct (slot_place f cl ch i I D Hi) as (Hp & Hqi & Hmi & Hci & Hsi & Ai & Bi & _).
  destruct (slot_place f cl ch j I D Hj) as (_ & Hqj & Hmj & Hcj & Hsj & Aj & Bj & _).
  pose proof (Z.div_mod i (slots_per f cl) ltac:(lia)) as Ei.
  pose proof (Z.div_mod j (slots_per f cl) ltac:(lia)) as Ej.
  destruct (Z.eq_dec (i / slots_per f cl) (j / slots_per f cl)) as [E|E].
  - unfold slot_offset. rewrite E. 
    assert (i mod slots_per f cl <> j mod slots_per f cl) by (rewrite E in Ei; lia).
    lia.
  - destruct (dir_nonempty f cl ch D) as (_ & _ & Hnd).
    assert (Hne : nth (Z.to_nat (i / slots_per f cl)) ch 0
                  <> nth (Z.to_nat (j / slots_per f cl)) ch 0).
    { intros Heq. apply (proj1 (NoDup_nth ch 0) Hnd) in Heq;
        unfold Py.len in *; lia. }
    destruct (dir_regions f cl ch D _ Hci) as [Ri _].
    destruct (dir_regions f cl ch D _ Hcj) as [Rj _].
    destruct (regions_apart f _ _ I Ri Rj Hne); lia.
Qed.

(** ** Frames: what stays when the image changes elsewhere *)

Lemma same_geom_layout (f f' : Floppy) : same_geom f f' ->
  cluster_size f' = cluster_size f /\ cluster_limit f' = cluster_limit f /\
  dir_read_max f' = dir_read_max f /\
  (forall c, _cluster_offset f' c = _cluster_offset f c) /\
  (forall c, region_size f' c = region_size f c) /\
  (forall cl, slots_per f' cl = slots_per f cl) /\
  (forall cl ch i, slot_offset f' cl ch i = slot_offset f cl ch i) /\
  Py.len (fat f') = Py.len (fat f).
Proof.
  intros (t & d & -> & L). unfold cluster_size, dir_read_max, slot_offset, slots_per,
    region_size, _cluster_offset, cluster_size. simpl. auto 10.
Qed.

Lemma keeps_refl (f : Floppy) : keeps f f [].
Proof.
  split; [apply same_geom_refl|]. split; [reflexivity|].
  intros c _ _. split; auto.
Qed.

Lemma used_kept (f f' : Floppy) (c : Z) : same_geom f f' ->
  used f c -> kept f f' c -> used f' c.
Proof.
  intros G [->|(Hc & v & Hv & Hn)] [_ K]; [left; reflexivity|].
  right. destruct (same_geom_layout f f' G) as (_ & -> & _).
  split; [exact Hc|]. exists v. rewrite K by lia. auto.
Qed.

Lemma kept_trans (f f' f'' : Floppy) (c : Z) :
  kept f f' c -> kept f' f'' c -> kept f f'' c.
Proof.
  intros [A B] [A' B']. split; [congruence|]. intros H. rewrite B', B; auto.
Qed.

Lemma keeps_trans (f f' f'' : Floppy) (X Y : list Z) :
  keeps f f' X -> keeps f' f'' Y -> keeps f f'' (X ++ Y).
Proof.
  intros (G & L & K) (G' & L' & K').
  split; [eapply same_geom_trans; eauto|]. split; [congruence|].
  intros c U N. assert (kept f f' c) as K1.
  { apply K; auto. intros H; apply N, in_or_app; auto. }
  apply (kept_trans f f' f'' c K1). apply K'.
  - eapply used_kept; eauto.
  - intros H; apply N, in_or_app; auto.
Qed.

Lemma keeps_weaken (f f' : Floppy) (X Y : list Z) :
  keeps f f' X -> incl X Y -> keeps f f' Y.
Proof.
  intros (G & L & K) H. split; [exact G|]. split; [exact L|].
  intros c U N. apply K; auto.
Qed.

Lemma linked_in (t : list Z) (ch : list Z) (c : Z) : linked t ch -> In c ch ->
  exists v, fat_at t c = Some v /\ (0xFF0 <= v \/ In v ch).
Proof.
  induction ch as [|a rest IH]; intros L H; [destruct H|].
  destruct rest as [|b rest'].
  - destruct H as [<-|[]]. destruct L as (v & Hv & Hf). eauto.
  - destruct L as [L1 L2]. destruct H as [<-|H].
    + exists b. split; [exact L1|]. right. right. left. reflexivity.
    + destruct (IH L2 H) as (v & Hv & [Hf|Hi]); exists v; auto.
      split; [exact Hv|]. right. right. exact Hi.
Qed.

Lemma linked_ext (t t' : list Z) (ch : list Z) :
  (forall c, In c ch -> fat_at t' c = fat_at t c) -> linked t ch -> linked t' ch.
Proof.
  induction ch as [|a rest IH]; intros E L; [exact I|].
  destruct rest as [|b rest'].
  - destruct L as (v & Hv & Hf). exists v. rewrite E by (left; reflexivity). auto.
  - destruct L as [L1 L2]. split.
    + rewrite E by (left; reflexivity). exact L1.
    + apply IH; auto. intros c Hc. apply E. right. exact Hc.
Qed.

Lemma dir_used (f : Floppy) (cl : Z) (ch : list Z) : dir_at f cl ch ->
  forall c, In c ch -> used f c.
Proof.
  intros [[-> ->]|(Hcl & Hhd & W)] c Hc.
  - destruct Hc as [<-|[]]. left. reflexivity.
  - right. destruct W as [Wn Wd Wr Wl]. split; [apply Wr; exact Hc|].
    destruct (linked_in _ _ c Wl Hc) as (v & Hv & Hf). exists v. split; [exact Hv|].
    destruct Hf as [Hf|Hf]; [lia|]. specialize (Wr v Hf). lia.
Qed.

(** A directory whose regions are kept is the same directory with the same
    listing. *)
Lemma dir_kept (f f' : Floppy) (cl : Z) (ch : list Z) : same_geom f f' ->
  dir_at f cl ch -> (forall c, In c ch -> kept f f' c) ->
  dir_at f' cl ch /\ listing f' ch = listing f ch.
Proof.
  intros G D K. split.
  - destruct D as [D|(Hcl & Hhd & W)]; [left; exact D|]. right.
    split; [exact Hcl|]. split; [exact Hhd|].
    destruct (same_geom_layout f f' G) as (_ & -> & _).
    destruct W as [Wn Wd Wr Wl]. split; auto.
    apply (linked_ext (fat f)); auto. intros c Hc. apply K; auto.
    specialize (Wr c Hc). lia.
  - unfold listing. f_equal. apply map_ext_in. intros c Hc. apply K. exact Hc.
Qed.

Lemma keeps_dir (f f' : Floppy) (X : list Z) (cl : Z) (ch : list Z) :
  keeps f f' X -> dir_at f cl ch -> (forall c, In c ch -> ~ In c X) ->
  dir_at f' cl ch /\ listing f' ch = listing f ch.
Proof.
  intros (G & L & K) D N. apply dir_kept; auto.
  intros c Hc. apply K; auto. eapply dir_used; eauto.
Qed.

Lemma read_room_same (f f' : Floppy) (ch : list Z) : same_geom f f' ->
  read_room f ch -> read_room f' ch.
Proof.
  intros G [A B]. destruct (same_geom_layout f f' G) as (E1 & _ & E2 & _).
  unfold read_room. rewrite E1, E2. split; assumption.
Qed.

(** The walk along a path is the same when the regions it reads are kept. *)
Lemma resolves_kept (f f' : Floppy) (cl : Z) (comps : list string) (dc : Z)
  (F : list Z) :
  same_geom f f' -> resolves f cl comps dc F ->
  (forall c, In c F -> kept f f' c) -> resolves f' cl comps dc F.
Proof.
  intros G R. induction R as [cl|cl ch s rest m e dc F D Rm Hm Hh Ha R IH Hd];
    intros K; [constructor|].
  destruct (dir_kept f f' cl ch G D) as [D' L'].
  { intros c Hc. apply K, in_or_app. left. exact Hc. }
  destruct (same_geom_layout f f' G) as (_ & _ & _ & _ & _ & Hsp & _).
  econstructor; eauto.
  - eapply read_room_same; eauto.
  - rewrite Hsp. exact Hm.
  - rewrite L'. exact Hh.
  - apply IH. intros c Hc. apply K, in_or_app. right. exact Hc.
Qed.

(** ** The allocator: what it writes and what it leaves *)

Lemma linked_of_chain_link (t : list Z) (chain : list Z) : NoDup chain ->
  (forall j, In j chain -> fat_at t j = chain_link chain j) -> linked t chain.
Proof.
  induction chain as [|a rest IH]; intros ND H; [exact I|].
  inversion ND as [|? ? Hn ND']; subst.
  pose proof (H a (or_introl eq_refl)) as Ha. cbn [chain_link] in Ha.
  rewrite Z.eqb_refl in Ha.
  assert (Hrest : forall j, In j rest -> fat_at t j = chain_link rest j).
  { intros j Hj. rewrite (H j (or_intror Hj)). cbn [chain_link].
    destruct (Z.eqb_spec a j) as [->|_]; [contradiction | reflexivity]. }
  destruct rest as [|b rest'].
  - exists 0xFFF. split; [exact Ha | lia].
  - split; [exact Ha|]. apply IH; auto.
Qed.

Lemma clusters_cover (f : Floppy) (d : list Z) : 0 < cluster_size f ->
  Py.len d <= cluster_size f * clusters_for f d.
Proof.
  intros Hcs. unfold clusters_for. fold (cluster_size f).
  pose proof (Z.div_mod (Py.len d + cluster_size f - 1) (cluster_size f) ltac:(lia)).
  pose proof (Z.mod_pos_bound (Py.len d + cluster_size f - 1) (cluster_size f) Hcs).
  destruct (Z.ltb_spec ((Py.len d + cluster_size f - 1) / cluster_size f) 1); nia.
Qed.

(** What a successful call of _add_chain leaves: a well-formed chain of
    clusters that were free, holding the data, with every other FAT entry
    and every byte outside the chain's clusters as before. *)
Lemma add_chain_effect (f : Floppy) (d : list Z) (f' : Floppy) (c : Z) :
  image_ok f = true -> _add_chain f d = Ok (f', c) -> 0 <= c ->
  let ch := chain_for f d in
  same_geom f f' /\ Py.len (data f') = Py.len (data f) /\
  hd 0 ch = c /\ wf_chain (fat f') (cluster_limit f) ch /\
  (forall j, In j ch -> fat_at (fat f) j = Some 0) /\
  holds f (data f') ch d /\ Py.len d <= cluster_size f * Py.len ch /\
  (forall j, 0 <= j -> ~ In j ch -> fat_at (fat f') j = fat_at (fat f) j) /\
  (forall x n, 0 <= x -> 0 <= n ->
     (forall j, In j ch -> x + n <= _cluster_offset f j
                           \/ _cluster_offset f j + cluster_size f <= x) ->
     Py.slice (data f') x (x + n) = Py.slice (data f) x (x + n)).
Proof.
  intros I H Hc ch.
  pose proof (image_ok_facts f I) as (G & Hcs & _ & Hr & Hrm & Hre & Hl2 & Hd & Hlim & Hff & _).
  assert (Hcs0 : 0 < cluster_size f) by lia.
  destruct (chain_for_props f d G Hlim) as (ND & _ & Hin).
  destruct (add_chain_spec f d f' c G Hcs0 Hlim H)
    as [(_ & _ & ->)|(Hn & Hne & Hhd & t' & img & -> & Lt & Pt & W)]; [lia|].
  fold ch in Hn, Hne, Hhd, Pt, W, ND, Hin. fold (cluster_size f) in W.
  destruct (write_chain_spec f ch [] d (data f) (S (List.length d)) img Hcs0 ltac:(lia))
    as (Li & Hh & Hfr); auto.
  { intros j Hj. destruct (Hin j Hj) as [Hj2 _]. split; [lia|].
    destruct (region_bounds f j I (or_intror Hj2)) as (_ & B & _).
    unfold region_size in B. destruct (Z.ltb_spec j 2); [lia | exact B]. }
  { rewrite Hn. apply clusters_cover. exact Hcs0. }
  split.
  { exists t', img. auto. }
  split; [exact Li|]. split; [symmetry; exact Hhd|]. split.
  { split; auto.
    - intros j Hj. apply Hin. exact Hj.
    - cbn [fat set_data set_fat]. apply linked_of_chain_link; auto.
      intros j Hj. destruct (Hin j Hj) as [Hj2 _]. rewrite Pt by lia.
      destruct (chain_link ch j) eqn:E; [reflexivity|].
      exfalso. apply chain_link_in in Hj. contradiction. }
  split; [intros j Hj; apply Hin; exact Hj|].
  split; [exact Hh|]. split; [rewrite Hn; apply clusters_cover; exact Hcs0|].
  split.
  - intros j Hj Hni. cbn [fat set_data set_fat]. rewrite Pt by lia.
    rewrite chain_link_notin by exact Hni. reflexivity.
  - exact Hfr.
Qed.

Lemma holds_same (f f' : Floppy) (img ch : list Z) : forall d,
  cluster_size f' = cluster_size f ->
  (forall c, _cluster_offset f' c = _cluster_offset f c) ->
  holds f img ch d -> holds f' img ch d.
Proof.
  induction ch as [|a rest IH]; intros d Ecs Eoff Hh; [exact Hh|].
  cbn [holds] in *. rewrite Ecs, Eoff. destruct Hh as [A B]. split; [exact A|].
  apply IH; auto.
Qed.

(** X1 (_add_chain, _read_chain): data stored by the allocator reads back.
    When _add_chain stores the bytes [d] and returns the start cluster [c]
    (not the failure value -1), reading [len d] bytes from the chain that
    starts at [c] gives exactly [d]; this holds for the empty data too. *)
Theorem add_chain_read_back : forall (f : Floppy) (d : list Z) (f' : Floppy) (c : Z),
  image_ok f = true -> _add_chain f d = Ok (f', c) -> 0 <= c ->
  _read_chain f' c (Py.len d) = Ok d.
Proof.
  intros f d f' c I H Hc.
  destruct (add_chain_effect f d f' c I H Hc) as (G & _ & Hhd & W & _ & Hh & Hlen & _).
  pose proof (image_ok_facts f I) as (_ & Hcs & _ & _ & _ & _ & _ & _ & _ & Hff & _).
  destruct (same_geom_layout f f' G) as (Ecs & _ & _ & Eoff & _).
  destruct W as [Wn Wd Wr Wl].
  unfold _read_chain. rewrite <- Hhd.
  change (Ok d) with (Ok ([] ++ d)).
  apply read_chain_holds; auto; try (rewrite Ecs; lia).
  - intros j Hj. specialize (Wr j Hj). lia.
  - apply (holds_same f f'); auto.
  - pose proof (len_nonneg d). lia.
Qed.

Lemma add_chain_read_back_witness :
  image_ok small = true /\
  exists f' c, _add_chain small [1; 2; 3] = Ok (f', c) /\ 0 <= c /\
               _read_chain f' c 3 = Ok [1; 2; 3].
Proof.
  split; [vm_compute; reflexivity|].
  destruct (_add_chain small [1; 2; 3]) as [[f' c]| |] eqn:E;
    try (exfalso; vm_compute in E; discriminate).
  assert (Hc : 0 <= c).
  { assert (X : match _add_chain small [1; 2; 3] with
                | Ok (_, c) => 0 <=? c | _ => false end = true)
      by (vm_compute; reflexivity).
    rewrite E in X. apply Z.leb_le. exact X. }
  exists f', c. split; [reflexivity|]. split; [exact Hc|].
  apply (add_chain_read_back small [1; 2; 3] f' c); [vm_compute; reflexivity | exact E | exact Hc].
Defined.

Lemma add_chain_cases (f : Floppy) (d : list Z) (f' : Floppy) (c : Z) :
  image_ok f = true -> _add_chain f d = Ok (f', c) ->
  (Py.len (chain_for f d) < clusters_for f d /\ f' = f /\ c = -1) \/
  (Py.len (chain_for f d) = clusters_for f d /\ 2 <= c < cluster_limit f).
Proof.
  intros I H.
  pose proof (image_ok_facts f I) as (G & Hcs & _ & _ & _ & _ & _ & _ & Hlim & _).
  destruct (chain_for_props f d G Hlim) as (_ & _ & Hin).
  destruct (add_chain_spec f d f' c G ltac:(unfold cluster_size in Hcs; lia) Hlim H)
    as [A|(Hn & Hne & Hhd & _)]; [left; exact A|].
  right. split; [exact Hn|]. subst c. apply Hin.
  destruct (chain_for f d); [contradiction | left; reflexivity].
Qed.

Lemma add_chain_keeps (f : Floppy) (d : list Z) (f' : Floppy) (c : Z) :
  image_ok f = true -> _add_chain f d = Ok (f', c) -> keeps f f' [].
Proof.
  intros I H.
  destruct (add_chain_cases f d f' c I H) as [(_ & -> & _)|(_ & Hc)];
    [apply keeps_refl|].
  destruct (add_chain_effect f d f' c I H ltac:(lia))
    as (G & L & _ & _ & Hfree & _ & _ & Hfat & Hfr).
  split; [exact G|]. split; [exact L|]. intros j U _.
  destruct (same_geom_layout f f' G) as (_ & _ & _ & Eoff & Ers & _).
  assert (Hj : j = 0 \/ 2 <= j < cluster_limit f) by (destruct U as [->|[? _]]; auto).
  assert (Hni : ~ In j (chain_for f d)).
  { intros Hi. specialize (Hfree j Hi). destruct U as [->|(_ & v & Hv & Hn)].
    - destruct (chain_for_props f d) as (_ & _ & P).
      + apply image_ok_facts; exact I.
      + apply image_ok_facts in I. tauto.
      + specialize (P 0 Hi). lia.
    - congruence. }
  destruct (region_bounds f j I Hj) as (A & B & C & _).
  split.
  - unfold region. rewrite Eoff, Ers. apply Hfr; auto.
    intros k Hk. destruct (chain_for_props f d) as (_ & _ & P).
    + apply image_ok_facts; exact I.
    + apply image_ok_facts in I. tauto.
    + destruct (P k Hk) as [Hk2 _].
      assert (j <> k) by (intros ->; contradiction).
      destruct (regions_apart f j k I Hj (or_intror Hk2) H0) as [X|X].
      * left. exact X.
      * right. unfold region_size in X. destruct (Z.ltb_spec k 2); [lia | exact X].
  - intros Hj2. apply Hfat; [lia | exact Hni].
Qed.

(** X2 (_add_chain): the allocator never touches what is in use. Whatever
    _add_chain returns, the image keeps its length, every byte before the
    first cluster (boot sector, FAT copies, root directory) is as before, and
    every cluster whose FAT entry was not 0 keeps its FAT entry and its
    bytes. *)
Theorem add_chain_frame : forall (f : Floppy) (d : list Z) (f' : Floppy) (c : Z),
  image_ok f = true -> _add_chain f d = Ok (f', c) ->
  Py.len (data f') = Py.len (data f) /\
  (forall x n, 0 <= x -> 0 <= n -> x + n <= cluster2 f ->
     Py.slice (data f') x (x + n) = Py.slice (data f) x (x + n)) /\
  (forall j v, 2 <= j < cluster_limit f -> fat_at (fat f) j = Some v -> v <> 0 ->
     fat_at (fat f') j = Some v /\ region f' j = region f j).
Proof.
  intros f d f' c I H. pose proof (add_chain_keeps f d f' c I H) as (G & L & K).
  split; [exact L|]. split.
  - intros x n Hx Hn Hxn.
    destruct (add_chain_cases f d f' c I H) as [(_ & -> & _)|(_ & Hc)]; [reflexivity|].
    destruct (add_chain_effect f d f' c I H ltac:(lia))
      as (_ & _ & _ & W & _ & _ & _ & _ & Hfr).
    apply Hfr; auto. intros j Hj. left.
    destruct (wf_range _ _ _ W j Hj). rewrite offset_data by lia.
    apply image_ok_facts in I. nia.
  - intros j v Hj Hv Hn. destruct (K j) as [A B].
    + right. split; [exact Hj|]. exists v. auto.
    + intros [].
    + split; [rewrite B by lia; exact Hv | exact A].
Qed.

Lemma add_chain_frame_witness :
  image_ok small = true /\
  exists f' c, _add_chain small [1; 2; 3] = Ok (f', c) /\
               Py.len (data f') = Py.len (data small).
Proof.
  split; [vm_compute; reflexivity|].
  destruct (_add_chain small [1; 2; 3]) as [[f' c]| |] eqn:E;
    try (exfalso; vm_compute in E; discriminate).
  exists f', c. split; [reflexivity|].
  apply (add_chain_frame small [1; 2; 3] f' c); [vm_compute; reflexivity | exact E].
Defined.




(** ** Reading and freeing chains on any FAT *)

Lemma slice_len_le {A : Type} (d : list A) (a n : Z) : 0 <= n ->
  Py.len (Py.slice d a (a + n)) <= n.
Proof.
  intros Hn. unfold Py.slice, Py.wrap, Py.len. rewrite length_firstn.
  destruct (Z.ltb_spec a 0); destruct (Z.ltb_spec (a + n) 0); lia.
Qed.

Lemma index_raises {A : Type} (l : list A) (i : Z) :
  (exists x, Py.index l i = Ok x) \/ Py.index l i = Raise PyIndexError.
Proof.
  unfold Py.index. destruct (_ <? 0); [auto|].
  destruct (nth_error l _); eauto.
Qed.

Lemma read_chain_loop_bound (fuel : nat) : forall (f : Floppy) (c size : Z) (acc : list Z),
  0 < cluster_size f -> 0 <= size -> size < Z.of_nat fuel ->
  (exists r, read_chain_loop fuel f c size acc = Ok r /\ Py.len r <= Py.len acc + size)
  \/ read_chain_loop fuel f c size acc = Raise PyIndexError.
Proof.
  induction fuel as [|k IH]; intros f c size acc Hcs Hs Hf; [lia|].
  cbn [read_chain_loop]. fold (cluster_size f).
  destruct (Z.ltb_spec c 0xFF0); [|left; exists acc; split; [reflexivity | lia]].
  destruct (Z.ltb_spec c 2).
  - left. eexists. split; [reflexivity|]. unfold Py.len. rewrite length_app.
    pose proof (slice_len_le (data f) (root f) size Hs). unfold Py.len in *. lia.
  - set (read := Z.min size (cluster_size f)).
    assert (Hr : 0 <= read <= size) by (unfold read; lia).
    pose proof (slice_len_le (data f) (_cluster_offset f c) read ltac:(lia)) as Hl.
    destruct (Z.ltb_spec (size - read) 1) as [Hd|Hd].
    + left. eexists. split; [reflexivity|]. unfold Py.len in *. rewrite length_app. lia.
    + destruct (index_raises (fat f) c) as [(c' & E)|E]; rewrite E; cbn [bind]; [|auto].
      assert (read = cluster_size f) by (unfold read; lia).
      destruct (IH f c' (size - read)
                  (acc ++ Py.slice (data f) (_cluster_offset f c) (_cluster_offset f c + read))
                  Hcs ltac:(lia) ltac:(lia)) as [(r & Er & Hb)|Er]; [|auto].
      left. exists r. split; [exact Er|]. unfold Py.len in *. rewrite length_app in Hb. lia.
Qed.

(** X4 (_read_chain): reading a chain always ends, and gives at most [size]
    bytes. For a positive cluster size and [size >= 0], on any FAT (cyclic
    chains included) _read_chain returns no more than [size] bytes, or raises
    IndexError when a link points outside the FAT. *)
Theorem read_chain_at_most : forall (f : Floppy) (c size : Z),
  0 < cluster_size f -> 0 <= size ->
  (exists r, _read_chain f c size = Ok r /\ Py.len r <= size)
  \/ _read_chain f c size = Raise PyIndexError.
Proof.
  intros f c size Hcs Hs. unfold _read_chain.
  destruct (read_chain_loop_bound (S (Z.to_nat size)) f c size [] Hcs Hs ltac:(lia))
    as [(r & E & Hb)|E]; [|auto].
  left. exists r. split; [exact E|]. change (Py.len (@nil Z)) with 0 in Hb. lia.
Qed.

Lemma read_chain_at_most_witness :
  0 < cluster_size small /\
  ((exists r, _read_chain small 2 200 = Ok r /\ Py.len r <= 200)
   \/ _read_chain small 2 200 = Raise PyIndexError).
Proof.
  split; [vm_compute; reflexivity|].
  apply (read_chain_at_most small 2 200); [vm_compute; reflexivity | lia].
Defined.

(** The number of FAT entries that are not 0. *)
Lemma count_used_store (t : list Z) : forall (n : nat) (v : Z) (t' : list Z),
  nth_error t n = Some v -> Py.update t n 0 = Some t' ->
  count_of (fun x => negb (x =? 0)) t'
  = count_of (fun x => negb (x =? 0)) t - (if v =? 0 then 0 else 1).
Proof.
  induction t as [|a rest IH]; intros n v t' Hn Hu; [destruct n; discriminate|].
  destruct n as [|n'].
  - simpl in Hn, Hu. inversion Hn; subst a. inversion Hu; subst t'.
    rewrite !count_of_cons. change (0 =? 0) with true.
    destruct (v =? 0); cbn [negb]; lia.
  - simpl in Hn, Hu. destruct (Py.update rest n' 0) as [r|] eqn:E; [|discriminate].
    inversion Hu; subst t'. rewrite !count_of_cons. rewrite (IH n' v r Hn E). lia.
Qed.

Lemma store_zero_ok (t : list Z) (c v : Z) : 0 <= c -> fat_at t c = Some v ->
  exists t', Py.store t c 0 = Ok t' /\ Py.len t' = Py.len t /\
             fat_at t' c = Some 0 /\
             (forall k, 0 <= k -> k <> c -> fat_at t' k = fat_at t k) /\
             count_of (fun x => negb (x =? 0)) t'
             = count_of (fun x => negb (x =? 0)) t - (if v =? 0 then 0 else 1).
Proof.
  intros Hc Hv. pose proof (fat_at_some_range t c v Hc Hv) as Hr.
  destruct (store_in_range t c 0 ltac:(lia)) as (t' & E). exists t'.
  destruct (store_at t c 0 t' Hc E) as (L & A & B).
  split; [exact E|]. split; [exact L|]. split; [exact A|]. split; [exact B|].
  apply store_nonneg in E; [|exact Hc].
  apply (count_used_store t (Z.to_nat c)); auto.
Qed.

Lemma count_used_bound (t : list Z) :
  0 <= count_of (fun x => negb (x =? 0)) t <= Py.len t.
Proof.
  unfold count_of, Py.len. pose proof (filter_length_le (fun x => negb (x =? 0)) t). lia.
Qed.

Lemma delete_chain_loop_ends (fuel : nat) : forall (t : list Z) (c : Z),
  count_of (fun x => negb (x =? 0)) t + 2 <= Z.of_nat fuel ->
  (exists t', delete_chain_loop fuel t c = Ok t' /\ Py.len t' = Py.len t /\
              forall j, 0 <= j -> fat_at t' j = fat_at t j \/ fat_at t' j = Some 0)
  \/ delete_chain_loop fuel t c = Raise PyIndexError.
Proof.
  induction fuel as [|k IH]; intros t c Hf;
    [pose proof (count_used_bound t); lia|].
  cbn [delete_chain_loop].
  destruct (Z.ltb_spec c 0xFF0); destruct (Z.leb_spec 2 c); cbn [andb];
    try (left; exists t; split; [reflexivity|]; split; [reflexivity|]; auto).
  destruct (index_raises t c) as [(v & E)|E]; rewrite E; cbn [bind]; [|auto].
  apply index_at in E; [|lia].
  destruct (store_zero_ok t c v ltac:(lia) E) as (t1 & Es & L & A & B & C).
  rewrite Es. cbn [bind].
  destruct (Z.eqb_spec v 0) as [->|Hv].
  - destruct k as [|k']; [pose proof (count_used_bound t); lia|].
    left. exists t1. split; [reflexivity|]. split; [exact L|].
    intros j Hj. destruct (Z.eq_dec j c) as [->|N]; [auto | left; apply B; auto].
  - destruct (IH t1 v ltac:(lia)) as [(t' & E' & L' & P')|E']; [|auto].
    left. exists t'. split; [exact E'|]. split; [congruence|].
    intros j Hj. destruct (P' j Hj) as [X|X]; [|auto].
    destruct (Z.eq_dec j c) as [->|N]; [right; congruence | left; rewrite X; apply B; auto].
Qed.

(** X5 (_delete_chain): freeing a chain always ends and only ever frees.
    On any FAT, cyclic chains included, _delete_chain returns with the image
    bytes untouched and every FAT entry either as it was or set to 0, or
    raises IndexError when a link points outside the FAT. *)
Theorem delete_chain_ends : forall (f : Floppy) (c : Z),
  (exists f', _delete_chain f c = Ok f' /\ data f' = data f /\
              Py.len (fat f') = Py.len (fat f) /\
              forall j, 0 <= j ->
                fat_at (fat f') j = fat_at (fat f) j \/ fat_at (fat f') j = Some 0)
  \/ _delete_chain f c = Raise PyIndexError.
Proof.
  intros f c. unfold _delete_chain.
  destruct (delete_chain_loop_ends (S (S (List.length (fat f)))) (fat f) c)
    as [(t' & E & L & P)|E].
  - pose proof (count_used_bound (fat f)). unfold Py.len in *. lia.
  - left. rewrite E. cbn [bind]. eexists. split; [reflexivity|].
    cbn [data fat set_fat]. auto.
  - right. rewrite E. reflexivity.
Qed.

Lemma delete_chain_linked (ch : list Z) : forall (t : list Z) (fuel : nat),
  ch <> [] -> NoDup ch -> (forall c, In c ch -> 2 <= c < 0xFF0) -> linked t ch ->
  (List.length ch < fuel)%nat ->
  exists t',
    delete_chain_loop fuel t (hd 0 ch) = Ok t' /\ Py.len t' = Py.len t /\
    forall j, 0 <= j ->
      fat_at t' j = if existsb (Z.eqb j) ch then Some 0 else fat_at t j.
Proof.
  induction ch as [|c rest IH]; intros t fuel Hne ND Hr Hl Hf; [contradiction|].
  destruct fuel as [|k]; [simpl in Hf; lia|].
  destruct (Hr c (or_introl eq_refl)) as [Hc2 Hcf].
  inversion ND as [|? ? Hni ND']; subst.
  cbn [hd delete_chain_loop].
  destruct (Z.ltb_spec c 0xFF0); [|lia]. destruct (Z.leb_spec 2 c); [|lia]. cbn [andb].
  assert (Hv : exists v, fat_at t c = Some v /\
                         match rest with [] => 0xFF0 <= v | c' :: _ => v = c' end).
  { destruct rest as [|c' r]; cbn [linked] in Hl.
    - exact Hl.
    - destruct Hl as [A _]. eauto. }
  destruct Hv as (v & Ev & Hv).
  rewrite (index_at_some t c v ltac:(lia) Ev). cbn [bind].
  destruct (store_zero_ok t c v ltac:(lia) Ev) as (t1 & Es & L & A & B & _).
  rewrite Es. cbn [bind].
  destruct rest as [|c' r].
  - destruct k as [|k']; [simpl in Hf; lia|]. cbn [delete_chain_loop].
    destruct (Z.ltb_spec v 0xFF0); [lia|]. cbn [andb].
    exists t1. split; [reflexivity|]. split; [exact L|].
    intros j Hj. cbn [existsb]. rewrite orb_false_r.
    destruct (Z.eqb_spec j c) as [->|N]; [exact A | apply B; auto].
  - subst v. cbn [linked] in Hl. destruct Hl as [_ Hl].
    destruct (IH t1 k) as (t' & E' & L' & P'); auto.
    + discriminate.
    + intros x Hx. apply Hr. right. exact Hx.
    + apply (linked_ext t); auto. intros x Hx. apply B.
      * specialize (Hr x (or_intror Hx)). lia.
      * intros ->. contradiction.
    + simpl in Hf |- *. lia.
    + cbn [hd] in E'. exists t'. split; [exact E'|]. split; [congruence|].
      intros j Hj. rewrite (P' j Hj).
      change (existsb (Z.eqb j) (c :: c' :: r))
        with ((j =? c) || existsb (Z.eqb j) (c' :: r)).
      destruct (Z.eqb_spec j c) as [->|N]; cbn [orb].
      * destruct (existsb (Z.eqb c) (c' :: r)); [reflexivity | exact A].
      * destruct (existsb (Z.eqb j) (c' :: r)); [reflexivity | apply B; auto].
Qed.

(** X6 (_delete_chain): on a well-formed chain (distinct data clusters, each
    linked to the next, the last one marked as the end) _delete_chain sets
    the FAT entry of every cluster of the chain to 0 and changes nothing
    else; deleting the same chain again changes nothing at all. *)
Theorem delete_chain_frees : forall (f : Floppy) (ch : list Z),
  wf_chain (fat f) (cluster_limit f) ch -> cluster_limit f <= 0xFF0 ->
  exists f',
    _delete_chain f (hd 0 ch) = Ok f' /\ data f' = data f /\
    (forall j, 0 <= j ->
       fat_at (fat f') j = if existsb (Z.eqb j) ch then Some 0 else fat_at (fat f) j) /\
    _delete_chain f' (hd 0 ch) = Ok f'.
Proof.
  intros f ch [Wn Wd Wr Wl] Hlim. unfold _delete_chain.
  destruct (delete_chain_linked ch (fat f) (S (S (List.length (fat f)))) Wn Wd)
    as (t' & E & L & P); auto.
  - intros c Hc. specialize (Wr c Hc). lia.
  - assert (Hl : (List.length ch
                  <= List.length (map Z.of_nat (seq 0 (List.length (fat f)))))%nat).
    { apply (NoDup_incl_length Wd).
      intros c Hc. destruct (linked_in _ _ c Wl Hc) as (v & Hv & _).
      specialize (Wr c Hc).
      pose proof (fat_at_some_range _ c v ltac:(lia) Hv) as Hb.
      apply in_map_iff. exists (Z.to_nat c). split; [lia|].
      apply in_seq. unfold Py.len in Hb. lia. }
    rewrite length_map, length_seq in Hl. lia.
  - rewrite E. cbn [bind]. eexists. split; [reflexivity|].
    cbn [data fat set_fat]. split; [reflexivity|]. split; [exact P|].
    destruct ch as [|c rest]; [contradiction|]. cbn [hd] in *.
    destruct (Wr c (or_introl eq_refl)) as [Hc2 Hcl].
    assert (Hz : fat_at t' c = Some 0).
    { rewrite P by lia. cbn [existsb]. rewrite Z.eqb_refl. reflexivity. }
    cbn [delete_chain_loop].
    destruct (Z.ltb_spec c 0xFF0); [|lia]. destruct (Z.leb_spec 2 c); [|lia]. cbn [andb].
    rewrite (index_at_some t' c 0 ltac:(lia) Hz). cbn [bind].
    destruct (store_zero_ok t' c 0 ltac:(lia) Hz) as (t2 & Es & L2 & A & B & _).
    rewrite Es. cbn [bind]. cbn [delete_chain_loop]. cbn [andb Z.ltb Z.leb Z.compare].
    assert (t2 = t') as ->; [|reflexivity].
    apply fat_ext. intros j Hj.
    destruct (Z.eq_dec j c) as [->|N]; [congruence | apply B; auto].
Qed.

Lemma existsb_eqb_In (j : Z) (l : list Z) : existsb (Z.eqb j) l = true <-> In j l.
Proof.
  rewrite existsb_exists. split.
  - intros (x & Hx & E). apply Z.eqb_eq in E. subst. exact Hx.
  - intros H. exists j. split; [exact H | apply Z.eqb_refl].
Qed.

(** X7 (_add_chain, _delete_chain): freeing a chain that _add_chain has just
    allocated gives back the FAT as it was before the allocation; the bytes
    written to the clusters stay in the image. *)
Theorem add_then_delete_restores :
  forall (f : Floppy) (d : list Z) (f1 : Floppy) (c : Z),
  image_ok f = true -> _add_chain f d = Ok (f1, c) -> 0 <= c ->
  exists f2, _delete_chain f1 c = Ok f2 /\ fat f2 = fat f /\ data f2 = data f1.
Proof.
  intros f d f1 c I H Hc.
  destruct (add_chain_effect f d f1 c I H Hc)
    as (G & _ & Hhd & [Wn Wd Wr Wl] & Hfree & _ & _ & Hfat & _).
  pose proof (image_ok_facts f I) as (_ & _ & _ & _ & _ & _ & _ & _ & Hlim & Hff & _).
  destruct (same_geom_layout f f1 G) as (_ & _ & _ & _ & _ & _ & _ & Lf).
  unfold _delete_chain. rewrite <- Hhd.
  destruct (delete_chain_linked (chain_for f d) (fat f1) (S (S (List.length (fat f1)))) Wn Wd)
    as (t' & E & L & P); auto.
  - intros k Hk. specialize (Wr k Hk). lia.
  - destruct (chain_for_props f d) as (_ & Hl & _).
    + apply image_ok_facts; exact I.
    + exact Hlim.
    + unfold Py.len in Lf. lia.
  - rewrite E. cbn [bind]. eexists. split; [reflexivity|].
    cbn [fat data set_fat]. split; [|reflexivity].
    apply fat_ext. intros j Hj. rewrite (P j Hj).
    destruct (existsb (Z.eqb j) (chain_for f d)) eqn:Ej.
    + apply existsb_eqb_In in Ej. symmetry. apply Hfree. exact Ej.
    + apply Hfat; [exact Hj|]. intros Hi. apply existsb_eqb_In in Hi. congruence.
Qed.

Lemma add_then_delete_restores_witness :
  image_ok small = true /\
  exists f1 c f2, _add_chain small [1; 2; 3] = Ok (f1, c) /\ 0 <= c /\
                  _delete_chain f1 c = Ok f2 /\ fat f2 = fat small.
Proof.
  split; [vm_compute; reflexivity|].
  destruct (_add_chain small [1; 2; 3]) as [[f1 c]| |] eqn:E;
    try (exfalso; vm_compute in E; discriminate).
  assert (Hc : 0 <= c).
  { assert (X : match _add_chain small [1; 2; 3] with
                | Ok (_, c) => 0 <=? c | _ => false end = true)
      by (vm_compute; reflexivity).
    rewrite E in X. apply Z.leb_le. exact X. }
  destruct (add_then_delete_restores small [1; 2; 3] f1 c) as (f2 & D & Hf & _);
    [vm_compute; reflexivity | exact E | exact Hc |].
  exists f1, c, f2. auto.
Defined.

(** The loop of _reserve_side1 when it only counts. *)
Lemma count_loop_spec (f : Floppy) (G : geom_ok f) (idx : list Z) :
  forall (t : list Z) (count : Z),
  (forall i, In i idx -> 2 <= i /\ position f (i - 2) < Py.len t) ->
  reserve_loop f false idx t count
  = Ok (t, count + count_of (side1_free f t) idx - count_of (side2_used f t) idx).
Proof.
  induction idx as [|i rest IH]; intros t count Hin.
  - simpl. apply ok_pair_eq. unfold count_of. simpl. lia.
  - destruct (Hin i (or_introl eq_refl)) as (Hi & Hp).
    pose proof (position_ge2 f (i - 2) G ltac:(lia)) as Hp2.
    destruct (fat_at_in_range t (position f (i - 2)) ltac:(lia)) as (v & Ev).
    cbn [reserve_loop]. rewrite (side_order_pure f i G Hi). cbn [bind].
    rewrite !count_of_cons. unfold side1_free at 1, side2_used at 1. rewrite Ev.
    rewrite (index_at_some t (position f (i - 2)) v ltac:(lia) Ev). cbn [bind].
    destruct (Z.ltb_spec (i - 2) (csplit f)) as [Hl|Hl]; cbn [negb andb];
      destruct (Z.eqb_spec v 0) as [Hv|Hv]; cbn [negb bind];
      rewrite IH by (intros k Hk; apply Hin; right; exact Hk);
      apply ok_pair_eq; lia.
Qed.

Lemma count_of_none (p : Z -> bool) (idx : list Z) :
  (forall i, In i idx -> p i = false) -> count_of p idx = 0.
Proof.
  induction idx as [|i rest IH]; intros H; [reflexivity|].
  rewrite count_of_cons, (H i (or_introl eq_refl)), IH; [reflexivity|].
  intros k Hk. apply H. right. exact Hk.
Qed.

Lemma set_fat_same (f : Floppy) : set_fat f (fat f) = f.
Proof. destruct f. reflexivity. Qed.

(** X8 (free_side1, close_side1): free_side1 changes nothing and returns
    the free side-1 clusters minus the used side-2 clusters; called after
    close_side1 it finds no free cluster left on side 1: it returns minus
    the number of used side-2 clusters, which is not positive. *)
Theorem free_side1_counts : forall (f : Floppy),
  geom_ok f ->
  (forall i, 2 <= i < cluster_limit f -> position f (i - 2) < Py.len (fat f)) ->
  let idx := range 2 (cluster_limit f) in
  free_side1 f
  = Ok (f, count_of (side1_free f (fat f)) idx - count_of (side2_used f (fat f)) idx)
  /\ exists f1 n, close_side1 f = Ok (f1, n) /\
       free_side1 f1 = Ok (f1, - count_of (side2_used f (fat f)) idx).
Proof.
  intros f G Hpos idx.
  assert (Hin : forall i, In i idx -> 2 <= i /\ position f (i - 2) < Py.len (fat f)).
  { intros i Hi. apply range_In_inv in Hi. split; [lia | apply Hpos; exact Hi]. }
  split.
  - unfold free_side1, _reserve_side1. fold idx.
    rewrite (count_loop_spec f G idx (fat f) 0 Hin). cbn [bind].
    rewrite set_fat_same. apply ok_pair_eq. lia.
  - destruct (reserve_loop_spec f G idx (fat f) 0 (range_NoDup _ _) Hin)
      as (t' & E & L & P).
    exists (set_fat f t'). eexists. split.
    + unfold close_side1, _reserve_side1. fold idx. rewrite E. reflexivity.
    + unfold free_side1, _reserve_side1. cbn [cluster_limit fat set_fat]. fold idx.
      assert (G' : geom_ok (set_fat f t')) by exact G.
      rewrite (count_loop_spec (set_fat f t') G' idx t' 0).
      2:{ intros i Hi. rewrite L. exact (Hin i Hi). }
      cbn [bind]. apply ok_pair_eq.
      assert (K0 : count_of (side1_free (set_fat f t') t') idx = 0).
      { apply count_of_none. intros i Hi. destruct (Hin i Hi) as (Hi2 & Hp).
        pose proof (position_ge2 f (i - 2) G ltac:(lia)) as Hp2.
        unfold side1_free. change (csplit (set_fat f t')) with (csplit f).
        change (position (set_fat f t') (i - 2)) with (position f (i - 2)).
        destruct (Z.ltb_spec (i - 2) (csplit f)) as [Hl|Hl]; [|reflexivity].
        cbn [andb]. rewrite P by lia.
        destruct (fat_at (fat f) (position f (i - 2))) as [v|]; [|reflexivity].
        destruct (Z.eqb_spec v 0) as [->|Hv]; cbn [andb].
        - assert (S1 : side1_at f idx (position f (i - 2)) = true).
          { unfold side1_at. apply existsb_exists. exists i. split; [exact Hi|].
            apply andb_true_iff. split; [apply Z.ltb_lt; exact Hl | apply Z.eqb_refl]. }
          rewrite S1. reflexivity.
        - destruct (Z.eqb_spec v 0); [contradiction | reflexivity]. }
      assert (M0 : count_of (side2_used (set_fat f t') t') idx
                   = count_of (side2_used f (fat f)) idx).
      { apply count_of_ext. intros i Hi. destruct (Hin i Hi) as (Hi2 & Hp).
        pose proof (position_ge2 f (i - 2) G ltac:(lia)) as Hp2.
        unfold side2_used. change (csplit (set_fat f t')) with (csplit f).
        change (position (set_fat f t') (i - 2)) with (position f (i - 2)).
        destruct (Z.ltb_spec (i - 2) (csplit f)) as [Hl|Hl]; [reflexivity|].
        cbn [negb andb]. rewrite P by lia.
        destruct (fat_at (fat f) (position f (i - 2))) as [v|]; [|reflexivity].
        destruct (Z.eqb_spec v 0) as [->|Hv]; cbn [andb].
        - assert (S1 : side1_at f idx (position f (i - 2)) = false).
          { unfold side1_at. apply not_true_is_false. intros Ht.
            apply existsb_exists in Ht. destruct Ht as (k & Hk & Hb).
            apply andb_true_iff in Hb. destruct Hb as [A B].
            apply Z.ltb_lt in A. apply Z.eqb_eq in B.
            destruct (Hin k Hk) as (Hk2 & _).
            apply position_inj in B; auto; lia. }
          rewrite S1. reflexivity.
        - destruct (Z.eqb_spec v 0); [contradiction | reflexivity]. }
      rewrite K0, M0. lia.
Qed.

Lemma delete_chain_frees_witness :
  wf_chain (fat chained_small) (cluster_limit chained_small) [2; 3] /\
  exists f', _delete_chain chained_small 2 = Ok f' /\
             fat_at (fat f') 2 = Some 0 /\ fat_at (fat f') 3 = Some 0.
Proof.
  assert (W : wf_chain (fat chained_small) (cluster_limit chained_small) [2; 3]).
  { split.
    - discriminate.
    - repeat constructor; simpl; intuition lia.
    - intros c [<-|[<-|[]]]; vm_compute; split; discriminate || reflexivity.
    - split; [reflexivity|]. exists 0xFFF. split; [reflexivity | lia]. }
  split; [exact W|].
  destruct (delete_chain_frees chained_small [2; 3] W) as (f' & E & _ & P & _);
    [vm_compute; discriminate|].
  exists f'. split; [exact E|].
  split; rewrite P by lia; reflexivity.
Defined.

Lemma free_side1_counts_witness :
  geom_ok small /\ free_side1 small = Ok (small, 12).
Proof.
  split; [exact small_geom|].
  destruct (free_side1_counts small small_geom) as [E _].
  - intros i Hi.
    assert (T : forallb (fun i => position small (i - 2) <? Py.len (fat small))
                  (range 2 (cluster_limit small)) = true)
      by (vm_compute; reflexivity).
    apply Z.ltb_lt. apply (forallb_range _ _ _ T i Hi).
  - rewrite E. apply ok_pair_eq. vm_compute. reflexivity.
Defined.

(** ** The directory entry codec *)

Lemma chr_code (c : ascii) : Str.chr (Str.code c) = c.
Proof.
  unfold Str.chr, Str.code. rewrite Z2N.inj_pos || idtac.
  rewrite N2Z.id. apply ascii_N_embedding.
Qed.

Lemma decode_padded (s : string) (k : nat) : is_ascii s = true ->
  Str.decode (map Str.code (list_ascii_of_string s) ++ repeat 0x20 k)
  = Ok (s ++ spaces k)%string.
Proof.
  intros H. induction s as [|c t IH].
  - simpl. induction k as [|k' IHk]; [reflexivity|].
    simpl. simpl in IHk. rewrite IHk. reflexivity.
  - simpl in H. apply andb_true_iff in H. destruct H as [Hc Ht].
    apply Z.ltb_lt in Hc. pose proof (code_bound c) as Hb.
    cbn [list_ascii_of_string map app Str.decode].
    destruct (Z.ltb_spec (Str.code c) 0); [lia|].
    destruct (Z.leb_spec 128 (Str.code c)); [lia|]. cbn [orb].
    rewrite (IH Ht). cbn [bind]. rewrite chr_code. reflexivity.
Qed.

Lemma rstrip_spaces (k : nat) : Str.rstrip (spaces k) = EmptyString.
Proof. induction k as [|k' IH]; [reflexivity|]. simpl. rewrite IH. reflexivity. Qed.

Lemma rstrip_padded (s : string) (k : nat) : Str.rstrip (s ++ spaces k)%string = Str.rstrip s.
Proof.
  induction s as [|c t IH]; [apply rstrip_spaces|].
  simpl. rewrite IH. reflexivity.
Qed.

Lemma find_split (c : ascii) (s : string) : 0 <= Str.find c s ->
  s = (Str.upto s (Str.find c s) ++ String c (Str.from s (Str.find c s + 1)))%string.
Proof.
  unfold Str.upto, Str.from. induction s as [|x t IH]; intros H; [simpl in H; lia|].
  cbn [Str.find] in *. destruct (Ascii.eqb_spec x c) as [->|N].
  - reflexivity.
  - destruct (Z.ltb_spec (Str.find c t) 0) as [Hn|Hn]; [lia|].
    replace (Z.to_nat (Str.find c t + 1)) with (S (Z.to_nat (Str.find c t))) by lia.
    replace (Z.to_nat (Str.find c t + 1 + 1)) with (S (Z.to_nat (Str.find c t + 1))) by lia.
    cbn [Str.take Str.drop append]. f_equal. apply IH. lia.
Qed.

Lemma filestring_len (s : string) (n : Z) (b : list Z) :
  _filestring s n = Ok b -> Py.len b = n.
Proof.
  unfold _filestring. intros H. step H. cbv zeta in H.
  destruct (Z.eqb_spec (Py.len (x ++ repeat 32 (Z.to_nat (n - Py.len x)))) n) as [Q|Q];
    cbn [negb] in H; [|discriminate].
  inversion H; subst. exact Q.
Qed.

Lemma p16_ok (v : Z) (b : list Z) : Struct.p16 v = Ok b ->
  0 <= v < 65536 /\ b = [v mod 256; v / 256].
Proof.
  unfold Struct.p16. intros Q. destruct (Z.ltb_spec v 0); destruct (Z.leb_spec 65536 v);
    cbn [orb] in Q; try discriminate. inversion Q. split; [lia | reflexivity].
Qed.

Lemma p32_ok (v : Z) (b : list Z) : Struct.p32 v = Ok b ->
  0 <= v < 4294967296 /\
  b = [v mod 256; (v / 256) mod 256; (v / 65536) mod 256; v / 16777216].
Proof.
  unfold Struct.p32. intros Q. destruct (Z.ltb_spec v 0); destruct (Z.leb_spec 4294967296 v);
    cbn [orb] in Q; try discriminate. inversion Q. split; [lia | reflexivity].
Qed.

Lemma len_peel (l : list Z) (k : Z) : Py.len l = k -> 1 <= k ->
  exists a l', l = a :: l' /\ Py.len l' = k - 1.
Proof.
  intros H Hk. destruct l as [|a l']; unfold Py.len in *; simpl in H; [lia|].
  exists a, l'. split; [reflexivity | lia].
Qed.

Lemma len_end (l : list Z) (k : Z) : Py.len l = k -> k = 0 -> l = [].
Proof.
  intros H Hk. destruct l; [reflexivity|]. unfold Py.len in H. simpl in H. lia.
Qed.

(** A list of known length, as its elements. *)
Ltac peel_all l L :=
  first [ let E := fresh "E" in
          pose proof (len_end l _ L) as E; specialize (E ltac:(lia)); subst l; clear L
        | let a := fresh "b" in
          let l' := fresh "l" in
          let L' := fresh "L" in
          destruct (len_peel l _ L) as (a & l' & ? & L'); [lia|];
          subst l; clear L; peel_all l' L' ].

(** The bytes compile builds for an entry with a name: the padded name, the
    padded extension, the attributes, ten bytes kept from the entry's own
    data, then time, date, cluster and size. *)
Lemma compile_layout (e e' : FileEntry.t) (b : list Z) :
  Py.len (FileEntry.data e) = 32 ->
  FileEntry.incipit e <> 0x00 -> FileEntry.incipit e <> 0xEF ->
  FileEntry.compile e = Ok (e', b) ->
  exists n x,
    _filestring (name_base (FileEntry.path e)) 8 = Ok n /\
    _filestring (name_ext (FileEntry.path e)) 3 = Ok x /\
    0 <= FileEntry.attributes e < 256 /\
    0 <= FileEntry.write_time e < 65536 /\ 0 <= FileEntry.write_date e < 65536 /\
    0 <= FileEntry.cluster e < 65536 /\ 0 <= FileEntry.size e < 4294967296 /\
    e' = FileEntry.set_data e b /\
    b = n ++ x ++ [FileEntry.attributes e] ++ Py.slice (FileEntry.data e) 12 22
        ++ [FileEntry.write_time e mod 256; FileEntry.write_time e / 256;
            FileEntry.write_date e mod 256; FileEntry.write_date e / 256;
            FileEntry.cluster e mod 256; FileEntry.cluster e / 256;
            FileEntry.size e mod 256; (FileEntry.size e / 256) mod 256;
            (FileEntry.size e / 65536) mod 256; FileEntry.size e / 16777216].
Proof.
  intros L Hi0 Hi1 H. unfold FileEntry.compile in H. cbv zeta in H.
  fold (name_base (FileEntry.path e)) in H. fold (name_ext (FileEntry.path e)) in H.
  destruct (Z.eqb_spec (FileEntry.incipit e) 0) as [|_]; [contradiction|].
  destruct (Z.eqb_spec (FileEntry.incipit e) 0xEF) as [|_]; [contradiction|].
  cbn [negb andb] in H.
  destruct (_filestring (name_base (FileEntry.path e)) 8) as [n| |] eqn:En;
    cbn [bind] in H; try discriminate.
  destruct (_filestring (name_ext (FileEntry.path e)) 3) as [x| |] eqn:Ex;
    cbn [bind] in H; try discriminate.
  pose proof (filestring_len _ _ _ En) as Ln. pose proof (filestring_len _ _ _ Ex) as Lx.
  destruct (Py.bstore _ 11 (FileEntry.attributes e)) as [d3| |] eqn:E3;
    cbn [bind] in H; try discriminate.
  destruct (Struct.p16 (FileEntry.write_time e)) as [wt| |] eqn:Ewt;
    cbn [bind] in H; try discriminate.
  destruct (Struct.p16 (FileEntry.write_date e)) as [wd| |] eqn:Ewd;
    cbn [bind] in H; try discriminate.
  destruct (Struct.p16 (FileEntry.cluster e)) as [cl| |] eqn:Ecl;
    cbn [bind] in H; try discriminate.
  destruct (Struct.p32 (FileEntry.size e)) as [sz| |] eqn:Esz;
    cbn [bind] in H; try discriminate.
  apply p16_ok in Ewt, Ewd, Ecl. apply p32_ok in Esz.
  destruct Ewt as [Rwt ->]. destruct Ewd as [Rwd ->]. destruct Ecl as [Rcl ->].
  destruct Esz as [Rsz ->].
  assert (Ra : 0 <= FileEntry.attributes e < 256).
  { unfold Py.bstore in E3.
    destruct (Z.ltb_spec (FileEntry.attributes e) 0);
      destruct (Z.leb_spec 256 (FileEntry.attributes e)); cbn [orb] in E3;
      try discriminate. lia. }
  exists n, x. repeat (split; [auto; lia|]).
  inversion H; subst e' b; clear H. split; [reflexivity|].
  unfold Py.bstore in E3.
  destruct (Z.ltb_spec (FileEntry.attributes e) 0); [lia|].
  destruct (Z.leb_spec 256 (FileEntry.attributes e)); [lia|]. cbn [orb] in E3.
  remember (FileEntry.data e) as dat eqn:Ed. clear Ed.
  peel_all dat L. peel_all n Ln. peel_all x Lx.
  vm_compute in E3. inversion E3; subst d3. reflexivity.
Qed.

(** FileEntry(data) on 32 bytes: the first byte, the name, and the fields
    at their places. *)
Lemma init_bytes (n0 n1 n2 n3 n4 n5 n6 n7 x0 x1 x2 a m0 m1 m2 m3 m4 m5 m6 m7 m8 m9
                  t0 t1 d0 d1 c0 c1 s0 s1 s2 s3 dc di : Z) :
  let b := [n0; n1; n2; n3; n4; n5; n6; n7; x0; x1; x2; a;
            m0; m1; m2; m3; m4; m5; m6; m7; m8; m9;
            t0; t1; d0; d1; c0; c1; s0; s1; s2; s3] in
  FileEntry.init b dc di =
  (p <- read_name [n0; n1; n2; n3; n4; n5; n6; n7] [x0; x1; x2] n0 ;;
   Ok (FileEntry.mk b p n0 a (t0 + 256 * t1) (d0 + 256 * d1) (c0 + 256 * c1)
         (s0 + 256 * s1 + 65536 * s2 + 16777216 * s3) dc di)).
Proof. reflexivity. Qed.

Lemma name_parts (s : string) :
  (Str.find "." s < 0 /\ name_base s = s /\ name_ext s = EmptyString) \/
  (0 <= Str.find "." s /\ s = (name_base s ++ String "." (name_ext s))%string).
Proof.
  unfold name_base, name_ext. cbv zeta.
  destruct (Z.leb_spec 0 (Str.find "." s)) as [H|H].
  - right. split; [exact H|]. apply find_split. exact H.
  - left. auto.
Qed.

Lemma is_ascii_first (s : string) : is_ascii s = true -> 0 <= incipit_of s < 128.
Proof.
  destruct s as [|c t]; simpl; [lia|]. intros H. apply andb_true_iff in H.
  destruct H as [H _]. apply Z.ltb_lt in H. pose proof (code_bound c). lia.
Qed.

Lemma padded_first (s : string) (k : nat) : (0 < k)%nat ->
  nth 0 (map Str.code (list_ascii_of_string s) ++ repeat 0x20 k) 0 = incipit_of s.
Proof.
  intros H. destruct s as [|c t]; [|reflexivity].
  destruct k; [lia | reflexivity].
Qed.

(** A canonical name is read back from the bytes compile stores for it, and
    the first of these bytes is neither the end mark nor the deleted mark. *)
Lemma read_name_canonical (s : string) (n x : list Z) : canonical s = true ->
  _filestring (name_base s) 8 = Ok n -> _filestring (name_ext s) 3 = Ok x ->
  read_name n x (nth 0 n 0) = Ok s /\ nth 0 n 0 = incipit_of (name_base s)
  /\ nth 0 n 0 <> 0 /\ nth 0 n 0 <> EMPTY.
Proof.
  unfold canonical, decomposable. rewrite !andb_true_iff.
  intros ((((((Ha & Hb8) & He3) & Hp) & Hrb) & Hre) & Hpe) En Ex.
  apply String.eqb_eq in Hrb, Hre.
  pose proof (is_ascii_base s Ha) as Ab. pose proof (is_ascii_ext s Ha) as Ae.
  rewrite (filestring_ascii _ 8 Ab), Hb8 in En.
  rewrite (filestring_ascii _ 3 Ae), He3 in Ex.
  apply Z.leb_le in Hb8, He3.
  set (k8 := Z.to_nat (8 - Str.len (name_base s))) in En.
  set (k3 := Z.to_nat (3 - Str.len (name_ext s))) in Ex.
  assert (Hn : n = map Str.code (list_ascii_of_string (name_base s)) ++ repeat 0x20 k8)
    by congruence.
  assert (Hx : x = map Str.code (list_ascii_of_string (name_ext s)) ++ repeat 0x20 k3)
    by congruence.
  clear En Ex.
  assert (Hfirst : nth 0 n 0 = incipit_of (name_base s)).
  { rewrite Hn. destruct (name_base s) as [|c t] eqn:Eb; [|reflexivity].
    assert (k8 = 8%nat) as -> by (unfold k8; reflexivity). reflexivity. }
  assert (Hnz : incipit_of (name_base s) <> 0).
  { destruct (name_parts s) as [(_ & Eb & _)|(Hf & Es)].
    - rewrite Eb. destruct s as [|c t]; [cbn; lia|].
      cbn [starts_plain] in Hp. cbn [incipit_of].
      apply negb_true_iff in Hp. apply Z.eqb_neq in Hp. exact Hp.
    - destruct (name_base s) as [|c t] eqn:Eb; [cbn; lia|].
      rewrite Es in Hp. cbn [append starts_plain] in Hp. cbn [incipit_of].
      apply negb_true_iff in Hp. apply Z.eqb_neq in Hp. exact Hp. }
  pose proof (is_ascii_first _ Ab) as Hlt.
  rewrite Hfirst. split; [|split; [reflexivity | split; [exact Hnz | unfold EMPTY; lia]]].
  unfold read_name.
  destruct (Z.eqb_spec (incipit_of (name_base s)) 0) as [|_]; [contradiction|].
  destruct (Z.eqb_spec (incipit_of (name_base s)) EMPTY) as [Q|_];
    [unfold EMPTY in Q; lia|].
  cbn [negb andb]. rewrite Hn, Hx.
  rewrite (decode_padded _ _ Ab). cbn [bind]. rewrite rstrip_padded, Hrb.
  rewrite (decode_padded _ _ Ae). cbn [bind]. rewrite rstrip_padded, Hre.
  destruct (name_parts s) as [(Hf & Eb & Ee)|(Hf & Es)].
  - rewrite Ee. change (0 <? Str.len "") with false. cbv iota. rewrite Eb. reflexivity.
  - destruct (Z.ltb_spec (Str.find "." s) 0) as [Q|_]; [lia|]. cbn [orb] in Hpe.
    rewrite Hpe. f_equal. symmetry. exact Es.
Qed.

Lemma u16_join (v : Z) : v mod 256 + 256 * (v / 256) = v.
Proof. pose proof (Z.div_mod v 256 ltac:(lia)). lia. Qed.

Lemma u32_join (v : Z) : 0 <= v < 4294967296 ->
  v mod 256 + 256 * ((v / 256) mod 256) + 65536 * ((v / 65536) mod 256)
  + 16777216 * (v / 16777216) = v.
Proof. intros H. Z.div_mod_to_equations. lia. Qed.

(** X9 (FileEntry.compile, FileEntry.__init__): the 32 bytes compile builds
    for an entry parse back to the same entry. For an entry with 32 bytes of
    data, a first-byte field that is neither 0x00 nor 0xEF and a name in
    canonical form, whenever compile succeeds, FileEntry(bytes, dc, di) has
    the same name, attributes, time, date, cluster and size, the given
    directory position, and a first byte that marks it as a live entry. *)
Theorem entry_codec_roundtrip :
  forall (e e' : FileEntry.t) (b : list Z) (dc di : Z),
  Py.len (FileEntry.data e) = 32 ->
  FileEntry.incipit e <> 0x00 -> FileEntry.incipit e <> 0xEF ->
  canonical (FileEntry.path e) = true ->
  FileEntry.compile e = Ok (e', b) ->
  FileEntry.init b dc di
  = Ok (FileEntry.mk b (FileEntry.path e) (incipit_of (name_base (FileEntry.path e)))
          (FileEntry.attributes e) (FileEntry.write_time e) (FileEntry.write_date e)
          (FileEntry.cluster e) (FileEntry.size e) dc di)
  /\ incipit_of (name_base (FileEntry.path e)) <> 0x00
  /\ incipit_of (name_base (FileEntry.path e)) <> EMPTY.
Proof.
  intros e e' b dc di L Hi0 Hi1 Hc H.
  destruct (compile_layout e e' b L Hi0 Hi1 H)
    as (n & x & En & Ex & Ra & Rt & Rd & Rc & Rs & -> & ->).
  destruct (read_name_canonical _ n x Hc En Ex) as (Hn & Hf & Hz & He).
  pose proof (filestring_len _ _ _ En) as Ln. pose proof (filestring_len _ _ _ Ex) as Lx.
  rewrite <- Hf. split; [|auto].
  remember (FileEntry.data e) as dat eqn:Ed. clear Ed.
  peel_all dat L. peel_all n Ln. peel_all x Lx.
  match goal with |- FileEntry.init ?B _ _ = _ =>
    let B' := eval cbv [app Py.slice Py.wrap Py.len List.length firstn skipn
                          Z.of_nat Z.to_nat Z.ltb Z.compare Z.sub Z.opp Z.add Z.pos_sub
                          Pos.compare Pos.compare_cont Pos.pred_double Pos.to_nat
                          Pos.iter_op Init.Nat.add Z.double Z.succ_double Z.pred_double
                          Pos.succ Pos.of_succ_nat] in B in
    change B with B' end.
  rewrite init_bytes. cbn [nth] in Hn. rewrite Hn. cbn [bind].
  rewrite !u16_join, (u32_join _ Rs). reflexivity.
Qed.

Lemma entry_codec_roundtrip_witness :
  let e := FileEntry.mk (EMPTY :: repeat 0 31) "A.TXT" 0x41 0x20 0x6000 0x5964 5 3 (-1) (-1) in
  exists e' b, FileEntry.compile e = Ok (e', b) /\
    exists e2, FileEntry.init b 0 7 = Ok e2 /\ FileEntry.path e2 = "A.TXT"%string
               /\ FileEntry.cluster e2 = 5 /\ FileEntry.size e2 = 3.
Proof.
  intros e.
  destruct (FileEntry.compile e) as [[e' b]| |] eqn:E;
    try (exfalso; vm_compute in E; discriminate).
  exists e', b. split; [reflexivity|].
  destruct (entry_codec_roundtrip e e' b 0 7) as (R & _); try (vm_compute; congruence).
  - exact E.
  - eexists. split; [exact R|]. auto.
Defined.






(** ** Invariants of the public operations *)

(** X12 (delete_path, add_dir_path, add_file_path): the public operations
    never change the geometry. Whatever they return, the image they leave is
    the one they were given with other bytes and another FAT of the same
    length: every field read from the boot sector and the values derived
    from them (root, cluster2, cluster_limit) are as before. *)
Theorem operations_keep_geometry :
  forall (now : Z * Z) (f : Floppy) (path : string) (d : list Z) (f' : Floppy),
  (exists b, delete_path f path = Ok (f', b)) \/
  (exists c, add_dir_path now f path = Ok (f', c)) \/
  (exists b, add_file_path now f path d = Ok (f', b)) ->
  same_geom f f' /\
  sector_size f' = sector_size f /\ cluster_sects f' = cluster_sects f /\
  sectors f' = sectors f /\ root f' = root f /\ cluster2 f' = cluster2 f /\
  cluster_limit f' = cluster_limit f /\ Py.len (fat f') = Py.len (fat f).
Proof.
  intros now f path d f' H.
  assert (G : same_geom f f').
  { destruct H as [(b & H)|[(c & H)|(b & H)]].
    - eapply delete_path_geom; eauto.
    - eapply add_dir_path_geom; eauto.
    - eapply add_file_path_geom; eauto. }
  split; [exact G|]. destruct (same_geom_fields f f' G) as (A & B & C & D & E & F & X & Y & Z).
  auto 10.
Qed.

Lemma operations_keep_geometry_witness :
  exists f', (exists b, add_file_path (0, 0) small "F" [1] = Ok (f', b)) /\
             cluster_limit f' = cluster_limit small.
Proof.
  destruct (add_file_path (0, 0) small "F" [1]) as [[f' b]| |] eqn:E;
    try (exfalso; vm_compute in E; discriminate).
  exists f'. split; [exists b; reflexivity|].
  apply (operations_keep_geometry (0, 0) small "F" [1] f').
  right. right. exists b. exact E.
Defined.

(** ** Paths *)

Lemma find_take (c : ascii) (s : string) :
  Str.find c (Str.take (Z.to_nat (Str.find c s)) s) < 0.
Proof.
  induction s as [|x t IH]; [simpl; lia|].
  cbn [Str.find]. destruct (Ascii.eqb_spec x c) as [->|N]; [simpl; lia|].
  destruct (Z.ltb_spec (Str.find c t) 0) as [Hn|Hn]; [simpl; lia|].
  replace (Z.to_nat (Str.find c t + 1)) with (S (Z.to_nat (Str.find c t))) by lia.
  cbn [Str.take Str.find]. destruct (Ascii.eqb_spec x c); [contradiction|].
  destruct (Z.ltb_spec (Str.find c (Str.take (Z.to_nat (Str.find c t)) t)) 0); lia.
Qed.

Lemma find_nonneg_or (c : ascii) (s : string) : Str.find c s = -1 \/ 0 <= Str.find c s.
Proof.
  induction s as [|x t IH]; [left; reflexivity|]. cbn [Str.find].
  destruct (Ascii.eqb x c); [right; lia|].
  destruct (Z.ltb_spec (Str.find c t) 0); [left; reflexivity | right; lia].
Qed.

Lemma rfind_none (c : ascii) (s : string) : Str.rfind c s < 0 -> Str.find c s < 0.
Proof.
  induction s as [|x t IH]; [simpl; lia|]. cbn [Str.rfind Str.find].
  destruct (Z.leb_spec 0 (Str.rfind c t)); [lia|].
  destruct (Ascii.eqb x c); [lia|]. intros _.
  destruct (Z.ltb_spec (Str.find c t) 0); lia.
Qed.

Lemma rfind_split (c : ascii) (s : string) : 0 <= Str.rfind c s ->
  s = (Str.upto s (Str.rfind c s) ++ String c (Str.from s (Str.rfind c s + 1)))%string
  /\ Str.find c (Str.from s (Str.rfind c s + 1)) < 0.
Proof.
  unfold Str.upto, Str.from. induction s as [|x t IH]; intros H; [simpl in H; lia|].
  cbn [Str.rfind] in *. destruct (Z.leb_spec 0 (Str.rfind c t)) as [Hr|Hr].
  - destruct (IH Hr) as [A B].
    replace (Z.to_nat (Str.rfind c t + 1)) with (S (Z.to_nat (Str.rfind c t))) by lia.
    replace (Z.to_nat (Str.rfind c t + 1 + 1)) with (S (Z.to_nat (Str.rfind c t + 1))) by lia.
    cbn [Str.take Str.drop append]. split; [f_equal; exact A | exact B].
  - destruct (Ascii.eqb_spec x c) as [->|N]; [|lia].
    cbn. split; [reflexivity|]. apply rfind_none. exact Hr.
Qed.

(** X13 (_find_path_dir, _add_dir_recursive, add_file_path): how a path is
    cut. At the first separator a path is its first component, the
    separator and the rest, and the first component holds no separator;
    without a separator the path is its own first component and the rest is
    empty. At the last separator (add_file_path) a path is its directory
    part, the separator and the file name, and the file name holds no
    separator; without a separator the directory part is empty. *)
Theorem path_splits : forall (path : string),
  (if 0 <=? Str.find backslash path
   then path = (path_seek path ++ String backslash (path_next path))%string
   else path_seek path = path /\ path_next path = EmptyString)
  /\ Str.find backslash (path_seek path) < 0
  /\ (if 0 <=? Str.rfind backslash path
      then path = (dir_part path ++ String backslash (leaf_part path))%string
      else dir_part path = EmptyString /\ leaf_part path = path)
  /\ Str.find backslash (leaf_part path) < 0.
Proof.
  intros path. unfold path_seek, path_next, dir_part, leaf_part. cbv zeta.
  split; [|split; [|split]].
  - destruct (Z.leb_spec 0 (Str.find backslash path)) as [H|H]; [|auto].
    apply find_split. exact H.
  - destruct (Z.leb_spec 0 (Str.find backslash path)) as [H|H].
    + apply find_take.
    + exact H.
  - destruct (Z.leb_spec 0 (Str.rfind backslash path)) as [H|H]; [|auto].
    apply rfind_split. exact H.
  - destruct (Z.leb_spec 0 (Str.rfind backslash path)) as [H|H].
    + apply rfind_split. exact H.
    + apply rfind_none. exact H.
Qed.
